(** * TimedChallenge: the "Blitz" timed recall screen of kana-dojo

    A shallow embedding of the interaction logic of
    [src/shared/components/TimedChallenge/index.tsx]: the hooks of the
    component ([useState] cells, [useEffect] bodies with their dependency
    arrays), its event handlers and its deferred ([setTimeout]) callbacks,
    as functions on an explicit state.  The collaborators the component
    imports but that are not part of the file (the countdown timer, the
    smart reverse-mode hook, the statistics store) are modelled from the
    specification and marked as such. *)

From Stdlib Require Import ZArith NArith QArith Qpower List Bool Lia Ascii Floats
  Uint63 Lqa.
From stdpp Require Import base strings gmap list pretty sorting.

Local Open Scope string_scope.
Local Open Scope Z_scope.

(** ** JavaScript values used by the component *)

(** The JavaScript numbers of the component: [NaN], the two infinities
    and the doubles that are integers, [Num z] standing for the double of
    value [z].  The duration cell holds what [parseInt] returns or one of
    the five presets, and the timer counts whole seconds, so that no other
    number arises.  Decidable equality on this type is [Object.is], the
    comparison React applies to dependency arrays; [-0] is not told from
    [0], which nothing in the component does either. *)
Inductive JSNum : Type :=
| NaN : JSNum
| Num : Z -> JSNum
| Infinity (negative : bool) : JSNum.

#[global] Instance JSNum_eq_dec : EqDecision JSNum.
Proof. solve_decision. Defined.

(** [x === 0] *)
Definition isZero (x : JSNum) : bool :=
  match x with Num 0 => true | _ => false end.

(** The largest integer that is not above a double: [Math.floor]. *)
Definition floorOf (x : spec_float) : JSNum :=
  match x with
  | S754_zero _ => Num 0
  | S754_infinity negative => Infinity negative
  | S754_nan => NaN
  | S754_finite s m e =>
      let num := if s then Z.neg m else Z.pos m in
      Num (match e with
           | Z.neg k => num / 2 ^ Z.pos k
           | _ => num * 2 ^ e
           end)
  end.

(** The Number value of a mathematical integer: the double nearest to it,
    a tie going to the even significand, and an infinity where the
    nearest would be [2^1024] or beyond. *)
Definition ofInteger (z : Z) : JSNum :=
  floorOf (binary_normalize prec emax z 0 false).

(** The same as a primitive double. *)
Definition number (z : Z) : float :=
  SF2Prim (binary_normalize prec emax z 0 false).

(** [Math.floor] *)
Definition Math_floor (x : float) : JSNum := floorOf (Prim2SF x).

(** The number of digits of the decimal numeral of [a >= 0]. *)
Definition decimalDigits (a : Z) : Z := Z.of_nat (String.length (pretty a)).

(** The decimal of [k] significant digits that [Number.prototype.toString]
    names the double [a > 0] by, if there is one: one that rounds to [a],
    the nearer of the two candidates, the even one at equal distance. *)
Definition shortestWith (a k : Z) : option Z :=
  let p := decimalDigits a - k in
  if p <=? 0 then Some a
  else
    let lo := a / 10 ^ p * 10 ^ p in
    let hi := lo + 10 ^ p in
    let loOk := bool_decide (ofInteger lo = Num a) in
    let hiOk := bool_decide (ofInteger hi = Num a) in
    if loOk && hiOk then
      if a - lo <? hi - a then Some lo
      else if hi - a <? a - lo then Some hi
      else if Z.even (a / 10 ^ p) then Some lo else Some hi
    else if loOk then Some lo
    else if hiOk then Some hi
    else None.

Fixpoint shortestFrom (fuel : nat) (a k : Z) : Z :=
  match fuel with
  | O => a
  | S fuel' =>
      match shortestWith a k with
      | Some v => v
      | None => shortestFrom fuel' a (k + 1)
      end
  end.

(** The decimal with the fewest significant digits that rounds to the
    double [a]; seventeen digits always do. *)
Definition shortest (a : Z) : Z := shortestFrom 17 a 1.

Fixpoint dropZeros (s : string) : string :=
  match s with
  | String "0" s' => dropZeros s'
  | _ => s
  end.

(** The exponent form [d.ddde+n] of a decimal with more than 21 digits. *)
Definition exponential (v : Z) : string :=
  let digits := pretty v in
  let e := pretty (Z.of_nat (String.length digits) - 1) in
  match String.rev (dropZeros (String.rev digits)) with
  | String d EmptyString => String d ("e+" +:+ e)
  | String d rest => String d ("." +:+ rest +:+ "e+" +:+ e)
  | EmptyString => digits
  end.

(** [Number.prototype.toString] on the numbers above.  Below [2^53] every
    integer is a double and its numeral is the shortest decimal that names
    it; from there on the shortest decimal is searched for, and it is
    written in exponent form from [1e21] on. *)
Definition toString (x : JSNum) : string :=
  match x with
  | NaN => "NaN"
  | Infinity negative => if negative then "-Infinity" else "Infinity"
  | Num z =>
      if Z.abs z <? 2 ^ 53 then pretty z
      else
        let v := shortest (Z.abs z) in
        let sign := if z <? 0 then "-" else "" in
        if v <? 10 ^ 21 then sign +:+ pretty v else sign +:+ exponential v
  end.

(** Strings are held in UTF-8, as the string literals of this file are:
    equality, emptiness and the search for an ASCII pattern are the same on
    the bytes as on the code units of a well-formed JavaScript string.  The
    white space of [String.prototype.trim] and of [parseInt] is TAB, LF,
    VT, FF, CR and SP, of one byte each, U+00A0 of two bytes, and U+1680,
    U+2000 to U+200A, U+2028, U+2029, U+202F, U+205F, U+3000 and U+FEFF of
    three bytes. *)
Definition isWhiteSpace1 (b1 : ascii) : bool :=
  let n1 := N_of_ascii b1 in
  ((9 <=? n1) && (n1 <=? 13) || (n1 =? 32))%N.

Definition isWhiteSpace2 (b1 b2 : ascii) : bool :=
  ((N_of_ascii b1 =? 194) && (N_of_ascii b2 =? 160))%N.

Definition isWhiteSpace3 (b1 b2 b3 : ascii) : bool :=
  let n1 := N_of_ascii b1 in
  let n2 := N_of_ascii b2 in
  let n3 := N_of_ascii b3 in
  ((n1 =? 225) && (n2 =? 154) && (n3 =? 128)
   || (n1 =? 226) && (n2 =? 128)
      && ((128 <=? n3) && (n3 <=? 138) || (n3 =? 168) || (n3 =? 169) || (n3 =? 175))
   || (n1 =? 226) && (n2 =? 129) && (n3 =? 159)
   || (n1 =? 227) && (n2 =? 128) && (n3 =? 128)
   || (n1 =? 239) && (n2 =? 187) && (n3 =? 191))%N.

(** The string without the white space it starts with; read backwards,
    the bytes of a character come in the opposite order. *)
Fixpoint stripWhite (backwards : bool) (s : string) : string :=
  match s with
  | EmptyString => s
  | String b1 s1 =>
      if isWhiteSpace1 b1 then stripWhite backwards s1
      else
        match s1 with
        | EmptyString => s
        | String b2 s2 =>
            if (if backwards then isWhiteSpace2 b2 b1 else isWhiteSpace2 b1 b2)
            then stripWhite backwards s2
            else
              match s2 with
              | EmptyString => s
              | String b3 s3 =>
                  if (if backwards then isWhiteSpace3 b3 b2 b1
                      else isWhiteSpace3 b1 b2 b3)
                  then stripWhite backwards s3
                  else s
              end
        end
  end.

Definition trimStart (s : string) : string := stripWhite false s.

Definition trimEnd (s : string) : string :=
  String.rev (stripWhite true (String.rev s)).

(** [String.prototype.trim] *)
Definition trim (s : string) : string := trimEnd (trimStart s).

(** The UTF-8 form of a code point below [U+10000]. *)
Definition utf8 (c : N) : string :=
  (if c <? 128 then String (ascii_of_N c) ""
   else if c <? 2048
   then String (ascii_of_N (192 + c / 64)) (String (ascii_of_N (128 + c mod 64)) "")
   else String (ascii_of_N (224 + c / 4096))
          (String (ascii_of_N (128 + (c / 64) mod 64))
             (String (ascii_of_N (128 + c mod 64)) "")))%N.

(** The code points of [WhiteSpace] and [LineTerminator] in ECMAScript:
    the characters [trim] removes. *)
Definition whiteSpaceCodes : list N :=
  [9; 10; 11; 12; 13; 32; 160; 5760; 8192; 8193; 8194; 8195; 8196; 8197; 8198;
   8199; 8200; 8201; 8202; 8232; 8233; 8239; 8287; 12288; 65279]%N.

Definition whiteSpace : list string := utf8 <$> whiteSpaceCodes.

(** A string is truthy when it is not empty. *)
Definition truthy (s : string) : bool :=
  match s with EmptyString => false | _ => true end.

(** The value of a digit of [parseInt], up to radix 36. *)
Definition digitValue (c : ascii) : option Z :=
  let n := Z.of_N (N_of_ascii c) in
  if (48 <=? n) && (n <=? 57) then Some (n - 48)
  else if (97 <=? n) && (n <=? 122) then Some (n - 87)
  else if (65 <=? n) && (n <=? 90) then Some (n - 55)
  else None.

(** The longest prefix of radix-[r] digits, as a number; [None] when the
    prefix is empty. *)
Fixpoint parseDigits (r : Z) (acc : option Z) (s : string) : option Z :=
  match s with
  | EmptyString => acc
  | String c s' =>
      match digitValue c with
      | Some d =>
          if d <? r
          then parseDigits r (Some (match acc with Some a => a * r + d | None => d end)) s'
          else acc
      | None => acc
      end
  end.

(** [parseInt(s)] with no radix argument: leading white space is skipped,
    a sign is read, a [0x]/[0X] prefix selects radix 16 and radix 10 is
    used otherwise; the longest prefix of digits is the integer, of which
    the Number value is returned, and there being none gives [NaN].
    ECMAScript lets an engine read the decimal digits after the twentieth
    as zeros; the engines in use round the integer itself, as is done
    here. *)
Definition parseInt (s : string) : JSNum :=
  let s1 := trimStart s in
  let '(sign, s2) :=
    match s1 with
    | String "-" r => (-1, r)
    | String "+" r => (1, r)
    | _ => (1, s1)
    end in
  let '(radix, s3) :=
    match s2 with
    | String "0" (String "x" r) => (16, r)
    | String "0" (String "X" r) => (16, r)
    | _ => (10, s2)
    end in
  match parseDigits radix None s3 with
  | Some n => ofInteger (sign * n)
  | None => NaN
  end.

(** [Math.round] on a binary64 value: the integer closest to [x], a tie
    going up.  The double is decoded exactly ([m * 2^e]); the result is
    [None] for NaN and the infinities, which [Math.round] returns
    unchanged. *)
Definition Math_round (x : float) : option Z :=
  match Prim2SF x with
  | S754_zero _ => Some 0
  | S754_finite s m e =>
      let num := if s then Z.neg m else Z.pos m in
      Some (match e with
            | Z.neg k => (2 * num + 2 ^ Z.pos k) / (2 * 2 ^ Z.pos k)
            | _ => num * 2 ^ e
            end)
  | _ => None
  end.

(** A counter of the statistics store as the double JavaScript holds
    (exact below 2^53). *)
Definition toNumber (n : N) : float :=
  PrimFloat.of_uint63 (Uint63.of_Z (Z.of_N n)).

(** ** The persisted preferences *)

(** [type BlitzGameMode = 'Pick' | 'Type'].  The type is erased at run
    time: the [gameMode] cell holds a string, and the cast
    [saved as BlitzGameMode] checks nothing. *)
Inductive BlitzGameMode : Type := Pick | Type_.

#[global] Instance BlitzGameMode_eq_dec : EqDecision BlitzGameMode.
Proof. solve_decision. Defined.

Definition modeId (m : BlitzGameMode) : string :=
  match m with Pick => "Pick" | Type_ => "Type" end.

(** [`${localStorageKey}_gameMode`] *)
Definition gameModeKey (localStorageKey : string) : string :=
  localStorageKey +:+ "_gameMode".

(** The [useState] initializer of [gameMode].  [window] is the
    [localStorage] of the browser, [None] where [typeof window] is
    ['undefined'];  [saved || 'Pick'] keeps every non-empty string. *)
Definition initialGameMode (localStorageKey : string)
    (window : option (gmap string string)) : string :=
  match window with
  | Some localStorage =>
      match localStorage !! gameModeKey localStorageKey with
      | Some saved => if truthy saved then saved else "Pick"
      | None => "Pick"
      end
  | None => "Pick"
  end.

(** The [useState] initializer of [challengeDuration]:
    [saved ? parseInt(saved) : 60]. *)
Definition initialChallengeDuration (localStorageKey : string)
    (window : option (gmap string string)) : JSNum :=
  match window with
  | Some localStorage =>
      match localStorage !! localStorageKey with
      | Some saved => if truthy saved then parseInt saved else Num 60
      | None => Num 60
      end
  | None => Num 60
  end.

(** ** The collaborators *)

(** Modelled from the spec: the statistics store behind [config.stats]
    (its implementation is not part of the component).  The counters are
    non-negative integers; a correct answer increments [correct] and
    [streak] and raises [bestStreak] to the maximum of the two, a wrong
    answer increments [wrong] and resets [streak], [reset] zeroes all. *)
Record Stats : Type := mkStats {
  correct : N;
  wrong : N;
  streak : N;
  bestStreak : N
}.

(** Modelled from the spec: [stats.incrementCorrect()]. *)
Definition incrementCorrect (st : Stats) : Stats :=
  mkStats (correct st + 1) (wrong st) (streak st + 1)
          (N.max (bestStreak st) (streak st + 1)).

(** Modelled from the spec: [stats.incrementWrong()]. *)
Definition incrementWrong (st : Stats) : Stats :=
  mkStats (correct st) (wrong st + 1) 0 (bestStreak st).

(** Modelled from the spec: the score after [stats.reset()]. *)
Definition reset : Stats := mkStats 0 0 0 0.

(** Modelled from the spec: the countdown timer behind [useChallengeTimer]
    (the hook is not part of the component).  It exposes a running flag
    and the remaining whole seconds, clamped at 0; [resetTimer] stops it
    and rewinds it to the duration, [startTimer] sets it running, and a
    tick reports the seconds that remain. *)
Record ChallengeTimer : Type := mkTimer {
  isRunning : bool;
  timeLeft : JSNum
}.

(** Modelled from the spec: the remaining time is clamped at 0. *)
Definition clampSeconds (d : JSNum) : JSNum :=
  match d with
  | NaN => NaN
  | Num z => Num (Z.max 0 z)
  | Infinity negative => if negative then Num 0 else Infinity false
  end.

(** Modelled from the spec: [resetTimer()]. *)
Definition resetTimer (duration : JSNum) (t : ChallengeTimer) : ChallengeTimer :=
  mkTimer false (clampSeconds duration).

(** Modelled from the spec: [startTimer()]. *)
Definition startTimer (t : ChallengeTimer) : ChallengeTimer :=
  mkTimer true (timeLeft t).

(** Modelled from the spec: the hook reports [seconds] left. *)
Definition tick (seconds : Z) (t : ChallengeTimer) : ChallengeTimer :=
  mkTimer (isRunning t) (Num (Z.max 0 seconds)).

(** Modelled from the spec: the policy behind [useSmartReverseMode] (the
    hook is not part of the component).  [decideNextMode] counts the
    correct answer and may flip the direction, [flip] being the outcome of
    its streak-weighted draw; [recordWrongAnswer] resets the count of
    consecutive correct answers and keeps the direction. *)
Record SmartReverseMode : Type := mkReverse {
  isReverse : bool;
  consecutiveCorrect : N
}.

(** Modelled from the spec: [decideNextMode()], the mutator called after a
    correct answer. *)
Definition decideNextMode (flip : bool) (r : SmartReverseMode) : SmartReverseMode :=
  mkReverse (xorb (isReverse r) flip) (consecutiveCorrect r + 1).

(** Modelled from the spec: [recordWrongAnswer()], the mutator called
    after a wrong answer. *)
Definition recordWrongAnswer (r : SmartReverseMode) : SmartReverseMode :=
  mkReverse (isReverse r) 0.

(** The sources of randomness outside the configuration, each a function
    of the index of the draw: the comparator shuffle
    [[...options].sort(() => Math.random() - 0.5)] and the draw of the
    reverse-mode policy. *)
Record Environment : Type := mkEnvironment {
  sortRandom : list string -> nat -> list string;
  reverseFlip : SmartReverseMode -> nat -> bool
}.

(** The calls the component makes to its collaborators; the trace of a
    run is the list of them. *)
Inductive Call : Type :=
| Call_playClick | Call_playCorrect | Call_playError
| Call_stats_reset | Call_stats_incrementCorrect | Call_stats_incrementWrong
| Call_decideNextMode | Call_resetReverseStreak
| Call_resetGoals | Call_resetTimer | Call_startTimer
| Call_confetti
| Call_generateQuestion | Call_generateOptions | Call_checkAnswer
| Call_focusInput.

#[global] Instance Call_eq_dec : EqDecision Call.
Proof. solve_decision. Defined.

(** The callbacks handed to [setTimeout]: [startTimer] (50 ms) and the
    focus of the input (100 ms) in [handleStart], the advance to the next
    question (300 ms) after a correct answer, and the clearing of the
    feedback (800 ms) after a wrong typed answer. *)
Inductive Deferred : Type :=
| DeferredStartTimer
| DeferredFocusInput
| DeferredNextQuestion
| DeferredClearFeedback.

#[global] Instance Deferred_eq_dec : EqDecision Deferred.
Proof. solve_decision. Defined.

(** ** The configuration *)

(** [TimedChallengeConfig<T>], without the fields that only feed the
    markup ([dojoType], [dojoLabel], [renderQuestion], ...).  The
    generators draw from [Math.random]: they take the index of the draw.
    An absent [supportsReverseMode] is [false].  The items are objects:
    [!currentQuestion] holds of [null] only, and the equality decided on
    [T] is their identity ([Object.is]). *)
Record TimedChallengeConfig (T : Type) : Type := mkConfig {
  localStorageKey : string;
  items : list T;
  generateQuestion : list T -> nat -> T;
  checkAnswer : T -> string -> bool -> bool;
  getCorrectAnswer : T -> bool -> string;
  generateOptions : option (T -> list T -> Z -> bool -> nat -> list string);
  getCorrectOption : option (T -> bool -> string);
  supportsReverseMode : bool
}.

Arguments mkConfig {T}.
Arguments localStorageKey {T} _.
Arguments items {T} _.
Arguments generateQuestion {T} _.
Arguments checkAnswer {T} _.
Arguments getCorrectAnswer {T} _.
Arguments generateOptions {T} _.
Arguments getCorrectOption {T} _.
Arguments supportsReverseMode {T} _.

(** ** The state of a mounted component *)

(** The values the dependency arrays of the effects are compared on:
    [gameMode] and [challengeDuration] (the two saving effects),
    [currentQuestion], [gameMode] and [isReverseActive] (the options
    effect), [timeLeft] and [isFinished] (the game-over effect). *)
Record Deps (T : Type) : Type := mkDeps {
  dep_gameMode : string;
  dep_challengeDuration : JSNum;
  dep_currentQuestion : option T;
  dep_isReverseActive : bool;
  dep_timeLeft : JSNum;
  dep_isFinished : bool
}.

Arguments mkDeps {T}.
Arguments dep_gameMode {T} _.
Arguments dep_challengeDuration {T} _.
Arguments dep_currentQuestion {T} _.
Arguments dep_isReverseActive {T} _.
Arguments dep_timeLeft {T} _.
Arguments dep_isFinished {T} _.

Record State (T : Type) : Type := mkState {
  (** [useState]: the answer mode, a string at run time *)
  gameMode : string;
  (** [useState]: the duration in seconds *)
  challengeDuration : JSNum;
  (** [useState<T | null>] *)
  currentQuestion : option T;
  (** [useState('')]: the text typed so far *)
  userAnswer : string;
  (** [useState(false)] *)
  isFinished : bool;
  (** [useState<boolean | null>]: the feedback shown *)
  lastAnswerCorrect : option bool;
  (** [useState(false)] *)
  showGoalTimers : bool;
  (** [useState<string[]>]: the options of Pick mode *)
  shuffledOptions : list string;
  (** [useState<string[]>]: the rejected options *)
  wrongSelectedAnswers : list string;
  (** the statistics store, [config.stats] *)
  stats : Stats;
  (** [useChallengeTimer] *)
  timer : ChallengeTimer;
  (** [useSmartReverseMode] *)
  reverse : SmartReverseMode;
  (** the preference store of the browser *)
  localStorage : gmap string string;
  (** the clock of the event loop, in milliseconds *)
  now : Z;
  (** the pending [setTimeout] callbacks with the time they are due, oldest first *)
  timeouts : list (Z * Deferred);
  (** the number of random draws made so far *)
  random : nat;
  (** the calls made to collaborators, newest first *)
  calls : list Call;
  (** the dependency arrays of the last commit, [None] before the mount *)
  committed : option (Deps T)
}.

Arguments gameMode {T} _.
Arguments challengeDuration {T} _.
Arguments currentQuestion {T} _.
Arguments userAnswer {T} _.
Arguments isFinished {T} _.
Arguments lastAnswerCorrect {T} _.
Arguments showGoalTimers {T} _.
Arguments shuffledOptions {T} _.
Arguments wrongSelectedAnswers {T} _.
Arguments stats {T} _.
Arguments timer {T} _.
Arguments reverse {T} _.
Arguments localStorage {T} _.
Arguments now {T} _.
Arguments timeouts {T} _.
Arguments random {T} _.
Arguments calls {T} _.
Arguments committed {T} _.
Arguments mkState {T}.

(** Field updates, one per cell ([setGameMode], [setCurrentQuestion], ...). *)
Definition set_gameMode {T} (v : string) (s : State T) : State T :=
  mkState v (challengeDuration s) (currentQuestion s) (userAnswer s)
  (isFinished s) (lastAnswerCorrect s) (showGoalTimers s) (shuffledOptions
  s) (wrongSelectedAnswers s) (stats s) (timer s) (reverse s) (localStorage
  s) (now s) (timeouts s) (random s) (calls s) (committed s).

Definition set_challengeDuration {T} (v : JSNum) (s : State T) : State T :=
  mkState (gameMode s) v (currentQuestion s) (userAnswer s) (isFinished s)
  (lastAnswerCorrect s) (showGoalTimers s) (shuffledOptions s)
  (wrongSelectedAnswers s) (stats s) (timer s) (reverse s) (localStorage s)
  (now s) (timeouts s) (random s) (calls s) (committed s).

Definition set_currentQuestion {T} (v : option T) (s : State T) : State T :=
  mkState (gameMode s) (challengeDuration s) v (userAnswer s) (isFinished s)
  (lastAnswerCorrect s) (showGoalTimers s) (shuffledOptions s)
  (wrongSelectedAnswers s) (stats s) (timer s) (reverse s) (localStorage s)
  (now s) (timeouts s) (random s) (calls s) (committed s).

Definition set_userAnswer {T} (v : string) (s : State T) : State T :=
  mkState (gameMode s) (challengeDuration s) (currentQuestion s) v
  (isFinished s) (lastAnswerCorrect s) (showGoalTimers s) (shuffledOptions
  s) (wrongSelectedAnswers s) (stats s) (timer s) (reverse s) (localStorage
  s) (now s) (timeouts s) (random s) (calls s) (committed s).

Definition set_isFinished {T} (v : bool) (s : State T) : State T :=
  mkState (gameMode s) (challengeDuration s) (currentQuestion s) (userAnswer
  s) v (lastAnswerCorrect s) (showGoalTimers s) (shuffledOptions s)
  (wrongSelectedAnswers s) (stats s) (timer s) (reverse s) (localStorage s)
  (now s) (timeouts s) (random s) (calls s) (committed s).

Definition set_lastAnswerCorrect {T} (v : option bool) (s : State T) : State T :=
  mkState (gameMode s) (challengeDuration s) (currentQuestion s) (userAnswer
  s) (isFinished s) v (showGoalTimers s) (shuffledOptions s)
  (wrongSelectedAnswers s) (stats s) (timer s) (reverse s) (localStorage s)
  (now s) (timeouts s) (random s) (calls s) (committed s).

Definition set_showGoalTimers {T} (v : bool) (s : State T) : State T :=
  mkState (gameMode s) (challengeDuration s) (currentQuestion s) (userAnswer
  s) (isFinished s) (lastAnswerCorrect s) v (shuffledOptions s)
  (wrongSelectedAnswers s) (stats s) (timer s) (reverse s) (localStorage s)
  (now s) (timeouts s) (random s) (calls s) (committed s).

Definition set_shuffledOptions {T} (v : list string) (s : State T) : State T :=
  mkState (gameMode s) (challengeDuration s) (currentQuestion s) (userAnswer
  s) (isFinished s) (lastAnswerCorrect s) (showGoalTimers s) v
  (wrongSelectedAnswers s) (stats s) (timer s) (reverse s) (localStorage s)
  (now s) (timeouts s) (random s) (calls s) (committed s).

Definition set_wrongSelectedAnswers {T} (v : list string) (s : State T) : State T :=
  mkState (gameMode s) (challengeDuration s) (currentQuestion s) (userAnswer
  s) (isFinished s) (lastAnswerCorrect s) (showGoalTimers s)
  (shuffledOptions s) v (stats s) (timer s) (reverse s) (localStorage s)
  (now s) (timeouts s) (random s) (calls s) (committed s).

Definition set_stats {T} (v : Stats) (s : State T) : State T :=
  mkState (gameMode s) (challengeDuration s) (currentQuestion s) (userAnswer
  s) (isFinished s) (lastAnswerCorrect s) (showGoalTimers s)
  (shuffledOptions s) (wrongSelectedAnswers s) v (timer s) (reverse s)
  (localStorage s) (now s) (timeouts s) (random s) (calls s) (committed s).

Definition set_timer {T} (v : ChallengeTimer) (s : State T) : State T :=
  mkState (gameMode s) (challengeDuration s) (currentQuestion s) (userAnswer
  s) (isFinished s) (lastAnswerCorrect s) (showGoalTimers s)
  (shuffledOptions s) (wrongSelectedAnswers s) (stats s) v (reverse s)
  (localStorage s) (now s) (timeouts s) (random s) (calls s) (committed s).

Definition set_reverse {T} (v : SmartReverseMode) (s : State T) : State T :=
  mkState (gameMode s) (challengeDuration s) (currentQuestion s) (userAnswer
  s) (isFinished s) (lastAnswerCorrect s) (showGoalTimers s)
  (shuffledOptions s) (wrongSelectedAnswers s) (stats s) (timer s) v
  (localStorage s) (now s) (timeouts s) (random s) (calls s) (committed s).

Definition set_localStorage {T} (v : gmap string string) (s : State T) : State T :=
  mkState (gameMode s) (challengeDuration s) (currentQuestion s) (userAnswer
  s) (isFinished s) (lastAnswerCorrect s) (showGoalTimers s)
  (shuffledOptions s) (wrongSelectedAnswers s) (stats s) (timer s) (reverse
  s) v (now s) (timeouts s) (random s) (calls s) (committed s).

Definition set_now {T} (v : Z) (s : State T) : State T :=
  mkState (gameMode s) (challengeDuration s) (currentQuestion s) (userAnswer
  s) (isFinished s) (lastAnswerCorrect s) (showGoalTimers s)
  (shuffledOptions s) (wrongSelectedAnswers s) (stats s) (timer s) (reverse
  s) (localStorage s) v (timeouts s) (random s) (calls s) (committed s).

Definition set_timeouts {T} (v : list (Z * Deferred)) (s : State T) : State T :=
  mkState (gameMode s) (challengeDuration s) (currentQuestion s) (userAnswer
  s) (isFinished s) (lastAnswerCorrect s) (showGoalTimers s)
  (shuffledOptions s) (wrongSelectedAnswers s) (stats s) (timer s) (reverse
  s) (localStorage s) (now s) v (random s) (calls s) (committed s).

Definition set_random {T} (v : nat) (s : State T) : State T :=
  mkState (gameMode s) (challengeDuration s) (currentQuestion s) (userAnswer
  s) (isFinished s) (lastAnswerCorrect s) (showGoalTimers s)
  (shuffledOptions s) (wrongSelectedAnswers s) (stats s) (timer s) (reverse
  s) (localStorage s) (now s) (timeouts s) v (calls s) (committed s).

Definition set_calls {T} (v : list Call) (s : State T) : State T :=
  mkState (gameMode s) (challengeDuration s) (currentQuestion s) (userAnswer
  s) (isFinished s) (lastAnswerCorrect s) (showGoalTimers s)
  (shuffledOptions s) (wrongSelectedAnswers s) (stats s) (timer s) (reverse
  s) (localStorage s) (now s) (timeouts s) (random s) v (committed s).

Definition set_committed {T} (v : option (Deps T)) (s : State T) : State T :=
  mkState (gameMode s) (challengeDuration s) (currentQuestion s) (userAnswer
  s) (isFinished s) (lastAnswerCorrect s) (showGoalTimers s)
  (shuffledOptions s) (wrongSelectedAnswers s) (stats s) (timer s) (reverse
  s) (localStorage s) (now s) (timeouts s) (random s) (calls s) v.
#[global] Instance Stats_eq_dec : EqDecision Stats.
Proof. solve_decision. Defined.

#[global] Instance Deps_eq_dec {T} `{EqDecision T} : EqDecision (Deps T).
Proof. solve_decision. Defined.

(** Handlers are sequences of updates, written in the order of the source. *)
Notation "s |> f" := (f s) (at level 45, left associativity, only parsing).

(** [const accuracy = totalAnswers > 0 ?
      Math.round((stats.correct / totalAnswers) * 100) : 0], in binary64
    arithmetic as JavaScript evaluates it. *)
Definition totalAnswers (st : Stats) : float :=
  (toNumber (correct st) + toNumber (wrong st))%float.

Definition accuracy (st : Stats) : option Z :=
  if (0 <? totalAnswers st)%float
  then Math_round ((toNumber (correct st) / totalAnswers st) * 100)%float
  else Some 0.

(** The same formula over the rationals, a tie rounded up:
    [floor (100 * correct / total + 1/2)]. *)
Definition accuracy_exact (st : Stats) : Z :=
  let c := Z.of_N (correct st) in
  let t := Z.of_N (correct st + wrong st) in
  if t =? 0 then 0 else (200 * c + t) / (2 * t).

(** The four returns of the component. *)
Inductive View : Type :=
| ViewEmpty       (* "Please select some ... first" *)
| ViewPreGame     (* the interstitial with mode, duration and Start *)
| ViewFinished    (* the results modal *)
| ViewActive.     (* the running game *)

#[global] Instance View_eq_dec : EqDecision View.
Proof. solve_decision. Defined.

(** The inputs of the component: the clicks and key strokes the markup
    wires to handlers, the notifications of the countdown timer, and the
    passing of time, which runs the [setTimeout] callbacks that fall due. *)
Inductive Event : Type :=
| ClickGameMode (m : BlitzGameMode)
| ClickDuration (d : Z)
| ClickGoalTimers
| ClickStart
| ClickCancel
| ChangeInput (value : string)
| SubmitForm
| ClickOption (i : nat)
| TimerTick (seconds : Z)
| Elapse (ms : N).

(** The handlers and inline callbacks of the markup. *)
Inductive Handler : Type :=
| OnGameMode (m : BlitzGameMode)   (* [setGameMode(mode.id)] *)
| OnDuration (d : Z)               (* [setChallengeDuration(duration)] *)
| OnGoalTimers                     (* [setShowGoalTimers(!showGoalTimers)] *)
| OnStart                          (* [handleStart] *)
| OnCancel                         (* [handleCancel] *)
| OnChange (value : string)        (* [setUserAnswer(e.target.value)] *)
| OnSubmit                         (* [handleSubmit] *)
| OnOption (selected : string)     (* [handleOptionClick(option)] *)
| OnTick (seconds : Z).            (* the timer hook reports the time left *)

#[global] Instance Handler_eq_dec : EqDecision Handler.
Proof. solve_decision. Defined.

(** Stable insertion by due time: callbacks due at the same time run in
    the order they were scheduled. *)
Fixpoint insertDue (p : Z * Deferred) (l : list (Z * Deferred)) : list (Z * Deferred) :=
  match l with
  | [] => [p]
  | q :: l' => if fst q <=? fst p then q :: insertDue p l' else p :: q :: l'
  end.

Definition sortDue (l : list (Z * Deferred)) : list (Z * Deferred) :=
  fold_left (fun acc p => insertDue p acc) l [].

Section Component.
Context {T : Type} `{EqDecision T}.
Variable config : TimedChallengeConfig T.
Variable env : Environment.

Definition call (c : Call) (s : State T) : State T :=
  set_calls (c :: calls s) s.

(** One draw from [Math.random] has been made. *)
Definition draw (s : State T) : State T :=
  set_random (S (random s)) s.

(** [const pickModeSupported = !!(generateOptions && getCorrectOption)] *)
Definition pickModeSupported : bool :=
  match generateOptions config, getCorrectOption config with
  | Some _, Some _ => true
  | _, _ => false
  end.

(** [const isReverseActive = supportsReverseMode && isReverse] *)
Definition isReverseActive (s : State T) : bool :=
  supportsReverseMode config && isReverse (reverse s).

(** The state before the first render: the two initializers read the
    preference store; the statistics and the reverse-mode policy are
    whatever their stores hold. *)
Definition initialState (window : option (gmap string string))
    (stats0 : Stats) (reverse0 : SmartReverseMode) : State T :=
  let duration := initialChallengeDuration (localStorageKey config) window in
  mkState (initialGameMode (localStorageKey config) window) duration
          None "" false None false [] []
          stats0 (mkTimer false (clampSeconds duration)) reverse0
          (default ∅ window) 0 [] 0%nat [] None.

(** *** Effects *)

Definition depsOf (s : State T) : Deps T :=
  mkDeps (gameMode s) (challengeDuration s) (currentQuestion s)
         (isReverseActive s) (timeLeft (timer s)) (isFinished s).

(** An effect runs after the mount and after a render in which a value
    of its dependency array differs from the one of the last commit. *)
Definition changed {A : Type} `{EqDecision A} (f : Deps T -> A)
    (r : State T) : bool :=
  match committed r with
  | None => true
  | Some last => negb (bool_decide (f last = f (depsOf r)))
  end.

(** [setCurrentQuestion(generateQuestionRef.current(items))] *)
Definition nextQuestion (s : State T) : State T :=
  let q := generateQuestion config (items config) (random s) in
  s |> call Call_generateQuestion |> draw |> set_currentQuestion (Some q).

(** The effects read the values of the render they belong to, [r], and
    queue their updates on [s].  In source order: *)

(** [localStorage.setItem(`${localStorageKey}_gameMode`, gameMode)],
    on [[gameMode, localStorageKey]]. *)
Definition effect_saveGameMode (r s : State T) : State T :=
  if changed dep_gameMode r
  then set_localStorage
         (<[gameModeKey (localStorageKey config) := gameMode r]> (localStorage s)) s
  else s.

(** [localStorage.setItem(localStorageKey, challengeDuration.toString())],
    on [[challengeDuration, localStorageKey]]. *)
Definition effect_saveDuration (r s : State T) : State T :=
  if changed dep_challengeDuration r
  then set_localStorage
         (<[localStorageKey config := toString (challengeDuration r)]> (localStorage s)) s
  else s.

(** The first question, on [[items]]: it runs at the mount only. *)
Definition effect_firstQuestion (r s : State T) : State T :=
  match committed r with
  | None =>
      match items config, currentQuestion r with
      | _ :: _, None => nextQuestion s
      | _, _ => s
      end
  | Some _ => s
  end.

(** The shuffled options of Pick mode, on
    [[currentQuestion, gameMode, isReverseActive]]. *)
Definition effect_shuffledOptions (r s : State T) : State T :=
  if changed (fun d => (dep_currentQuestion d, dep_gameMode d, dep_isReverseActive d)) r
  then
    match currentQuestion r, generateOptions config with
    | Some q, Some generate =>
        if bool_decide (gameMode r = "Pick")
        then
          let options := generate q (items config) 3 (isReverseActive r) (random s) in
          let shuffled := sortRandom env options (S (random s)) in
          s |> call Call_generateOptions |> draw |> draw
            |> set_shuffledOptions shuffled
            |> set_wrongSelectedAnswers []
        else s
    | _, _ => s
    end
  else s.

(** The game over, on [[timeLeft, isFinished]]. *)
Definition effect_gameOver (r s : State T) : State T :=
  if changed (fun d => (dep_timeLeft d, dep_isFinished d)) r
  then
    if isZero (timeLeft (timer r)) && negb (isFinished r)
    then s |> set_isFinished true |> call Call_confetti
    else s
  else s.

(** The two remaining effects touch the page only: the focus of the
    input, and the key listener for the digits 1 to 3, which clicks the
    option buttons ([ClickOption] below). *)

(** One render and the effects after it. *)
Definition commit (r : State T) : State T :=
  r |> effect_saveGameMode r
    |> effect_saveDuration r
    |> effect_firstQuestion r
    |> effect_shuffledOptions r
    |> effect_gameOver r
    |> set_committed (Some (depsOf r)).

(** No dependency differs from the last commit: nothing is left to run. *)
Definition quiescent (s : State T) : bool :=
  bool_decide (committed s = Some (depsOf s)).

(** React renders again while effects changed the state. *)
Fixpoint settle (fuel : nat) (s : State T) : State T :=
  match fuel with
  | O => s
  | S fuel' => if quiescent s then s else settle fuel' (commit s)
  end.

Definition render (s : State T) : State T := settle 3 s.

(** *** Handlers *)

(** [setTimeout(callback, delay)] *)
Definition setTimeout (d : Deferred) (delay : Z) (s : State T) : State T :=
  set_timeouts (timeouts s ++ [(now s + delay, d)]) s.

Definition do_resetTimer (s : State T) : State T :=
  s |> call Call_resetTimer
    |> set_timer (resetTimer (challengeDuration s) (timer s)).

Definition do_startTimer (s : State T) : State T :=
  s |> call Call_startTimer |> set_timer (startTimer (timer s)).

Definition do_decideNextMode (s : State T) : State T :=
  let flip := reverseFlip env (reverse s) (random s) in
  s |> call Call_decideNextMode |> draw
    |> set_reverse (decideNextMode flip (reverse s)).

Definition do_resetReverseStreak (s : State T) : State T :=
  s |> call Call_resetReverseStreak
    |> set_reverse (recordWrongAnswer (reverse s)).

Definition do_incrementCorrect (s : State T) : State T :=
  s |> call Call_stats_incrementCorrect
    |> set_stats (incrementCorrect (stats s)).

Definition do_incrementWrong (s : State T) : State T :=
  s |> call Call_stats_incrementWrong
    |> set_stats (incrementWrong (stats s)).

Definition handleStart (s : State T) : State T :=
  s |> call Call_playClick
    |> call Call_stats_reset |> set_stats reset
    |> set_isFinished false
    |> set_userAnswer ""
    |> set_lastAnswerCorrect None
    |> set_wrongSelectedAnswers []
    |> nextQuestion
    |> call Call_resetGoals
    |> do_resetTimer
    |> setTimeout DeferredStartTimer 50
    |> setTimeout DeferredFocusInput 100.

Definition handleCancel (s : State T) : State T :=
  s |> call Call_playClick
    |> do_resetTimer
    |> set_isFinished false
    |> set_userAnswer ""
    |> set_lastAnswerCorrect None
    |> set_wrongSelectedAnswers [].

(** The head of [handleSubmit]: the early return
    [if (!currentQuestion || !userAnswer.trim()) return], which gives
    [None], and the verdict
    [checkAnswer(currentQuestion, userAnswer.trim(), isReverseActive)]. *)
Definition submitVerdict (s : State T) : option bool :=
  match currentQuestion s with
  | None => None
  | Some q =>
      if truthy (trim (userAnswer s))
      then Some (checkAnswer config q (trim (userAnswer s)) (isReverseActive s))
      else None
  end.

(** The submit handler of Type mode. *)
Definition handleSubmit (s : State T) : State T :=
  match submitVerdict s with
  | None => s
  | Some isCorrect =>
      let s := s |> call Call_playClick |> call Call_checkAnswer in
      (if isCorrect
       then
         s |> call Call_playCorrect
           |> do_incrementCorrect
           |> set_lastAnswerCorrect (Some true)
           |> (if supportsReverseMode config then do_decideNextMode else id)
           |> setTimeout DeferredNextQuestion 300
       else
         s |> call Call_playError
           |> do_incrementWrong
           |> (if supportsReverseMode config then do_resetReverseStreak else id)
           |> set_lastAnswerCorrect (Some false)
           |> setTimeout DeferredClearFeedback 800)
      |> set_userAnswer ""
  end.

(** The head of [handleOptionClick]: the early return
    [if (!currentQuestion || !getCorrectOption) return] and the verdict
    [selectedOption === getCorrectOption(currentQuestion, isReverseActive)]. *)
Definition optionVerdict (selectedOption : string) (s : State T) : option bool :=
  match currentQuestion s, getCorrectOption config with
  | Some q, Some getCorrect =>
      let correctOption := getCorrect q (isReverseActive s) in
      Some (bool_decide (selectedOption = correctOption))
  | _, _ => None
  end.

(** The click handler of the options of Pick mode. *)
Definition handleOptionClick (selectedOption : string) (s : State T) : State T :=
  match optionVerdict selectedOption s with
  | None => s
  | Some isCorrect =>
      if isCorrect
      then
        s |> call Call_playCorrect
          |> do_incrementCorrect
          |> set_lastAnswerCorrect (Some true)
          |> set_wrongSelectedAnswers []
          |> (if supportsReverseMode config then do_decideNextMode else id)
          |> setTimeout DeferredNextQuestion 300
      else
        s |> call Call_playError
          |> do_incrementWrong
          |> set_wrongSelectedAnswers (wrongSelectedAnswers s ++ [selectedOption])
          |> set_lastAnswerCorrect (Some false)
          |> (if supportsReverseMode config then do_resetReverseStreak else id)
  end.

(** The bodies of the [setTimeout] callbacks.  None of them looks at the
    state it finds, and none schedules another callback; the focus of
    the input touches the page only. *)
Definition fireDeferred (d : Deferred) (s : State T) : State T :=
  match d with
  | DeferredStartTimer => do_startTimer s
  | DeferredFocusInput => s
  | DeferredNextQuestion => s |> nextQuestion |> set_lastAnswerCorrect None
  | DeferredClearFeedback => s |> set_lastAnswerCorrect None
  end.

(** *** The views and what they wire *)

Definition view (s : State T) : View :=
  match items config with
  | [] => ViewEmpty
  | _ :: _ =>
      if negb (isRunning (timer s)) && negb (isFinished s) then ViewPreGame
      else if isFinished s then ViewFinished
      else ViewActive
  end.

(** The handler an event reaches, [None] where the view shows no such
    control or shows it disabled.  The mode and duration buttons and the
    goal-timer toggle belong to the pre-game view, Start to the pre-game
    and the finished view, Cancel, the form and the options to the
    active view; an option button is disabled once its option is among
    the rejected ones, and the digit keys click the same buttons.  The
    notifications of the timer reach the component in every view. *)
Definition wired (s : State T) (e : Event) : option Handler :=
  match e with
  | ClickGameMode m =>
      if bool_decide (view s = ViewPreGame)
         && negb (bool_decide (m = Pick) && negb pickModeSupported)
      then Some (OnGameMode m) else None
  | ClickDuration d =>
      if bool_decide (view s = ViewPreGame)
         && bool_decide (d ∈ [30; 60; 90; 120; 180])
      then Some (OnDuration d) else None
  | ClickGoalTimers =>
      if bool_decide (view s = ViewPreGame) then Some OnGoalTimers else None
  | ClickStart =>
      if bool_decide (view s = ViewPreGame) || bool_decide (view s = ViewFinished)
      then Some OnStart else None
  | ClickCancel =>
      if bool_decide (view s = ViewActive) then Some OnCancel else None
  | ChangeInput value =>
      if bool_decide (view s = ViewActive) && bool_decide (gameMode s = "Type")
      then Some (OnChange value) else None
  | SubmitForm =>
      if bool_decide (view s = ViewActive) && bool_decide (gameMode s = "Type")
      then Some OnSubmit else None
  | ClickOption i =>
      if bool_decide (view s = ViewActive) && bool_decide (gameMode s = "Pick")
      then
        match shuffledOptions s !! i with
        | Some selected =>
            if bool_decide (selected ∈ wrongSelectedAnswers s) then None
            else Some (OnOption selected)
        | None => None
        end
      else None
  | TimerTick seconds => Some (OnTick seconds)
  | Elapse _ => None
  end.

Definition invoke (h : Handler) (s : State T) : State T :=
  match h with
  | OnGameMode m => s |> call Call_playClick |> set_gameMode (modeId m)
  | OnDuration d => s |> call Call_playClick |> set_challengeDuration (Num d)
  | OnGoalTimers => set_showGoalTimers (negb (showGoalTimers s)) s
  | OnStart => handleStart s
  | OnCancel => handleCancel s
  | OnChange value => set_userAnswer value s
  | OnSubmit => handleSubmit s
  | OnOption selected => handleOptionClick selected s
  | OnTick seconds => set_timer (tick seconds (timer s)) s
  end.

(** The verdict on the answer an event submits, [None] when it submits
    none. *)
Definition verdict (s : State T) (e : Event) : option bool :=
  match wired s e with
  | Some OnSubmit => submitVerdict s
  | Some (OnOption selected) => optionVerdict selected s
  | _ => None
  end.

(** The callbacks due by [target], in the order they run: by due time,
    the older first among equals. *)
Definition dueBy (target : Z) (s : State T) : list (Z * Deferred) :=
  sortDue (filter (fun p => fst p <= target) (timeouts s)).

Definition notDueBy (target : Z) (s : State T) : list (Z * Deferred) :=
  filter (fun p => target < fst p) (timeouts s).

(** One callback runs and React renders. *)
Definition runDeferred (s : State T) (p : Z * Deferred) : State T :=
  s |> set_now (Z.max (now s) (fst p)) |> fireDeferred (snd p) |> render.

Definition elapse (ms : N) (s : State T) : State T :=
  let target := now s + Z.of_N ms in
  fold_left runDeferred (dueBy target s) (set_timeouts (notDueBy target s) s)
    |> set_now target.

(** One input: time passes, or a handler runs and React renders. *)
Definition step (s : State T) (e : Event) : State T :=
  match e with
  | Elapse ms => elapse ms s
  | _ =>
      match wired s e with
      | Some h => render (invoke h s)
      | None => s
      end
  end.

Definition run (s : State T) (trace : list Event) : State T :=
  fold_left step trace s.

(** The component after its mount. *)
Definition mount (window : option (gmap string string))
    (stats0 : Stats) (reverse0 : SmartReverseMode) : State T :=
  render (initialState window stats0 reverse0).

(** The number of calls of a kind made so far. *)
Definition callCount (c : Call) (s : State T) : nat :=
  length (filter (fun c' => c' = c) (calls s)).

(** The answers of a verdict submitted along a trace. *)
Fixpoint answers (isCorrect : bool) (s : State T) (trace : list Event) : nat :=
  match trace with
  | [] => 0%nat
  | e :: trace' =>
      ((if bool_decide (verdict s e = Some isCorrect) then 1 else 0)
       + answers isCorrect (step s e) trace')%nat
  end.
End Component.

(** ** Closed forms of a commit and of a render *)

Section ClosedForms.
Context {T : Type} `{EqDecision T}.
Variable config : TimedChallengeConfig T.
Variable env : Environment.

(** The body of the game-over effect runs in the commit of [r]. *)
Definition gameOverFires (r : State T) : bool :=
  changed config (fun d => (dep_timeLeft d, dep_isFinished d)) r
  && isZero (timeLeft (timer r)) && negb (isFinished r).

(** The body of the options effect runs in the commit of [r]: one of
    [currentQuestion], [gameMode], [isReverseActive] changed, and the
    condition of its [if] holds. *)
Definition optionsFire (r : State T) : bool :=
  changed config
    (fun d => (dep_currentQuestion d, dep_gameMode d, dep_isReverseActive d)) r
  && bool_decide (is_Some (currentQuestion r))
  && bool_decide (is_Some (generateOptions config))
  && bool_decide (gameMode r = "Pick").

Definition newOptions (r s : State T) : list string :=
  match currentQuestion r, generateOptions config with
  | Some q, Some generate =>
      sortRandom env
        (generate q (items config) 3 (isReverseActive config r) (random s))
        (S (random s))
  | _, _ => shuffledOptions s
  end.

Definition regenerated (r s : State T) : State T :=
  s |> call Call_generateOptions |> draw |> draw
    |> set_shuffledOptions (newOptions r s)
    |> set_wrongSelectedAnswers [].

Definition gameOver (s : State T) : State T :=
  s |> set_isFinished true |> call Call_confetti.

Definition savedPreferences (r : State T) : gmap string string :=
  let saved :=
    if changed config dep_gameMode r
    then <[gameModeKey (localStorageKey config) := gameMode r]> (localStorage r)
    else localStorage r in
  if changed config dep_challengeDuration r
  then <[localStorageKey config := toString (challengeDuration r)]> saved
  else saved.

(** A commit of a mounted component. *)
Definition committedForm (r : State T) : State T :=
  r |> set_localStorage (savedPreferences r)
    |> (if optionsFire r then regenerated r else id)
    |> (if gameOverFires r then gameOver else id)
    |> set_committed (Some (depsOf config r)).

(** A render of a mounted component. *)
Definition renderedForm (s : State T) : State T :=
  let s' := committedForm s in
  set_committed (Some (depsOf config s')) s'.

(** What the handlers rely on between two inputs: nothing is left to
    run, and the game is over once no time is left. *)
Definition settled (s : State T) : bool :=
  quiescent config s && implb (isZero (timeLeft (timer s))) (isFinished s).

(** The values the options effect depends on. *)
Definition optionsDeps (s : State T) : option T * string * bool :=
  (currentQuestion s, gameMode s, isReverseActive config s).

(** The component with another [checkAnswer]. *)
Definition with_checkAnswer (check : T -> string -> bool -> bool) :
    TimedChallengeConfig T :=
  mkConfig (localStorageKey config) (items config) (generateQuestion config)
           check (getCorrectAnswer config) (generateOptions config)
           (getCorrectOption config) (supportsReverseMode config).
End ClosedForms.

(** Inputs that neither start nor cancel a session. *)
Definition withinSession (e : Event) : bool :=
  match e with ClickStart | ClickCancel => false | _ => true end.

(** The timer reports that no time is left. *)
Definition zeroTick (e : Event) : bool :=
  match e with TimerTick seconds => seconds <=? 0 | _ => false end.

(** The exact value of [100 * correct / total] lies half way between two
    integers. *)
Definition tie (st : Stats) : bool :=
  let c := Z.of_N (correct st) in
  let t := Z.of_N (correct st + wrong st) in
  (200 * c) mod (2 * t) =? t.

(** ** A small instance: five kana, answered by their own name *)

Definition kana : list string := ["a"; "i"; "u"; "e"; "o"].

(** The question of draw [n] is the kana at [n mod 5]; the options are the
    answer and the first other kana. *)
Definition demoConfig : TimedChallengeConfig string :=
  mkConfig "blitz" kana
    (fun items n => nth (n `mod` 5) items "")
    (fun q answer _ => bool_decide (answer = q))
    (fun q _ => q)
    (Some (fun q items count _ _ =>
             q :: take (Z.to_nat count - 1) (filter (fun x => x <> q) items)))
    (Some (fun q _ => q))
    true.

(** The shuffle keeps the order, the policy flips at every draw. *)
Definition demoEnv : Environment :=
  mkEnvironment (fun options _ => options) (fun _ _ => true).

Definition demoMounted : State string :=
  mount demoConfig demoEnv (Some ∅) reset (mkReverse false 0).

(** A session in Pick mode, its timer running. *)
Definition demoRunning : State string :=
  run demoConfig demoEnv demoMounted [ClickStart; Elapse 100].

(** The same component with no items selected. *)
Definition emptyConfig : TimedChallengeConfig string :=
  mkConfig "blitz" [] (generateQuestion demoConfig) (checkAnswer demoConfig)
    (getCorrectAnswer demoConfig) (generateOptions demoConfig)
    (getCorrectOption demoConfig) true.

(** ** Verdicts *)

Section Verdicts.
Context {T : Type} `{EqDecision T}.
Variable config : TimedChallengeConfig T.

(** The verdict a handler computes, [None] when it computes none. *)
Definition handlerVerdict (h : Handler) (s : State T) : option bool :=
  match h with
  | OnSubmit => submitVerdict config s
  | OnOption selected => optionVerdict config selected s
  | _ => None
  end.
End Verdicts.

(** ** Options and questions *)

Section Regeneration.
Context {T : Type} `{EqDecision T}.
Variable config : TimedChallengeConfig T.

(** The condition under which the update [s1] of [s] makes the options
    effect run: one of its dependencies changed, a question is present,
    [generateOptions] is supplied and the mode is Pick. *)
Definition regenerates (s s1 : State T) : bool :=
  negb (bool_decide (optionsDeps config s1 = optionsDeps config s))
  && bool_decide (is_Some (currentQuestion s1))
  && bool_decide (is_Some (generateOptions config))
  && bool_decide (gameMode s1 = "Pick").

(** The current question was drawn at or after draw [r0]. *)
Definition freshQuestion (r0 : nat) (s : State T) : Prop :=
  exists k, (r0 <= k)%nat
            /\ currentQuestion s = Some (generateQuestion config (items config) k).
End Regeneration.

(** The demo session after the correct answer, which schedules the next
    question 300 ms later and flips the reverse mode. *)
Definition demoAnswered : State string :=
  step demoConfig demoEnv demoRunning (ClickOption 0).

(** 50 ms later the session is cancelled and a new one started; 100 ms
    into the new session its own callbacks have run. *)
Definition demoRestarted : State string :=
  run demoConfig demoEnv demoAnswered [Elapse 50; ClickCancel; ClickStart; Elapse 100].

(** 150 ms later the callback of the cancelled session falls due. *)
Definition demoStale : State string :=
  step demoConfig demoEnv demoRestarted (Elapse 150).

(** Before the game, the mode is switched to Type and back to Pick. *)
Definition demoTypeMode : State string :=
  step demoConfig demoEnv demoMounted (ClickGameMode Type_).

Definition demoPickAgain : State string :=
  step demoConfig demoEnv demoTypeMode (ClickGameMode Pick).

(** Four correct answers in a row, each followed by its next question, and
    then a wrong one. *)
Definition demoFourCorrect : list Event :=
  [ClickOption 0; Elapse 300; ClickOption 0; Elapse 300;
   ClickOption 0; Elapse 300; ClickOption 0; Elapse 300].

Definition demoThenWrong : list Event := (demoFourCorrect ++ [ClickOption 1])%list.

(** A [checkAnswer] that accepts everything, and one that accepts
    nothing. *)
Definition acceptAll : string -> string -> bool -> bool := fun _ _ _ => true.

Definition rejectAll : string -> string -> bool -> bool := fun _ _ _ => false.

(** A session in Pick mode with one correct answer and then a wrong one,
    whose feedback is still shown and whose option is disabled. *)
Definition demoScored : State string :=
  run demoConfig demoEnv demoRunning [ClickOption 0; Elapse 300; ClickOption 1].

(** A session in Type mode with one correct and one wrong answer, the
    feedback of the wrong one still shown and "i" typed. *)
Definition demoTypedScored : State string :=
  run demoConfig demoEnv demoMounted
      [ClickGameMode Type_; ClickStart; Elapse 100; ChangeInput "e"; SubmitForm;
       Elapse 300; ChangeInput "zz"; SubmitForm; ChangeInput "i"].

(** A session in Type mode of 30 seconds: "e" right, "zz" wrong, "a"
    right, "u" right, "x" wrong, and the time is up. *)
Definition demoTypedSession : list Event :=
  [ClickGameMode Type_; ClickDuration 30; ClickStart; Elapse 100;
   ChangeInput " e "; SubmitForm; Elapse 300;
   ChangeInput "zz"; SubmitForm; Elapse 800;
   ChangeInput "a"; SubmitForm; Elapse 300;
   ChangeInput "u"; SubmitForm; Elapse 300;
   ChangeInput "x"; SubmitForm; Elapse 800;
   TimerTick 0].

(** Nothing runs and nothing is pending. *)
Definition idle {T : Type} (s : State T) : Prop :=
  isRunning (timer s) = false /\ timeouts s = []
  /\ callCount Call_startTimer s = 0%nat.

(** Inputs of the demo session: ticks down to zero and past it, with an
    answer in between. *)
Definition demoCountdown : list Event :=
  [TimerTick 1; TimerTick 0; TimerTick 0; ClickOption 0; Elapse 300; TimerTick 0].

(** Inputs to a component without items. *)
Definition demoClicks : list Event :=
  [ClickStart; ClickGameMode Type_; TimerTick 0; Elapse 100; ClickStart].




(** A preference store with a duration of [10^21] seconds. *)
Definition largeStore : gmap string string :=
  {[ "blitz" := "1000000000000000000000" ]}.

Definition demoLarge : State string :=
  mount demoConfig demoEnv (Some largeStore) reset (mkReverse false 0).

(** ** What a render leaves alone *)

(** The calls no effect makes. *)
Definition quietCall (c : Call) : bool :=
  negb (bool_decide (c ∈ [Call_generateQuestion; Call_generateOptions; Call_confetti])).

Section Frames.
Context {T : Type}.

(** The cells and collaborators no effect writes. *)
Definition untouched (s s' : State T) : Prop :=
  gameMode s' = gameMode s /\ challengeDuration s' = challengeDuration s /\
  userAnswer s' = userAnswer s /\ lastAnswerCorrect s' = lastAnswerCorrect s /\
  showGoalTimers s' = showGoalTimers s /\ stats s' = stats s /\
  timer s' = timer s /\ reverse s' = reverse s /\ now s' = now s /\
  timeouts s' = timeouts s.

(** What holds between a state and the state a render makes of it. *)
Definition rendersTo (s s' : State T) : Prop :=
  untouched s s' /\
  (forall c, quietCall c = true -> callCount c s' = callCount c s) /\
  (wrongSelectedAnswers s' = wrongSelectedAnswers s \/ wrongSelectedAnswers s' = []) /\
  (is_Some (currentQuestion s) -> currentQuestion s' = currentQuestion s) /\
  (is_Some (committed s) -> currentQuestion s' = currentQuestion s) /\
  (random s <= random s')%nat.
End Frames.

(** ** Decimal numerals *)

Definition isDigit (c : ascii) : Prop :=
  exists d, (d < 10)%N /\ c = pretty_N_char d.

Definition startsWithDigit (s : string) : Prop :=
  s = "" \/ exists c rest, s = String c rest /\ isDigit c.

Definition valueOf (acc : option Z) : Z := default 0 acc.

(** ** What the component maintains between two inputs *)

(** The calls made once for each answer of a verdict: the counter of the
    statistics store and the sound. *)
Definition answerCalls (isCorrect : bool) : list Call :=
  if isCorrect then [Call_stats_incrementCorrect; Call_playCorrect]
  else [Call_stats_incrementWrong; Call_playError].

(** The feedback line of the active view. *)
Inductive Feedback : Type :=
| FeedbackCorrect                      (* "Correct!" *)
| FeedbackTryAgain                     (* "Try again!" *)
| FeedbackIncorrect (answer : string). (* "Incorrect! It was ..." *)

Section Invariants.
Context {T : Type} `{EqDecision T}.
Variable config : TimedChallengeConfig T.

(** The preference store holds the values of the two cells. *)
Definition persisted (s : State T) : Prop :=
  localStorage s !! gameModeKey (localStorageKey config) = Some (gameMode s)
  /\ localStorage s !! localStorageKey config = Some (toString (challengeDuration s)).

(** The rejected options of Pick mode: without [generateOptions] no
    option is shown; the rejected options are distinct and among those
    shown; there is none before the game; and each of them is a wrong
    answer to the current question, in Pick mode. *)
Definition rejectedOptions (s : State T) : Prop :=
  (generateOptions config = None -> shuffledOptions s = [])
  /\ NoDup (wrongSelectedAnswers s)
  /\ (forall o, o ∈ wrongSelectedAnswers s -> o ∈ shuffledOptions s)
  /\ (isRunning (timer s) = false -> isFinished s = false ->
      wrongSelectedAnswers s = [])
  /\ (forall o, o ∈ wrongSelectedAnswers s ->
      gameMode s = "Pick" /\ optionVerdict config o s = Some false).

(** Every pending callback is due within the next 800 ms. *)
Definition pendingWithin (s : State T) : Prop :=
  Forall (fun p : Z * Deferred => now s < fst p <= now s + 800) (timeouts s).

(** The feedback line: shown when [lastAnswerCorrect !== null &&
    currentQuestion]; a wrong answer is answered by "Try again!" in Pick
    mode and by the correct answer of the current question otherwise. *)
Definition feedback (s : State T) : option Feedback :=
  match lastAnswerCorrect s, currentQuestion s with
  | Some isCorrect, Some q =>
      Some (if isCorrect then FeedbackCorrect
            else if bool_decide (gameMode s = "Pick") then FeedbackTryAgain
            else FeedbackIncorrect (getCorrectAnswer config q (isReverseActive config s)))
  | _, _ => None
  end.

(** The callback [handleSubmit] schedules after an answer. *)
Definition submitCallback (isCorrect : bool) (s : State T) : Z * Deferred :=
  if isCorrect then (now s + 300, DeferredNextQuestion)
  else (now s + 800, DeferredClearFeedback).
End Invariants.

Section Shown.
Context {T : Type} `{EqDecision T}.
Variable config : TimedChallengeConfig T.
Variable env : Environment.

(** In Pick mode the options shown are those generated for the current
    question in its current direction, at some draw. *)
Definition optionsCurrent (s : State T) : Prop :=
  gameMode s = "Pick" ->
  forall q generate,
    currentQuestion s = Some q -> generateOptions config = Some generate ->
    exists k, shuffledOptions s
              = sortRandom env
                  (generate q (items config) 3 (isReverseActive config s) k) (S k).
End Shown.

(** The concatenation of a list of characters. *)
Definition padding (l : list string) : string := String.concat "" l.

(** A string starts with a character, not in the middle of one: its
    first byte is no continuation byte of UTF-8. *)
Definition startsCharacter (s : string) : bool :=
  match s with
  | EmptyString => true
  | String b _ => let n := N_of_ascii b in ((n <? 128) || (192 <=? n))%N
  end.

(** ** The key listener of Pick mode *)

(** [keyMap[event.code]]: the index of the option a key stands for. *)
Definition keyMap : list (string * nat) :=
  [("Digit1", 0%nat); ("Digit2", 1%nat); ("Digit3", 2%nat);
   ("Numpad1", 0%nat); ("Numpad2", 1%nat); ("Numpad3", 2%nat)].

Definition keyIndex (code : string) : option nat :=
  snd <$> find (fun entry => bool_decide (fst entry = code)) keyMap.

Section Keyboard.
Context {T : Type} `{EqDecision T}.
Variable config : TimedChallengeConfig T.
Variable env : Environment.

(** [handleKeyDown]: [buttonRefs.current[index]?.click()] is the click on
    the option button [index]; it does nothing where the button is not
    mounted or is disabled. *)
Definition handleKeyDown (code : string) (s : State T) : State T :=
  match keyIndex code with
  | Some index =>
      if (index <? length (shuffledOptions s))%nat
      then step config env s (ClickOption index)
      else s
  | None => s
  end.

(** A key stroke: the listener is registered while
    [isRunning && gameMode === 'Pick']. *)
Definition keyDown (code : string) (s : State T) : State T :=
  if isRunning (timer s) && bool_decide (gameMode s = "Pick")
  then handleKeyDown code s
  else s.
End Keyboard.

(** ** The times of the goals *)

(** [String.prototype.padStart(targetLength, c)] with a pad of one
    character. *)
Fixpoint repeatChar (n : nat) (c : ascii) : string :=
  match n with O => "" | S n' => String c (repeatChar n' c) end.

Definition padStart (targetLength : nat) (c : ascii) (s : string) : string :=
  repeatChar (targetLength - String.length s) c +:+ s.

(** [x % n] on a double that is an integer: the remainder is exact and
    has the sign of [x]; that of an infinity is [NaN]. *)
Definition remainder (x : JSNum) (n : Z) : JSNum :=
  match x with
  | Num z => Num (z `rem` n)
  | _ => NaN
  end.

(** [(targetSeconds % 60).toString().padStart(2, '0')] *)
Definition goalSeconds (targetSeconds : Z) : string :=
  padStart 2 "0" (toString (remainder (ofInteger targetSeconds) 60)).

(** [Math.floor(targetSeconds / 60)], the division being that of the
    doubles. *)
Definition goalMinutes (targetSeconds : Z) : string :=
  toString (Math_floor (number targetSeconds / 60)).

(** The time of a goal as the results and the side bar show it, for a
    goal of a whole number of seconds, held as the double nearest to
    it. *)
Definition formatGoalTime (targetSeconds : Z) : string :=
  goalMinutes targetSeconds +:+ ":" +:+ goalSeconds targetSeconds.

(** The seconds [r] are shown with two characters and read back as [r]. *)
Definition goalSeconds_ok (r : nat) : bool :=
  bool_decide (String.length (goalSeconds (Z.of_nat r)) = 2%nat)
  && bool_decide (parseInt (goalSeconds (Z.of_nat r)) = Num (Z.of_nat r)).

(** ** The selected levels *)

(** [\D] is every character but the ten digits. *)
Definition isDigitChar (c : ascii) : bool :=
  let n := N_of_ascii c in ((48 <=? n) && (n <=? 57))%N.

(** [a.replace(/\D/g, '')] *)
Fixpoint removeNonDigits (s : string) : string :=
  match s with
  | EmptyString => EmptyString
  | String c s' =>
      if isDigitChar c then String c (removeNonDigits s') else removeNonDigits s'
  end.

(** [parseInt(a.replace(/\D/g, '')) || 0]: the double made of the digits
    of the name, [0] when it has none.  The digits of a long name can make
    it [Infinity], which stands here as [2^1024], above every double. *)
Definition setNumber (a : string) : Z :=
  match parseInt (removeNonDigits a) with
  | Num n => n
  | NaN => 0
  | Infinity _ => 2 ^ 1024
  end.

(** [selectedSets.sort((a, b) => numA - numB)].  The difference of two
    doubles has the sign of their comparison, and that of two infinities
    is [NaN], which [sort] takes as [0]: the comparator is a consistent
    order on the numbers.  [Array.prototype.sort] is stable, so the result
    is the one stable arrangement by number, which insertion from the left
    computes. *)
Fixpoint insertSet (a : string) (l : list string) : list string :=
  match l with
  | [] => [a]
  | b :: l' =>
      if setNumber b <=? setNumber a then b :: insertSet a l' else a :: b :: l'
  end.

Definition sortSets (selectedSets : list string) : list string :=
  fold_left (fun acc a => insertSet a acc) selectedSets [].

(** [s.replace(pattern, '')] with a string as pattern: the first
    occurrence is removed. *)
Fixpoint removeFirst (pattern s : string) : string :=
  if String.prefix pattern s
  then String.substring (String.length pattern)
         (String.length s - String.length pattern) s
  else match s with
       | EmptyString => EmptyString
       | String c s' => String c (removeFirst pattern s')
       end.

(** [set.replace('Set ', '').replace('Level ', '')] *)
Definition levelName (set : string) : string :=
  removeFirst "Level " (removeFirst "Set " set).

(** [Array.prototype.join(', ')] *)
Fixpoint join (l : list string) : string :=
  match l with
  | [] => ""
  | [a] => a
  | a :: l' => a +:+ ", " +:+ join l'
  end.

(** The levels as the pre-game view lists them, in the compact and in the
    full form; [None] where [selectedSets] is absent or empty and the
    number of items is shown instead. *)
Definition selectedLevels (full : bool) (selectedSets : option (list string)) :
    option string :=
  match selectedSets with
  | Some (a :: l) =>
      Some (join ((fun set => if full then "Level " +:+ levelName set else levelName set)
                    <$> sortSets (a :: l)))
  | _ => None
  end.

(** The order of the numbers of two sets. *)
Definition byNumber (a b : string) : Prop := setNumber a <= setNumber b.

(** ** Doubles and their rounding *)

(** What the rounding of the library keeps of a value [N / D] while it
    shifts the digits out: the integer part [shr_m], whether the rest
    reaches one half ([shr_r]) and whether anything lies beyond that
    ([shr_s]). *)
Definition located (mrs : shr_record) (N D : Z) : Prop :=
  let m := shr_m mrs in
  0 <= m /\
  match shr_r mrs, shr_s mrs with
  | false, false => N = m * D
  | false, true => 2 * (m * D) < 2 * N < 2 * (m * D) + D
  | true, false => 2 * N = 2 * (m * D) + D
  | true, true => 2 * (m * D) + D < 2 * N < 2 * (m * D) + 2 * D
  end.

(** The double of a positive integer below [2^53], with its 53 digits. *)
Definition canon (z : Z) : spec_float :=
  S754_finite false (Z.to_pos (z * 2 ^ (53 - Zdigits2 z))) (Zdigits2 z - 53).

(** The double of a counter. *)
Definition double (z : Z) : spec_float :=
  if z =? 0 then S754_zero false else canon z.

(** The value [M * 2^E] of a double. *)
Definition F2Q (M E : Z) : Q := (inject_Z M * 2 ^ E)%Q.

(** The error of the accuracy expression: [57 / 2^52], and [41 / 2^51]
    where no answer was wrong. *)
Definition accuracy_error (st : Stats) : Q :=
  if (wrong st =? 0)%N then 41 # 2251799813685248 else 57 # 4503599627370496.

(** ** Further instances *)

(** The demo component without the two functions of Pick mode. *)
Definition typeOnlyConfig : TimedChallengeConfig string :=
  mkConfig "blitz" kana (generateQuestion demoConfig) (checkAnswer demoConfig)
    (getCorrectAnswer demoConfig) None None true.

(** A session of it, started with the mode left at its default. *)
Definition typeOnlySession : list Event := [ClickStart; Elapse 100].

(** A session in Type mode with "zz" typed, which is no kana. *)
Definition demoTyping : State string :=
  run demoConfig demoEnv demoMounted
      [ClickGameMode Type_; ClickStart; Elapse 100; ChangeInput "zz"].

(** The same session before anything is typed. *)
Definition demoTypeReady : State string :=
  run demoConfig demoEnv demoMounted [ClickGameMode Type_; ClickStart; Elapse 100].

(** The [generateOptions] of the demo component. *)
Definition demoOptions (q : string) (items : list string) (count : Z)
    (isReverse : bool) (draw : nat) : list string :=
  q :: take (Z.to_nat count - 1) (filter (fun x => x <> q) items).

(** A session whose time is up. *)
Definition demoTimeUp : list Event := [ClickStart; Elapse 100; TimerTick 0].

(** * Properties *)

(** ** The model at work *)

Example parseInt_examples :
  parseInt "90" = Num 90 /\ parseInt "  -12px" = Num (-12)
  /\ parseInt "0x1F" = Num 31 /\ parseInt "010" = Num 10
  /\ parseInt "abc" = NaN /\ parseInt "" = NaN /\ parseInt "-" = NaN.
Proof. repeat split; reflexivity. Qed.

(** Beyond [2^53] a numeral is read as the double nearest to it, and a
    number is written with the fewest digits that name it, in exponent
    form from [10^21] on, of which [parseInt] reads the first digit. *)
Example number_examples :
  parseInt "9007199254740993" = Num 9007199254740992
  /\ toString (Num (2 ^ 64)) = "18446744073709552000"
  /\ parseInt "18446744073709552000" = Num (2 ^ 64)
  /\ toString (Num (10 ^ 21)) = "1e+21" /\ parseInt "1e+21" = Num 1
  /\ toString (Num (2 ^ 70)) = "1.1805916207174113e+21"
  /\ toString (Num (- 2 ^ 53)) = "-9007199254740992"
  /\ ofInteger (2 ^ 1024) = Infinity false
  /\ toString (Infinity false) = "Infinity" /\ parseInt "Infinity" = NaN.
Proof. by vm_compute. Qed.

(** The white space of [trim] is that of Unicode: the ideographic space
    goes, the zero width space stays, and no byte of a kana is taken for
    a no-break space. *)
Example trim_examples :
  trim "  a b  " = "a b" /\ trim "   " = "" /\ trim "kana" = "kana"
  /\ trim "ム" = "ム" /\ trim "　あ　" = "あ"
  /\ trim (utf8 160 +:+ "a b" +:+ utf8 65279) = "a b"
  /\ trim (utf8 8203 +:+ "a") = utf8 8203 +:+ "a".
Proof. by vm_compute. Qed.

Example Math_round_examples :
  Math_round 57.5%float = Some 58
  /\ Math_round (toNumber 23 / toNumber 40 * 100)%float = Some 57
  /\ Math_round 0.5%float = Some 1 /\ Math_round 70%float = Some 70.
Proof. vm_compute. repeat split; reflexivity. Qed.

(** After the mount the demo shows the pre-game view in Pick mode, with a
    first question, its options, and the preferences saved. *)
Example demo_mounted :
  view demoConfig demoMounted = ViewPreGame
  /\ gameMode demoMounted = "Pick"
  /\ challengeDuration demoMounted = Num 60
  /\ currentQuestion demoMounted = Some "a"
  /\ shuffledOptions demoMounted = ["a"; "i"; "u"]
  /\ localStorage demoMounted !! "blitz" = Some "60"
  /\ localStorage demoMounted !! "blitz_gameMode" = Some "Pick".
Proof. vm_compute. repeat split; reflexivity. Qed.

(** The scenario of the specification: three correct and two wrong typed
    answers before the time is up. *)
Example demo_typed_session :
  stats (run demoConfig demoEnv demoMounted demoTypedSession) = mkStats 3 2 0 2
  /\ accuracy (stats (run demoConfig demoEnv demoMounted demoTypedSession)) = Some 60
  /\ view demoConfig (run demoConfig demoEnv demoMounted demoTypedSession)
     = ViewFinished.
Proof. vm_compute. repeat split; reflexivity. Qed.

(** ** Renders *)

Section Renders.
Context {T : Type} `{EqDecision T}.
Variable config : TimedChallengeConfig T.
Variable env : Environment.

Lemma set_localStorage_eta (s : State T) :
  set_localStorage (localStorage s) s = s.
Proof. by destruct s. Qed.

Lemma set_committed_eta (s : State T) : set_committed (committed s) s = s.
Proof. by destruct s. Qed.

(** The three effects that change the state, as conditionals on the
    render they belong to. *)
Lemma effect_shuffledOptions_fires (r s : State T) :
  effect_shuffledOptions config env r s
  = (if optionsFire config r then regenerated config env r else id) s.
Proof.
  unfold effect_shuffledOptions, optionsFire, regenerated, newOptions.
  destruct (changed config _ r); simpl; [|reflexivity].
  destruct (currentQuestion r) as [q|]; simpl; [|reflexivity].
  destruct (generateOptions config) as [g|]; simpl; [|reflexivity].
  case_bool_decide; reflexivity.
Qed.

Lemma effect_gameOver_fires (r s : State T) :
  effect_gameOver config r s
  = (if gameOverFires config r then gameOver else id) s.
Proof.
  unfold effect_gameOver, gameOverFires.
  destruct (changed config _ r); simpl; [|reflexivity].
  destruct (isZero _ && negb _); reflexivity.
Qed.

Lemma effects_save (r : State T) :
  effect_saveDuration config r (effect_saveGameMode config r r)
  = set_localStorage (savedPreferences config r) r.
Proof.
  unfold effect_saveDuration, effect_saveGameMode, savedPreferences.
  destruct r; repeat case_match; reflexivity.
Qed.

Lemma commit_mounted (r : State T) d :
  committed r = Some d -> commit config env r = committedForm config env r.
Proof.
  intros Hd. unfold commit, committedForm, effect_firstQuestion.
  rewrite Hd, effects_save, effect_shuffledOptions_fires, effect_gameOver_fires.
  reflexivity.
Qed.

(** What a commit leaves of the dependency arrays. *)
Lemma depsOf_committedForm (r : State T) :
  depsOf config (committedForm config env r)
  = mkDeps (gameMode r) (challengeDuration r) (currentQuestion r)
           (isReverseActive config r) (timeLeft (timer r))
           (isFinished r || gameOverFires config r).
Proof.
  unfold committedForm, depsOf, isReverseActive.
  destruct (optionsFire config r), (gameOverFires config r); simpl;
    rewrite ?orb_true_r, ?orb_false_r; reflexivity.
Qed.

Lemma gameOverFires_not_finished (r : State T) :
  gameOverFires config r = true -> isFinished r = false.
Proof.
  unfold gameOverFires. intros Hgo.
  apply andb_true_iff in Hgo as [_ Hgo]. by apply negb_true_iff.
Qed.

Lemma committed_committedForm (r : State T) :
  committed (committedForm config env r) = Some (depsOf config r).
Proof. reflexivity. Qed.

Lemma quiescent_committedForm (r : State T) :
  quiescent config (committedForm config env r) = negb (gameOverFires config r).
Proof.
  unfold quiescent. rewrite depsOf_committedForm.
  destruct (gameOverFires config r) eqn:Hgo; simpl.
  - apply gameOverFires_not_finished in Hgo.
    apply bool_decide_eq_false_2. intros Heq. injection Heq as Heq.
    unfold depsOf in Heq. rewrite Hgo in Heq. simplify_eq.
  - apply bool_decide_eq_true_2. simpl.
    unfold depsOf. by rewrite orb_false_r.
Qed.

(** A commit whose dependency arrays differ from the last ones in
    [isFinished] at most, and then with the game over: no effect body
    runs. *)
Lemma committedForm_idle (s : State T) d :
  committed s = Some d ->
  dep_gameMode d = gameMode s ->
  dep_challengeDuration d = challengeDuration s ->
  dep_currentQuestion d = currentQuestion s ->
  dep_isReverseActive d = isReverseActive config s ->
  dep_timeLeft d = timeLeft (timer s) ->
  dep_isFinished d = isFinished s \/ isFinished s = true ->
  committedForm config env s = set_committed (Some (depsOf config s)) s.
Proof.
  intros Hd Hm Hc Hq Hr Ht Hf. unfold committedForm.
  assert (savedPreferences config s = localStorage s) as ->.
  { unfold savedPreferences, changed. rewrite Hd. simpl. rewrite Hm, Hc.
    by rewrite !bool_decide_eq_true_2. }
  assert (optionsFire config s = false) as ->.
  { unfold optionsFire, changed. rewrite Hd. simpl. rewrite Hq, Hm, Hr.
    by rewrite bool_decide_eq_true_2. }
  assert (gameOverFires config s = false) as ->.
  { unfold gameOverFires, changed. rewrite Hd. simpl. rewrite Ht.
    destruct Hf as [-> | ->].
    - by rewrite bool_decide_eq_true_2.
    - by rewrite andb_false_r. }
  simpl. by rewrite set_localStorage_eta.
Qed.

Lemma committedForm_twice (r : State T) :
  committedForm config env (committedForm config env r)
  = renderedForm config env r.
Proof.
  unfold renderedForm.
  eapply committedForm_idle; [apply committed_committedForm | ..];
    unfold committedForm, depsOf, isReverseActive;
    destruct (optionsFire config r), (gameOverFires config r); simpl; auto.
Qed.

Lemma quiescent_renderedForm (s : State T) :
  quiescent config (renderedForm config env s) = true.
Proof. unfold quiescent, renderedForm. by apply bool_decide_eq_true_2. Qed.

Lemma renderedForm_quiescent (s : State T) :
  quiescent config s = true -> renderedForm config env s = s.
Proof.
  unfold quiescent. intros Hq%bool_decide_eq_true_1.
  assert (committedForm config env s = s) as Hc.
  { erewrite committedForm_idle; [| exact Hq | simpl; auto ..].
    rewrite <- Hq. apply set_committed_eta. }
  unfold renderedForm. rewrite Hc, <- Hq. apply set_committed_eta.
Qed.

Lemma settle_quiescent fuel (s : State T) :
  quiescent config s = true -> settle config env fuel s = s.
Proof. intros Hq. destruct fuel; simpl; [done | by rewrite Hq]. Qed.

(** Two commits settle a mounted component. *)
Lemma settle_mounted fuel (s : State T) d :
  committed s = Some d ->
  settle config env (S (S fuel)) s = renderedForm config env s.
Proof.
  intros Hd. cbn [settle].
  destruct (quiescent config s) eqn:Hq.
  { symmetry. by apply renderedForm_quiescent. }
  rewrite (commit_mounted s d Hd), quiescent_committedForm.
  destruct (gameOverFires config s) eqn:Hgo; simpl.
  - rewrite (commit_mounted _ _ (committed_committedForm s)).
    rewrite committedForm_twice. apply settle_quiescent, quiescent_renderedForm.
  - symmetry. unfold renderedForm.
    assert (depsOf config (committedForm config env s) = depsOf config s) as ->.
    { rewrite depsOf_committedForm, Hgo, orb_false_r. reflexivity. }
    rewrite <- (committed_committedForm s) at 1. apply set_committed_eta.
Qed.

Lemma render_mounted (s : State T) d :
  committed s = Some d -> render config env s = renderedForm config env s.
Proof. apply settle_mounted. Qed.

(** The render after the mount: the effects all run once, and the
    component is mounted. *)
Lemma render_unmounted (s : State T) :
  committed s = None ->
  render config env s = renderedForm config env (commit config env s).
Proof.
  intros Hn. unfold render.
  change (settle config env 3 s)
    with (if quiescent config s then s
          else settle config env 2 (commit config env s)).
  assert (quiescent config s = false) as ->.
  { unfold quiescent. rewrite Hn. by apply bool_decide_eq_false_2. }
  by eapply settle_mounted.
Qed.

(** React's loop ends: whatever the state, a render leaves nothing to
    run. *)
Lemma render_quiescent (s : State T) :
  quiescent config (render config env s) = true.
Proof.
  destruct (committed s) as [d|] eqn:Hd.
  - rewrite (render_mounted s d Hd). apply quiescent_renderedForm.
  - rewrite (render_unmounted s Hd). apply quiescent_renderedForm.
Qed.
End Renders.

(** ** What a render leaves alone *)

Section FrameLemmas.
Context {T : Type} `{EqDecision T}.
Variable config : TimedChallengeConfig T.
Variable env : Environment.

Lemma callCount_call (c c' : Call) (s : State T) :
  callCount c (call c' s)
  = ((if bool_decide (c' = c) then 1 else 0) + callCount c s)%nat.
Proof.
  unfold callCount, call. simpl. rewrite filter_cons.
  case_decide; case_bool_decide; simpl; congruence.
Qed.

Lemma untouched_refl (s : State T) : untouched s s.
Proof. by repeat split. Qed.

Lemma untouched_trans (s1 s2 s3 : State T) :
  untouched s1 s2 -> untouched s2 s3 -> untouched s1 s3.
Proof.
  unfold untouched. intros H12 H23. destruct_and!. repeat split; congruence.
Qed.

Lemma rendersTo_refl (s : State T) : rendersTo s s.
Proof. unfold rendersTo, untouched. repeat split; auto. Qed.

Lemma rendersTo_trans (s1 s2 s3 : State T) :
  rendersTo s1 s2 -> committed s1 = None \/ is_Some (committed s2) ->
  rendersTo s2 s3 -> rendersTo s1 s3.
Proof.
  intros (U12 & C12 & W12 & Q12 & M12 & R12) Hm (U23 & C23 & W23 & Q23 & M23 & R23).
  split; [by eapply untouched_trans|]. split; [|split; [|split; [|split; [|lia]]]].
  - intros c Hc. by rewrite C23, C12.
  - destruct W23 as [-> | ->]; auto.
  - intros Hq. pose proof (Q12 Hq) as Hq2. rewrite <- Hq2 in Hq.
    by rewrite (Q23 Hq).
  - intros Hs. destruct Hm as [Hn | Hm].
    + rewrite Hn in Hs. by destruct Hs.
    + by rewrite (M23 Hm), (M12 Hs).
Qed.

Ltac frame_cases :=
  unfold rendersTo, untouched, callCount, quietCall;
  repeat split; simpl; auto; try lia;
  try (let c := fresh "c" in let Hquiet := fresh "Hquiet" in
       intros c Hquiet; apply negb_true_iff, bool_decide_eq_false_1 in Hquiet;
       rewrite ?filter_cons; repeat case_decide; simplify_eq/=;
       first [done | exfalso; apply Hquiet; set_solver]).

Lemma regenerated_rendersTo (r s : State T) :
  rendersTo s (regenerated config env r s).
Proof. unfold regenerated, call, draw. frame_cases. Qed.

Lemma gameOver_rendersTo (s : State T) : rendersTo s (gameOver s).
Proof. unfold gameOver, call. frame_cases. Qed.

Lemma effect_firstQuestion_rendersTo (r s : State T) :
  currentQuestion s = currentQuestion r -> committed s = committed r ->
  rendersTo s (effect_firstQuestion config r s).
Proof.
  intros Hq Hc. unfold effect_firstQuestion.
  destruct (committed r) eqn:Hr; [apply rendersTo_refl|].
  destruct (items config); [apply rendersTo_refl|].
  destruct (currentQuestion r) eqn:Hqr; [apply rendersTo_refl|].
  unfold nextQuestion, call, draw. frame_cases.
  - rewrite Hq. by intros [? ?].
  - rewrite Hc. by intros [? ?].
Qed.

Lemma committedForm_rendersTo (r : State T) :
  rendersTo r (committedForm config env r).
Proof.
  unfold committedForm.
  destruct (optionsFire config r), (gameOverFires config r);
    unfold regenerated, gameOver, call, draw, id; frame_cases.
Qed.

Lemma renderedForm_rendersTo (s : State T) :
  rendersTo s (renderedForm config env s).
Proof.
  unfold renderedForm, committedForm.
  destruct (optionsFire config s), (gameOverFires config s);
    unfold regenerated, gameOver, call, draw, id; frame_cases.
Qed.

Lemma commit_rendersTo (r : State T) : rendersTo r (commit config env r).
Proof.
  destruct (committed r) as [d|] eqn:Hd.
  { rewrite (commit_mounted config env r d Hd). apply committedForm_rendersTo. }
  unfold commit.
  rewrite effects_save, effect_shuffledOptions_fires, effect_gameOver_fires.
  pose proof (effect_firstQuestion_rendersTo r
                (set_localStorage (savedPreferences config r) r)
                eq_refl eq_refl) as Hfirst.
  set (s1 := effect_firstQuestion config r _) in *.
  eapply (rendersTo_trans _ s1); [| by left |].
  { eapply (rendersTo_trans _ (set_localStorage (savedPreferences config r) r));
      [| by left | exact Hfirst].
    frame_cases. }
  destruct (optionsFire config r), (gameOverFires config r);
    unfold regenerated, gameOver, call, draw, id; frame_cases;
    rewrite Hd; by intros [? ?].
Qed.

Lemma render_rendersTo (s : State T) : rendersTo s (render config env s).
Proof.
  destruct (committed s) as [d|] eqn:Hd.
  - rewrite (render_mounted config env s d Hd). apply renderedForm_rendersTo.
  - rewrite (render_unmounted config env s Hd).
    eapply rendersTo_trans;
      [apply commit_rendersTo | by left | apply renderedForm_rendersTo].
Qed.

Lemma render_untouched (s : State T) : untouched s (render config env s).
Proof. apply render_rendersTo. Qed.

Lemma render_callCount (c : Call) (s : State T) :
  quietCall c = true -> callCount c (render config env s) = callCount c s.
Proof. intros Hc. by apply render_rendersTo. Qed.

Lemma render_currentQuestion (s : State T) :
  is_Some (currentQuestion s) \/ is_Some (committed s) ->
  currentQuestion (render config env s) = currentQuestion s.
Proof.
  destruct (render_rendersTo s) as (_ & _ & _ & Hq & Hm & _). intros [?|?]; auto.
Qed.

Lemma render_random (s : State T) : (random s <= random (render config env s))%nat.
Proof. apply render_rendersTo. Qed.

Lemma render_wrongSelectedAnswers_nil (s : State T) :
  wrongSelectedAnswers s = [] -> wrongSelectedAnswers (render config env s) = [].
Proof.
  intros Hs. destruct (render_rendersTo s) as (_ & _ & [-> | ->] & _); done.
Qed.

Lemma render_committed (s : State T) : is_Some (committed (render config env s)).
Proof.
  pose proof (render_quiescent config env s) as Hq.
  unfold quiescent in Hq. apply bool_decide_eq_true_1 in Hq. rewrite Hq. eauto.
Qed.
End FrameLemmas.

(** ** Double precision *)

(** The rounding of the library, [binary_round_aux], on a value that is
    given exactly as a fraction: the result is a double with 53 digits
    that is at most half a unit of its last digit away, and it is the
    value itself where that is a double. *)

Lemma digits2_pos_size (p : positive) : digits2_pos p = Pos.size p.
Proof. induction p; simpl; congruence. Qed.

Lemma Zdigits2_log2 (m : Z) : 0 < m -> Zdigits2 m = Z.log2 m + 1.
Proof.
  destruct m as [|p|p]; try lia. intros _. simpl.
  rewrite digits2_pos_size. destruct p; simpl; lia.
Qed.

Lemma Zdigits2_bounds (m : Z) :
  0 < m -> 2 ^ (Zdigits2 m - 1) <= m < 2 ^ Zdigits2 m.
Proof.
  intros Hm. rewrite Zdigits2_log2 by done.
  replace (Z.log2 m + 1 - 1) with (Z.log2 m) by lia.
  replace (Z.log2 m + 1) with (Z.succ (Z.log2 m)) by lia.
  by apply Z.log2_spec.
Qed.

Lemma Zdigits2_unique (m d : Z) :
  2 ^ (d - 1) <= m < 2 ^ d -> 0 < d -> Zdigits2 m = d.
Proof.
  intros Hm Hd.
  assert (0 < m) by (pose proof (Z.pow_pos_nonneg 2 (d - 1)); lia).
  rewrite Zdigits2_log2 by done.
  rewrite (Z.log2_unique m (d - 1)); [lia | lia |].
  replace (Z.succ (d - 1)) with d by lia. done.
Qed.

Lemma shr_1_located mrs N D :
  0 < D -> located mrs N D -> located (shr_1 mrs) N (2 * D).
Proof.
  intros HD [Hm H]. destruct mrs as [m r s]. unfold located.
  cbn [shr_m shr_r shr_s] in *.
  destruct m as [|[p|p|]|p]; try lia; cbn [shr_1 shr_m shr_r shr_s].
  - destruct r, s; cbn [orb] in *; (split; [lia|]); lia.
  - assert (Z.pos p~1 * D = 2 * (Z.pos p * D) + D) as Hp by lia.
    rewrite Hp in H. clear Hp.
    assert (Z.pos p * (2 * D) = 2 * (Z.pos p * D)) as -> by lia.
    set (X := Z.pos p * D) in *.
    destruct r, s; cbn [orb] in *; (split; [lia|]); lia.
  - assert (Z.pos p~0 * D = 2 * (Z.pos p * D)) as Hp by lia.
    rewrite Hp in H. clear Hp.
    assert (Z.pos p * (2 * D) = 2 * (Z.pos p * D)) as -> by lia.
    set (X := Z.pos p * D) in *.
    destruct r, s; cbn [orb] in *; (split; [lia|]); lia.
  - destruct r, s; cbn [orb] in *; (split; [lia|]); lia.
Qed.

Lemma iter_pos_shr_1_located n mrs N D :
  0 < D -> located mrs N D ->
  located (SpecFloat.iter_pos shr_1 n mrs) N (2 ^ Z.pos n * D).
Proof.
  revert mrs D. induction n as [n IH|n IH|]; intros mrs D HD H.
  - assert (2 ^ Z.pos n~1 * D = 2 ^ Z.pos n * (2 ^ Z.pos n * (2 * D))) as ->.
    { rewrite (Pos2Z.inj_xI n).
      replace (2 * Z.pos n + 1) with (Z.pos n + Z.pos n + 1) by lia.
      rewrite !Z.pow_add_r by lia. rewrite Z.pow_1_r. ring. }
    pose proof (Z.pow_pos_nonneg 2 (Z.pos n)).
    change (SpecFloat.iter_pos shr_1 n~1 mrs)
      with (SpecFloat.iter_pos shr_1 n (SpecFloat.iter_pos shr_1 n (shr_1 mrs))).
    apply IH; [nia|]. apply IH; [lia|]. by apply shr_1_located.
  - assert (2 ^ Z.pos n~0 * D = 2 ^ Z.pos n * (2 ^ Z.pos n * D)) as ->.
    { rewrite (Pos2Z.inj_xO n).
      replace (2 * Z.pos n) with (Z.pos n + Z.pos n) by lia.
      rewrite !Z.pow_add_r by lia. ring. }
    pose proof (Z.pow_pos_nonneg 2 (Z.pos n)).
    change (SpecFloat.iter_pos shr_1 n~0 mrs) with (SpecFloat.iter_pos shr_1 n (SpecFloat.iter_pos shr_1 n mrs)).
    apply IH; [nia|]. by apply IH.
  - replace (2 ^ 1 * D) with (2 * D) by lia. by apply shr_1_located.
Qed.

Lemma located_floor mrs N D :
  0 < D -> located mrs N D -> shr_m mrs * D <= N < shr_m mrs * D + D.
Proof.
  intros HD [Hm H]. destruct (shr_r mrs), (shr_s mrs); lia.
Qed.

Lemma shr_record_of_loc_located m l :
  shr_m (shr_record_of_loc m l) = m.
Proof. by destruct l as [|[]]. Qed.

Lemma shr_located mrs e n N D :
  0 < D -> 0 <= n -> located mrs N D ->
  located (fst (shr mrs e n)) N (2 ^ n * D) /\ snd (shr mrs e n) = e + n.
Proof.
  intros HD Hn H. destruct n as [|n|n]; try lia; cbn [shr fst snd].
  - split; [|lia]. by replace (2 ^ 0 * D) with D by lia.
  - split; [|done]. by apply iter_pos_shr_1_located.
Qed.

Lemma round_located mrs N D :
  0 < D -> located mrs N D ->
  let M := round_nearest_even (shr_m mrs) (loc_of_shr_record mrs) in
  shr_m mrs <= M <= shr_m mrs + 1
  /\ - D <= 2 * (M * D - N) <= D
  /\ (forall X, N = X * D -> M = X /\ shr_m mrs = X).
Proof.
  intros HD [Hm H]. destruct mrs as [m [] []]; cbn [shr_m shr_r shr_s] in *;
    cbn [loc_of_shr_record round_nearest_even].
  - assert ((m + 1) * D = m * D + D) as Hp by lia.
    split; [lia|]. rewrite Hp. split; [lia|].
    intros X ->. nia.
  - destruct (Z.even m).
    + split; [lia|]. split; [lia|]. intros X ->. nia.
    + assert ((m + 1) * D = m * D + D) as Hp by lia.
      split; [lia|]. rewrite Hp. split; [lia|]. intros X ->. nia.
  - split; [lia|]. split; [lia|]. intros X ->. nia.
  - split; [lia|]. split; [lia|]. intros X HX. nia.
Qed.

Lemma binary_round_aux_spec sx mx ex lx N D :
  0 < D -> 0 < mx ->
  located (shr_record_of_loc mx lx) N D ->
  53 <= Zdigits2 mx ->
  -1074 <= ex + (Zdigits2 mx - 53) ->
  ex + (Zdigits2 mx - 53) + 1 <= 971 ->
  exists M E,
    binary_round_aux prec emax sx mx ex lx = S754_finite sx (Z.to_pos M) E
    /\ 2 ^ 52 <= M < 2 ^ 53
    /\ ex + (Zdigits2 mx - 53) <= E <= ex + (Zdigits2 mx - 53) + 1
    /\ - (2 ^ (E - ex) * D) <= 2 * (M * (2 ^ (E - ex) * D) - N) <= 2 ^ (E - ex) * D
    /\ (forall X, N = X * (2 ^ (Zdigits2 mx - 53) * D) ->
          M = X /\ E = ex + (Zdigits2 mx - 53)).
Proof.
  intros HD Hmx Hloc Hd Hlo Hhi.
  pose proof (Zdigits2_bounds mx Hmx) as Hmxb.
  set (d := Zdigits2 mx) in *. set (n := d - 53) in *.
  unfold binary_round_aux, shr_fexp. fold d.
  assert (fexp prec emax (d + ex) - ex = n) as ->.
  { unfold fexp, emin, prec, emax. lia. }
  destruct (shr_located (shr_record_of_loc mx lx) ex n N D HD ltac:(lia) Hloc)
    as [Hloc' He'].
  destruct (shr (shr_record_of_loc mx lx) ex n) as [mrs' e'].
  cbn [fst snd] in Hloc', He'. subst e'.
  assert (0 < 2 ^ n) as HP by (apply Z.pow_pos_nonneg; lia).
  set (P := 2 ^ n) in *.
  assert (0 < P * D) as HD' by nia.
  pose proof (located_floor _ _ _ HD Hloc) as Hfl.
  rewrite shr_record_of_loc_located in Hfl.
  pose proof (located_floor _ _ _ HD' Hloc') as Hfl'.
  destruct (round_located mrs' N (P * D) HD' Hloc') as (HM & Hnear & Hexact).
  set (M := round_nearest_even (shr_m mrs') (loc_of_shr_record mrs')) in *.
  set (m' := shr_m mrs') in *.
  assert (2 ^ d = P * 2 ^ 53) as Hd1.
  { unfold P, n. rewrite <- Z.pow_add_r by lia. f_equal. lia. }
  assert (2 ^ (d - 1) = P * 2 ^ 52) as Hd2.
  { unfold P, n. rewrite <- Z.pow_add_r by lia. f_equal. lia. }
  assert (2 ^ 52 <= m' < 2 ^ 53) as Hm'.
  { split.
    - apply Z.lt_succ_r. apply (Z.mul_lt_mono_pos_r (P * D)); [done|].
      assert (2 ^ 52 * (P * D) = 2 ^ (d - 1) * D) as -> by (rewrite Hd2; ring).
      nia.
    - apply (Z.mul_lt_mono_pos_r (P * D)); [done|].
      assert (2 ^ 53 * (P * D) = 2 ^ d * D) as -> by (rewrite Hd1; ring).
      nia. }
  destruct (Z.eq_dec M (2 ^ 53)) as [HM53 | HM53].
  - (* the rounding carries into the next binade *)
    rewrite HM53.
    assert (fexp prec emax (Zdigits2 (2 ^ 53) + (ex + n)) - (ex + n) = 1) as ->.
    { change (Zdigits2 (2 ^ 53)) with 54. unfold fexp, emin, prec, emax. lia. }
    cbn [shr shr_record_of_loc SpecFloat.iter_pos]. 
    change (shr_1 {| shr_m := 2 ^ 53; shr_r := false; shr_s := false |})
      with {| shr_m := 2 ^ 52; shr_r := false; shr_s := false |}.
    cbn [shr_m]. change (2 ^ 52) with (Z.pos (Z.to_pos (2 ^ 52))) at 1.
    cbv iota beta.
    assert ((ex + n + 1 <=? emax - prec) = true) as ->
        by (apply Z.leb_le; unfold emax, prec; lia).
    exists (2 ^ 52), (ex + n + 1). split; [done|]. split; [lia|]. split; [lia|].
    replace (ex + n + 1 - ex) with (n + 1) by lia.
    rewrite Z.pow_add_r by lia. fold P. rewrite Z.pow_1_r.
    split.
    + assert (2 ^ 52 * (P * 2 * D) = M * (P * D)) as ->
          by (rewrite HM53; change (2 ^ 53) with (2 ^ 52 * 2); ring).
      nia.
    + intros X HX. destruct (Hexact X HX) as [HX1 HX2]. lia.
  - assert (Zdigits2 M = 53) as HdM by (apply Zdigits2_unique; lia).
    rewrite HdM.
    assert (fexp prec emax (53 + (ex + n)) - (ex + n) = 0) as ->.
    { unfold fexp, emin, prec, emax. lia. }
    cbn [shr shr_m]. rewrite shr_record_of_loc_located.
    destruct M as [|pM|pM] eqn:HMeq; try lia.
    assert ((ex + n <=? emax - prec) = true) as ->
        by (apply Z.leb_le; unfold emax, prec; lia).
    exists (Z.pos pM), (ex + n). split; [done|]. split; [lia|]. split; [lia|].
    replace (ex + n - ex) with n by lia. fold P.
    split; [lia|]. intros X HX. destruct (Hexact X HX) as [HX1 HX2]. lia.
Qed.

Lemma iter_xO (m d : positive) :
  Z.pos (Pos.iter xO m d) = Z.pos m * 2 ^ Z.pos d.
Proof.
  apply (Pos.iter_ind _ xO m (fun d a => Z.pos a = Z.pos m * 2 ^ Z.pos d)).
  - rewrite (Pos2Z.inj_xO m). lia.
  - intros p a IH. rewrite (Pos2Z.inj_xO a), IH, Pos2Z.inj_succ.
    rewrite Z.pow_succ_r by lia. ring.
Qed.

Lemma shl_align_spec (mx : positive) (ex ex' : Z) :
  ex' <= ex ->
  let '(mz, ez) := shl_align mx ex ex' in
  Z.pos mz = Z.pos mx * 2 ^ (ex - ex') /\ ez = ex'.
Proof.
  intros Hle. unfold shl_align.
  destruct (ex' - ex) as [|d|d] eqn:Hd; try lia.
  - replace (ex - ex') with 0 by lia. split; lia.
  - rewrite iter_xO. replace (ex - ex') with (Z.pos d) by lia. done.
Qed.

Lemma Zdigits2_shift (z k : Z) :
  0 < z -> 0 <= k -> Zdigits2 (z * 2 ^ k) = Zdigits2 z + k.
Proof.
  intros Hz Hk. pose proof (Zdigits2_bounds z Hz) as Hb.
  assert (0 < Zdigits2 z).
  { destruct z; try lia. simpl. lia. }
  assert (0 < 2 ^ k) by (apply Z.pow_pos_nonneg; lia).
  apply Zdigits2_unique; [|lia].
  replace (Zdigits2 z + k - 1) with (Zdigits2 z - 1 + k) by lia.
  rewrite !Z.pow_add_r by lia. nia.
Qed.

Lemma binary_round_exact (sx : bool) (p : positive) (e z : Z) :
  0 < z < 2 ^ 53 -> -1000 <= e <= 0 -> Z.pos p = z * 2 ^ (- e) ->
  binary_round prec emax sx p e
  = S754_finite sx (Z.to_pos (z * 2 ^ (53 - Zdigits2 z))) (Zdigits2 z - 53).
Proof.
  intros Hz He Hm.
  assert (0 < 2 ^ (- e)) as HP by (apply Z.pow_pos_nonneg; lia).
  pose proof (Zdigits2_bounds z ltac:(lia)) as Hzb.
  assert (0 < Zdigits2 z <= 53) as Hdz.
  { split; [destruct z; try lia; simpl; lia|].
    destruct (Z.le_gt_cases (Zdigits2 z) 53) as [|Hgt]; [done|].
    assert (2 ^ 53 <= 2 ^ (Zdigits2 z - 1)) by (apply Z.pow_le_mono_r; lia). lia. }
  assert (Zdigits2 (Z.pos p) = Zdigits2 z - e) as Hdm.
  { rewrite Hm, Zdigits2_shift by lia. lia. }
  unfold binary_round.
  change (Z.pos (digits2_pos p)) with (Zdigits2 (Z.pos p)). rewrite Hdm.
  assert (fexp prec emax (Zdigits2 z - e + e) = Zdigits2 z - 53) as ->.
  { unfold fexp, emin, prec, emax. lia. }
  set (dz := Zdigits2 z) in *.
  destruct (Z.le_gt_cases (dz - 53) e) as [Hcase | Hcase].
  - (* the mantissa has at most 53 digits and is shifted to the left *)
    pose proof (shl_align_spec p e (dz - 53) Hcase) as Hsh.
    destruct (shl_align p e (dz - 53)) as [mz ez]. destruct Hsh as [Hmz ->].
    assert (Zdigits2 (Z.pos mz) = 53) as Hdmz.
    { rewrite Hmz, Hm, <- Z.mul_assoc, <- Z.pow_add_r, Zdigits2_shift by lia. lia. }
    destruct (binary_round_aux_spec sx (Z.pos mz) (dz - 53) loc_Exact
                (Z.pos mz) 1) as (M & E & -> & HM & HE & _ & Hexact).
    + lia.
    + lia.
    + split; cbn; lia.
    + lia.
    + lia.
    + lia.
    + rewrite Hdmz in Hexact.
      destruct (Hexact (Z.pos mz)) as [-> ->]; [change (2 ^ (53 - 53)) with 1; lia|].
      f_equal; [|lia].
      f_equal. rewrite Hmz, Hm. rewrite <- Z.mul_assoc, <- Z.pow_add_r by lia.
      f_equal. f_equal. lia.
  - (* the mantissa is longer, and its low bits are zero *)
    assert (shl_align p e (dz - 53) = (p, e)) as ->.
    { unfold shl_align. destruct (dz - 53 - e) eqn:Hd; try lia; done. }
    destruct (binary_round_aux_spec sx (Z.pos p) e loc_Exact (Z.pos p) 1)
      as (M & E & -> & HM & HE & _ & Hexact).
    + lia.
    + lia.
    + split; cbn; lia.
    + lia.
    + lia.
    + lia.
    + rewrite Hdm in Hexact.
      destruct (Hexact (z * 2 ^ (53 - dz))) as [-> ->].
      { rewrite Hm. rewrite Z.mul_1_r, <- Z.mul_assoc, <- Z.pow_add_r by lia.
        f_equal. f_equal. lia. }
      f_equal. lia.
Qed.

Lemma binary_normalize_exact (m e z : Z) :
  0 < z < 2 ^ 53 -> -1000 <= e <= 0 -> m = z * 2 ^ (- e) ->
  binary_normalize prec emax m e false = canon z.
Proof.
  intros Hz He Hm.
  assert (0 < 2 ^ (- e)) as HP by (apply Z.pow_pos_nonneg; lia).
  destruct m as [|p|p]; try nia.
  by apply binary_round_exact.
Qed.

Lemma binary_normalize_int (z : Z) :
  0 < z < 2 ^ 53 -> binary_normalize prec emax z 0 false = canon z.
Proof.
  intros Hz. apply binary_normalize_exact; [done | lia |].
  change (2 ^ (- 0)) with 1. lia.
Qed.

Lemma Zdigits2_range (z : Z) : 0 < z < 2 ^ 53 -> 0 < Zdigits2 z <= 53.
Proof.
  intros Hz. pose proof (Zdigits2_bounds z ltac:(lia)) as Hzb.
  split; [destruct z; try lia; simpl; lia|].
  destruct (Z.le_gt_cases (Zdigits2 z) 53) as [|Hgt]; [done|].
  assert (2 ^ 53 <= 2 ^ (Zdigits2 z - 1)) by (apply Z.pow_le_mono_r; lia). lia.
Qed.

Lemma canon_mantissa (z : Z) :
  0 < z < 2 ^ 53 ->
  2 ^ 52 <= z * 2 ^ (53 - Zdigits2 z) < 2 ^ 53
  /\ Z.pos (Z.to_pos (z * 2 ^ (53 - Zdigits2 z))) = z * 2 ^ (53 - Zdigits2 z)
  /\ Zdigits2 (z * 2 ^ (53 - Zdigits2 z)) = 53.
Proof.
  intros Hz. pose proof (Zdigits2_range z Hz) as Hd.
  assert (Zdigits2 (z * 2 ^ (53 - Zdigits2 z)) = 53) as Hd53
      by (rewrite Zdigits2_shift by lia; lia).
  assert (0 < 2 ^ (53 - Zdigits2 z)) by (apply Z.pow_pos_nonneg; lia).
  assert (0 < z * 2 ^ (53 - Zdigits2 z)) as Hpos by nia.
  pose proof (Zdigits2_bounds _ Hpos) as Hb. rewrite Hd53 in Hb.
  split; [exact Hb|]. split; [|done]. rewrite Z2Pos.id; lia.
Qed.

Lemma SFadd_canon (c w : Z) :
  0 < c -> 0 < w -> c + w < 2 ^ 53 ->
  SFadd prec emax (canon c) (canon w) = canon (c + w).
Proof.
  intros Hc Hw Hsum.
  destruct (canon_mantissa c ltac:(lia)) as (_ & Hmc & _).
  destruct (canon_mantissa w ltac:(lia)) as (_ & Hmw & _).
  pose proof (Zdigits2_range c ltac:(lia)) as Hdc.
  pose proof (Zdigits2_range w ltac:(lia)) as Hdw.
  unfold SFadd, canon. cbn [cond_Zopp].
  set (ec := Zdigits2 c - 53) in *. set (ew := Zdigits2 w - 53) in *.
  set (ez := Z.min ec ew).
  pose proof (shl_align_spec (Z.to_pos (c * 2 ^ (53 - Zdigits2 c))) ec ez ltac:(lia))
    as Hsc.
  pose proof (shl_align_spec (Z.to_pos (w * 2 ^ (53 - Zdigits2 w))) ew ez ltac:(lia))
    as Hsw.
  destruct (shl_align (Z.to_pos (c * 2 ^ (53 - Zdigits2 c))) ec ez) as [mc' ec'].
  destruct (shl_align (Z.to_pos (w * 2 ^ (53 - Zdigits2 w))) ew ez) as [mw' ew'].
  destruct Hsc as [Hsc _], Hsw as [Hsw _]. cbn [fst].
  apply binary_normalize_exact; [lia | lia |].
  rewrite Hsc, Hsw, Hmc, Hmw.
  rewrite <- !Z.mul_assoc, <- !Z.pow_add_r by lia.
  replace (53 - Zdigits2 c + (ec - ez)) with (- ez) by lia.
  replace (53 - Zdigits2 w + (ew - ez)) with (- ez) by lia.
  ring.
Qed.

Lemma new_location_located (q r m' m2 : Z) :
  0 < m2 -> 0 <= q -> m' = m2 * q + r -> 0 <= r < m2 ->
  located (shr_record_of_loc q (new_location m2 r)) m' m2.
Proof.
  intros Hm2 Hq -> Hr. unfold new_location, new_location_even, new_location_odd.
  assert (m2 * q = q * m2) as -> by ring. set (X := q * m2).
  destruct (Z.even m2) eqn:Heven.
  - destruct (Z.eqb_spec r 0) as [-> | Hr0].
    + split; cbn [shr_record_of_loc shr_m shr_r shr_s]; fold X; lia.
    + destruct (Z.compare_spec (2 * r) m2); split;
        cbn [shr_record_of_loc shr_m shr_r shr_s]; fold X; lia.
  - destruct (Z.eqb_spec r 0) as [-> | Hr0].
    + split; cbn [shr_record_of_loc shr_m shr_r shr_s]; fold X; lia.
    + assert (Z.odd m2 = true) as Hodd by (rewrite <- Z.negb_even, Heven; done).
      apply Z.odd_spec in Hodd as [h Hh].
      destruct (Z.compare_spec (2 * r + 1) m2); split;
        cbn [shr_record_of_loc shr_m shr_r shr_s]; fold X; lia.
Qed.

Lemma Zdigits2_normal (M : Z) : 2 ^ 52 <= M < 2 ^ 53 -> Zdigits2 M = 53.
Proof. intros HM. apply Zdigits2_unique; lia. Qed.

Lemma SFdiv_normal (M1 E1 M2 E2 : Z) :
  2 ^ 52 <= M1 < 2 ^ 53 -> 2 ^ 52 <= M2 < 2 ^ 53 ->
  -400 <= E1 <= 400 -> -400 <= E2 <= 400 ->
  exists M E,
    SFdiv prec emax (S754_finite false (Z.to_pos M1) E1)
                    (S754_finite false (Z.to_pos M2) E2)
    = S754_finite false (Z.to_pos M) E
    /\ 2 ^ 52 <= M < 2 ^ 53
    /\ 0 <= E - (E1 - E2 - 53) <= 2
    /\ - (2 ^ (E - (E1 - E2 - 53)) * M2)
       <= 2 * (M * (2 ^ (E - (E1 - E2 - 53)) * M2) - M1 * 2 ^ 53)
       <= 2 ^ (E - (E1 - E2 - 53)) * M2.
Proof.
  intros HM1 HM2 HE1 HE2.
  unfold SFdiv, SFdiv_core_binary. cbn [xorb].
  rewrite !Z2Pos.id by lia.
  rewrite (Zdigits2_normal M1 HM1), (Zdigits2_normal M2 HM2).
  assert (Z.min (fexp prec emax (53 + E1 - (53 + E2))) (E1 - E2) = E1 - E2 - 53) as ->.
  { unfold fexp, emin, prec, emax. lia. }
  replace (E1 - E2 - (E1 - E2 - 53)) with 53 by lia.
  rewrite Z.shiftl_mul_pow2 by lia.
  pose proof (Z_div_mod (M1 * 2 ^ 53) M2 ltac:(lia)) as Hdiv.
  destruct (Z.div_eucl (M1 * 2 ^ 53) M2) as [q r]. destruct Hdiv as [Hq Hr].
  assert (2 ^ 52 <= q < 2 ^ 54) as Hqb by nia.
  assert (Zdigits2 q = 53 \/ Zdigits2 q = 54) as Hdq.
  { destruct (Z.lt_ge_cases q (2 ^ 53)).
    - left. apply Zdigits2_unique; lia.
    - right. apply Zdigits2_unique; lia. }
  destruct (binary_round_aux_spec false q (E1 - E2 - 53) (new_location M2 r)
              (M1 * 2 ^ 53) M2) as (M & E & -> & HM & HE & Hnear & _).
  - lia.
  - lia.
  - apply new_location_located; lia.
  - lia.
  - lia.
  - lia.
  - exists M, E. split; [done|]. split; [done|]. split; [lia|]. exact Hnear.
Qed.

Lemma SFmul_normal (M1 E1 M2 E2 : Z) :
  2 ^ 52 <= M1 < 2 ^ 53 -> 2 ^ 52 <= M2 < 2 ^ 53 ->
  -400 <= E1 <= 400 -> -400 <= E2 <= 400 ->
  exists M E,
    SFmul prec emax (S754_finite false (Z.to_pos M1) E1)
                    (S754_finite false (Z.to_pos M2) E2)
    = S754_finite false (Z.to_pos M) E
    /\ 2 ^ 52 <= M < 2 ^ 53
    /\ 52 <= E - (E1 + E2) <= 54
    /\ - 2 ^ (E - (E1 + E2))
       <= 2 * (M * 2 ^ (E - (E1 + E2)) - M1 * M2)
       <= 2 ^ (E - (E1 + E2)).
Proof.
  intros HM1 HM2 HE1 HE2.
  unfold SFmul. cbn [xorb].
  assert (Z.pos (Z.to_pos M1 * Z.to_pos M2) = M1 * M2) as ->.
  { rewrite Pos2Z.inj_mul, !Z2Pos.id; lia. }
  assert (2 ^ 104 <= M1 * M2 < 2 ^ 106) as HP by nia.
  assert (Zdigits2 (M1 * M2) = 105 \/ Zdigits2 (M1 * M2) = 106) as Hd.
  { destruct (Z.lt_ge_cases (M1 * M2) (2 ^ 105)).
    - left. apply Zdigits2_unique; lia.
    - right. apply Zdigits2_unique; lia. }
  destruct (binary_round_aux_spec false (M1 * M2) (E1 + E2) loc_Exact
              (M1 * M2) 1) as (M & E & -> & HM & HE & Hnear & _).
  - lia.
  - lia.
  - split; cbn [shr_record_of_loc shr_m shr_r shr_s]; lia.
  - lia.
  - lia.
  - lia.
  - exists M, E. split; [done|]. split; [done|]. split; [lia|].
    rewrite Z.mul_1_r in Hnear. exact Hnear.
Qed.

Lemma Qpow2_pos (e : Z) : (0 < 2 ^ e)%Q.
Proof. by apply Qpower_0_lt. Qed.

Lemma Qpow2_add (a b : Z) : (2 ^ (a + b) == 2 ^ a * 2 ^ b)%Q.
Proof. by apply Qpower_plus. Qed.

Lemma Qpow2_inject (k : Z) : 0 <= k -> (inject_Z (2 ^ k) == 2 ^ k)%Q.
Proof. intros Hk. by rewrite Zpower_Qpower. Qed.

Lemma Qpow2_le (a b : Z) : a <= b -> (2 ^ a <= 2 ^ b)%Q.
Proof. intros Hab. by apply Qpower_le_compat_l. Qed.

Lemma inject_Z_sub (a b : Z) : (inject_Z (a - b) == inject_Z a - inject_Z b)%Q.
Proof.
  unfold Z.sub. rewrite inject_Z_plus, inject_Z_opp. reflexivity.
Qed.

Ltac push_inject H :=
  repeat first [ rewrite inject_Z_opp in H | rewrite inject_Z_mult in H
               | rewrite inject_Z_sub in H | rewrite inject_Z_plus in H ].

Lemma near_Q (M n u a x : Q) :
  (0 < u -> 0 < a -> - u <= 2 * (M * u - n) <= u -> x == n / u * a ->
   M * a - a * (1 # 2) <= x <= M * a + a * (1 # 2))%Q.
Proof.
  intros Hu Ha Hnear.
  assert (M - (1 # 2) <= n / u <= M + (1 # 2))%Q as Hrho.
  { split; [apply Qle_shift_div_l | apply Qle_shift_div_r]; lra. }
  intros Hx. rewrite Hx. set (rho := (n / u)%Q) in *. nra.
Qed.

Lemma SFdiv_near (M1 E1 M2 E2 M E : Z) :
  0 < M2 -> 0 <= E - (E1 - E2 - 53) ->
  - (2 ^ (E - (E1 - E2 - 53)) * M2)
       <= 2 * (M * (2 ^ (E - (E1 - E2 - 53)) * M2) - M1 * 2 ^ 53)
       <= 2 ^ (E - (E1 - E2 - 53)) * M2 ->
  (F2Q M E - 2 ^ E * (1 # 2) <= F2Q M1 E1 / F2Q M2 E2 <= F2Q M E + 2 ^ E * (1 # 2))%Q.
Proof.
  intros HM2 Hk [Hlo Hhi]. set (k := E - (E1 - E2 - 53)) in *.
  rewrite Zle_Qle in Hlo, Hhi.
  push_inject Hlo. push_inject Hhi.
  change (inject_Z 2) with 2%Q in Hlo, Hhi.
  pose proof (Qpow2_inject k Hk) as Hp. pose proof (Qpow2_inject 53 ltac:(lia)) as H53.
  set (p := inject_Z (2 ^ k)) in *. set (c53 := inject_Z (2 ^ 53)) in *.
  assert (0 < inject_Z M2)%Q as HM2q.
  { rewrite Zlt_Qlt in HM2. exact HM2. }
  pose proof (Qpow2_pos k). pose proof (Qpow2_pos E). pose proof (Qpow2_pos E1).
  pose proof (Qpow2_pos E2). pose proof (Qpow2_pos 53).
  unfold F2Q.
  apply (near_Q _ (inject_Z M1 * c53) (p * inject_Z M2)).
  - nra.
  - done.
  - split; lra.
  - rewrite Hp, H53.
    assert (2 ^ k == 2 ^ E * 2 ^ E2 * 2 ^ 53 / 2 ^ E1)%Q as ->.
    { unfold k. replace (E - (E1 - E2 - 53)) with (E + E2 + 53 + - E1) by lia.
      rewrite !Qpow2_add, Qpower_opp. field. lra. }
    field. repeat split; lra.
Qed.

Lemma SFmul_near (M1 E1 M2 E2 M E : Z) :
  0 <= E - (E1 + E2) ->
  - 2 ^ (E - (E1 + E2))
       <= 2 * (M * 2 ^ (E - (E1 + E2)) - M1 * M2)
       <= 2 ^ (E - (E1 + E2)) ->
  (F2Q M E - 2 ^ E * (1 # 2) <= F2Q M1 E1 * F2Q M2 E2 <= F2Q M E + 2 ^ E * (1 # 2))%Q.
Proof.
  intros Hk [Hlo Hhi]. set (k := E - (E1 + E2)) in *.
  rewrite Zle_Qle in Hlo, Hhi.
  push_inject Hlo. push_inject Hhi.
  change (inject_Z 2) with 2%Q in Hlo, Hhi.
  pose proof (Qpow2_inject k Hk) as Hp.
  set (p := inject_Z (2 ^ k)) in *.
  pose proof (Qpow2_pos k). pose proof (Qpow2_pos E). pose proof (Qpow2_pos E1).
  pose proof (Qpow2_pos E2).
  unfold F2Q.
  assert (2 ^ E == p * (2 ^ E1 * 2 ^ E2))%Q as HE.
  { rewrite Hp. unfold k. replace E with (E - (E1 + E2) + (E1 + E2)) at 1 by lia.
    by rewrite !Qpow2_add. }
  rewrite HE. set (a := (2 ^ E1 * 2 ^ E2)%Q). assert (0 < a)%Q by (unfold a; nra).
  assert (inject_Z M1 * 2 ^ E1 * (inject_Z M2 * 2 ^ E2)
          == inject_Z M1 * inject_Z M2 * a)%Q as -> by (unfold a; ring).
  split; nra.
Qed.

Lemma toNumber_spec (n : N) :
  (n < 2 ^ 53)%N -> Prim2SF (toNumber n) = double (Z.of_N n).
Proof.
  intros Hn. unfold toNumber. rewrite of_uint63_spec, Uint63.of_Z_spec.
  assert (0 <= Z.of_N n < 2 ^ 53) as Hz.
  { split; [lia|]. change (2 ^ 53) with (Z.of_N (2 ^ 53)). lia. }
  rewrite Z.mod_small by (change wB with (2 ^ 63); lia).
  unfold double. destruct (Z.eqb_spec (Z.of_N n) 0) as [-> | Hne]; [done|].
  apply binary_normalize_int. lia.
Qed.

Lemma SFadd_double (c w : Z) :
  0 <= c -> 0 <= w -> c + w < 2 ^ 53 ->
  SFadd prec emax (double c) (double w) = double (c + w).
Proof.
  intros Hc Hw Hsum. unfold double.
  destruct (Z.eqb_spec c 0) as [-> | Hc0], (Z.eqb_spec w 0) as [-> | Hw0];
    rewrite ?Z.add_0_l, ?Z.add_0_r.
  - done.
  - rewrite (proj2 (Z.eqb_neq w 0)) by done. done.
  - rewrite (proj2 (Z.eqb_neq c 0)) by done. done.
  - rewrite (proj2 (Z.eqb_neq (c + w) 0)) by lia.
    apply SFadd_canon; lia.
Qed.

Lemma totalAnswers_spec (st : Stats) :
  (correct st + wrong st < 2 ^ 53)%N ->
  Prim2SF (totalAnswers st) = double (Z.of_N (correct st + wrong st)).
Proof.
  intros Ht. unfold totalAnswers. rewrite FloatAxioms.add_spec, !toNumber_spec by lia.
  rewrite N2Z.inj_add. apply SFadd_double; [lia | lia |].
  rewrite <- N2Z.inj_add. change (2 ^ 53) with (Z.of_N (2 ^ 53)). lia.
Qed.

Lemma F2Q_canon (z : Z) :
  0 < z < 2 ^ 53 ->
  (F2Q (z * 2 ^ (53 - Zdigits2 z)) (Zdigits2 z - 53) == inject_Z z)%Q.
Proof.
  intros Hz. pose proof (Zdigits2_range z Hz) as Hd. unfold F2Q.
  rewrite inject_Z_mult, Qpow2_inject by lia.
  rewrite <- Qmult_assoc, <- Qpow2_add.
  replace (53 - Zdigits2 z + (Zdigits2 z - 53)) with 0 by lia.
  change (2 ^ 0)%Q with 1%Q. ring.
Qed.

(** [Math.round] of a positive double below [2^52]. *)
Lemma Math_round_spec (x : float) (M E : Z) :
  Prim2SF x = S754_finite false (Z.to_pos M) E -> 0 < M -> E < 0 ->
  exists a, Math_round x = Some a
            /\ (inject_Z a <= F2Q M E + (1 # 2) < inject_Z a + 1)%Q.
Proof.
  intros Hx HM HE. unfold Math_round. rewrite Hx.
  destruct E as [|k|k]; try lia. rewrite Z2Pos.id by lia.
  eexists. split; [reflexivity|].
  assert (0 < 2 ^ Z.pos k) as HP by (apply Z.pow_pos_nonneg; lia).
  set (P := 2 ^ Z.pos k) in *.
  pose proof (Z.div_mod (2 * M + P) (2 * P) ltac:(lia)) as Hdiv.
  pose proof (Z.mod_pos_bound (2 * M + P) (2 * P) ltac:(lia)) as Hmod.
  set (a := (2 * M + P) / (2 * P)) in *.
  assert (2 * P * a <= 2 * M + P < 2 * P * a + 2 * P) as [Hlo Hhi] by lia.
  rewrite Zle_Qle in Hlo. rewrite Zlt_Qlt in Hhi.
  push_inject Hlo. push_inject Hhi.
  change (inject_Z 2) with 2%Q in Hlo, Hhi.
  pose proof (Qpow2_inject (Z.pos k) ltac:(lia)) as Hp. fold P in Hp.
  assert (0 < inject_Z P)%Q as HPq by (rewrite Hp; apply Qpow2_pos).
  unfold F2Q.
  assert (2 ^ Z.neg k == / inject_Z P)%Q as ->.
  { rewrite Hp. change (Z.neg k) with (- Z.pos k). by rewrite Qpower_opp. }
  set (p := inject_Z P) in *. set (m := inject_Z M) in *. set (qa := inject_Z a) in *.
  assert (m * / p == m / p)%Q as -> by reflexivity.
  split.
  - apply (Qmult_le_l _ _ (2 * p)); [lra|].
    assert (2 * p * (m / p + (1 # 2)) == 2 * m + p)%Q as -> by (field; lra). lra.
  - apply (Qmult_lt_l _ _ (2 * p)); [lra|].
    assert (2 * p * (m / p + (1 # 2)) == 2 * m + p)%Q as -> by (field; lra). lra.
Qed.

Lemma Prim2SF_100 :
  Prim2SF 100 = S754_finite false (Z.to_pos (100 * 2 ^ 46)) (-46).
Proof. reflexivity. Qed.

Lemma exponent_below (M E b : Z) (x B : Q) :
  2 ^ 52 <= M ->
  (F2Q M E - 2 ^ E * (1 # 2) <= x)%Q -> (x <= B)%Q ->
  (B < 2 ^ (b + 1) * ((4503599627370496 # 1) - (1 # 2)))%Q ->
  E <= b.
Proof.
  intros HM Hx HB Hb.
  destruct (Z.le_gt_cases E b) as [|Hgt]; [done|]. exfalso.
  pose proof (Qpow2_le (b + 1) E ltac:(lia)) as Hpow.
  pose proof (Qpow2_pos (b + 1)) as Hpos.
  rewrite Zle_Qle in HM. change (inject_Z (2 ^ 52)) with (4503599627370496 # 1)%Q in HM.
  unfold F2Q in Hx.
  set (m := inject_Z M) in *. set (a := (2 ^ E)%Q) in *. set (a0 := (2 ^ (b + 1))%Q) in *.
  assert (a0 * ((4503599627370496 # 1) - (1 # 2)) <= a * (m - (1 # 2)))%Q.
  { apply Qmult_le_compat_nonneg; split; lra. }
  lra.
Qed.

(** The accuracy in terms of the double [y] that is rounded, which is
    within [accuracy_error] of [100 * correct / total]. *)
Lemma accuracy_value (st : Stats) :
  (0 < correct st)%N -> (correct st + wrong st < 2 ^ 53)%N ->
  exists a y,
    accuracy st = Some a
    /\ (inject_Z a <= y + (1 # 2) < inject_Z a + 1)%Q
    /\ ((y - accuracy_error st) * inject_Z (Z.of_N (correct st + wrong st))
        <= 100 * inject_Z (Z.of_N (correct st))
        <= (y + accuracy_error st) * inject_Z (Z.of_N (correct st + wrong st)))%Q.
Proof.
  intros Hc Ht.
  assert (0 < Z.of_N (correct st) < 2 ^ 53) as Hcz.
  { split; [lia|]. change (2 ^ 53) with (Z.of_N (2 ^ 53)). lia. }
  assert (0 < Z.of_N (correct st + wrong st) < 2 ^ 53) as Htz.
  { split; [lia|]. change (2 ^ 53) with (Z.of_N (2 ^ 53)). lia. }
  assert (Z.of_N (correct st) <= Z.of_N (correct st + wrong st)) as Hct by lia.
  assert ((wrong st =? 0)%N = false ->
          Z.of_N (correct st) + 1 <= Z.of_N (correct st + wrong st)) as Hless.
  { intros Hw%N.eqb_neq. lia. }
  unfold accuracy.
  pose proof (FloatAxioms.mul_spec (toNumber (correct st) / totalAnswers st) 100)
    as Hvalue.
  rewrite FloatAxioms.div_spec, totalAnswers_spec, toNumber_spec in Hvalue by lia.
  rewrite FloatAxioms.ltb_spec, totalAnswers_spec by lia.
  set (c := Z.of_N (correct st)) in *. set (t := Z.of_N (correct st + wrong st)) in *.
  unfold double in *.
  rewrite (proj2 (Z.eqb_neq c 0)), (proj2 (Z.eqb_neq t 0)) in Hvalue by lia.
  rewrite (proj2 (Z.eqb_neq t 0)) by lia.
  change (SFltb (Prim2SF 0) (canon t)) with true. cbv iota.
  revert Hvalue.
  destruct (canon_mantissa c Hcz) as (Hmc & _ & _).
  destruct (canon_mantissa t Htz) as (Hmt & _ & _).
  pose proof (Zdigits2_range c Hcz) as Hdc. pose proof (Zdigits2_range t Htz) as Hdt.
  unfold canon.
  destruct (SFdiv_normal _ (Zdigits2 c - 53) _ (Zdigits2 t - 53) Hmc Hmt
              ltac:(lia) ltac:(lia)) as (M1 & E1 & Hdiv & HM1 & Hk1 & Hnear1).
  apply SFdiv_near in Hnear1; [|lia|lia].
  rewrite !F2Q_canon in Hnear1 by done.
  unfold SF64div, SF64mul. rewrite Hdiv, Prim2SF_100. intros Hvalue.
  assert (0 < inject_Z t)%Q as Htq by (rewrite <- (Zlt_Qlt 0); lia).
  assert (inject_Z t <= 9007199254740991 # 1)%Q as Ht53.
  { change (9007199254740991 # 1)%Q with (inject_Z (2 ^ 53 - 1)). rewrite <- Zle_Qle. lia. }
  assert (inject_Z c / inject_Z t <= 1)%Q as Hx1.
  { apply Qle_shift_div_r; [done|]. rewrite Qmult_1_l, <- Zle_Qle. done. }
  assert (E1 <= -52) as HE1.
  { apply (exponent_below M1 E1 (-52) (inject_Z c / inject_Z t) 1);
      [lia | apply Hnear1 | done | reflexivity]. }
  assert ((wrong st =? 0)%N = false -> E1 <= -53) as HE1'.
  { intros Hw. specialize (Hless Hw).
    apply (exponent_below M1 E1 (-53) (inject_Z c / inject_Z t)
             (9007199254740990 # 9007199254740991));
      [lia | apply Hnear1 | | reflexivity].
    apply Qle_shift_div_r; [done|].
    assert (inject_Z c + 1 <= inject_Z t)%Q as Hc1.
    { change 1%Q with (inject_Z 1). rewrite <- inject_Z_plus, <- Zle_Qle. done. }
    lra. }
  destruct (SFmul_normal M1 E1 (100 * 2 ^ 46) (-46) HM1 ltac:(lia) ltac:(lia)
              ltac:(lia)) as (M2 & E2 & Hmul & HM2 & Hk2 & Hnear2).
  apply SFmul_near in Hnear2; [|lia].
  assert (F2Q (100 * 2 ^ 46) (-46) == 100)%Q as H100 by reflexivity.
  rewrite H100 in Hnear2.
  set (x := (inject_Z c / inject_Z t)%Q) in *.
  set (y1 := F2Q M1 E1) in *. set (y := F2Q M2 E2) in *.
  pose proof (Qpow2_le E1 (-52) HE1) as Hp1.
  assert (2 ^ (-52) == 1 # 4503599627370496)%Q as Hc52 by reflexivity. rewrite Hc52 in Hp1.
  pose proof (Qpow2_pos E1) as Hp1'. pose proof (Qpow2_pos E2) as Hp2'.
  assert (E2 <= -46) as HE2.
  { apply (exponent_below M2 E2 (-46) (y1 * 100) (101 # 1));
      [lia | apply Hnear2 | lra | reflexivity]. }
  pose proof (Qpow2_le E2 (-46) HE2) as Hp2.
  assert (2 ^ (-46) == 1 # 70368744177664)%Q as Hc46 by reflexivity. rewrite Hc46 in Hp2.
  rewrite Hmul in Hvalue.
  destruct (Math_round_spec _ M2 E2 Hvalue ltac:(lia) ltac:(lia)) as (a & Ha & Hay).
  exists a, y. split; [exact Ha|]. split; [exact Hay|].
  assert (x * inject_Z t == inject_Z c)%Q as Hxt by (unfold x; field; lra).
  assert (y - accuracy_error st <= 100 * x <= y + accuracy_error st)%Q as [Hl Hu].
  { unfold accuracy_error. destruct (wrong st =? 0)%N; [lra|].
    pose proof (Qpow2_le E1 (-53) (HE1' eq_refl)) as Hp3.
    assert (2 ^ (-53) == 1 # 9007199254740992)%Q as Hc53 by reflexivity.
    rewrite Hc53 in Hp3. lra. }
  split.
  - rewrite <- Hxt. rewrite Qmult_assoc. apply Qmult_le_compat_r; lra.
  - rewrite <- Hxt. rewrite Qmult_assoc. apply Qmult_le_compat_r; lra.
Qed.

Lemma accuracy_error_bounds (st : Stats) :
  (0 < accuracy_error st <= 41 # 2251799813685248)%Q
  /\ ((wrong st =? 0)%N = false -> accuracy_error st == 57 # 4503599627370496)%Q.
Proof. unfold accuracy_error. destruct (wrong st =? 0)%N; split; done. Qed.

Lemma accuracy_zero_correct (st : Stats) :
  correct st = 0%N -> (correct st + wrong st < 2 ^ 53)%N -> accuracy st = Some 0.
Proof.
  intros Hc Ht. unfold accuracy.
  destruct (0 <? totalAnswers st)%float eqn:Hlt; [|done].
  rewrite FloatAxioms.ltb_spec, totalAnswers_spec in Hlt by done.
  pose proof (FloatAxioms.mul_spec (toNumber (correct st) / totalAnswers st) 100)
    as Hvalue.
  rewrite FloatAxioms.div_spec, totalAnswers_spec, toNumber_spec in Hvalue by lia.
  unfold double in Hvalue, Hlt.
  destruct (Z.of_N (correct st + wrong st) =? 0); [discriminate|].
  unfold Math_round. rewrite Hvalue, Hc. reflexivity.
Qed.

Lemma accuracy_exact_cases (c t : Z) :
  0 <= c -> 0 < t ->
  let q := (200 * c) / (2 * t) in
  let r := (200 * c) mod (2 * t) in
  200 * c = 2 * t * q + r /\ 0 <= r < 2 * t
  /\ (200 * c + t) / (2 * t) = (if r <? t then q else q + 1).
Proof.
  intros Hc Ht q r.
  pose proof (Z.div_mod (200 * c) (2 * t) ltac:(lia)) as Hdiv.
  pose proof (Z.mod_pos_bound (200 * c) (2 * t) ltac:(lia)) as Hmod.
  fold q r in Hdiv, Hmod.
  split; [done|]. split; [done|].
  destruct (Z.ltb_spec r t).
  - symmetry. apply (Z.div_unique _ _ _ (r + t)); lia.
  - symmetry. apply (Z.div_unique _ _ _ (r - t)); lia.
Qed.

(** The accuracy next to the exact rounding. *)
Lemma accuracy_rounding (st : Stats) :
  (0 < correct st + wrong st < 2 ^ 53)%N ->
  exists a,
    accuracy st = Some a
    /\ accuracy_exact st - 1 <= a <= accuracy_exact st + 1
    /\ ((57 * (correct st + wrong st) < 2 ^ 51)%N ->
        a = accuracy_exact st \/ (tie st = true /\ a = accuracy_exact st - 1)).
Proof.
  intros [Hpos Ht].
  destruct (N.eq_dec (correct st) 0%N) as [Hc0 | Hc0].
  { exists 0. split; [by apply accuracy_zero_correct|].
    unfold accuracy_exact. rewrite Hc0.
    set (t := Z.of_N (0 + wrong st)).
    assert (0 < t) by (unfold t; lia).
    rewrite (proj2 (Z.eqb_neq t 0)) by lia.
    assert ((200 * Z.of_N 0 + t) / (2 * t) = 0) as ->
        by (apply Z.div_small; change (Z.of_N 0) with 0; lia).
    split; [lia|]. intros _. by left. }
  destruct (accuracy_value st ltac:(lia) Ht) as (a & y & Ha & [Hay1 Hay2] & [Hlo Hhi]).
  destruct (accuracy_error_bounds st) as [[Herr0 Herr1] Herr2].
  exists a. split; [exact Ha|].
  unfold accuracy_exact, tie.
  assert (Z.of_N (correct st + wrong st) < 2 ^ 53) as Htz.
  { change (2 ^ 53) with (Z.of_N (2 ^ 53)). lia. }
  assert ((57 * (correct st + wrong st) < 2 ^ 51)%N ->
          57 * Z.of_N (correct st + wrong st) < 2 ^ 51) as Hsmall.
  { intros Hs. change (2 ^ 51) with (Z.of_N (2 ^ 51)). lia. }
  assert ((wrong st =? 0)%N = true -> Z.of_N (correct st + wrong st) = Z.of_N (correct st))
    as Hall.
  { intros Hw%N.eqb_eq. lia. }
  set (eta := accuracy_error st) in *.
  set (c := Z.of_N (correct st)) in *. set (t := Z.of_N (correct st + wrong st)) in *.
  rewrite (proj2 (Z.eqb_neq t 0)) by lia.
  destruct (accuracy_exact_cases c t ltac:(lia) ltac:(lia)) as (Hdiv & Hr & ->).
  set (q := 200 * c / (2 * t)) in *. set (r := (200 * c) mod (2 * t)) in *.
  (* the facts on the integers, among the rationals *)
  assert (inject_Z (200 * c) == inject_Z (2 * t * q + r))%Q as HdivQ by (by rewrite Hdiv).
  push_inject HdivQ. change (inject_Z 200) with 200%Q in HdivQ.
  change (inject_Z 2) with 2%Q in HdivQ.
  assert (0 < inject_Z t)%Q as HT by (rewrite <- (Zlt_Qlt 0); lia).
  assert (inject_Z t < 9007199254740992 # 1)%Q as HT53.
  { change (9007199254740992 # 1)%Q with (inject_Z (2 ^ 53)). by rewrite <- Zlt_Qlt. }
  assert (0 <= inject_Z r)%Q as Hr0 by (rewrite <- (Zle_Qle 0); lia).
  assert (inject_Z r + 1 <= 2 * inject_Z t)%Q as Hr1.
  { change 1%Q with (inject_Z 1). change 2%Q with (inject_Z 2).
    rewrite <- inject_Z_plus, <- inject_Z_mult, <- Zle_Qle. lia. }
  set (T := inject_Z t) in *. set (C := inject_Z c) in *.
  set (R := inject_Z r) in *. set (Q' := inject_Z q) in *.
  set (A := inject_Z a) in *.
  assert (0 <= eta * T <= (41 # 2251799813685248) * T)%Q as [HeT0 HeT1].
  { split; [apply Qmult_le_0_compat; lra | apply Qmult_le_compat_r; lra]. }
  assert ((wrong st =? 0)%N = false -> eta * T == (57 # 4503599627370496) * T)%Q
    as HeT2.
  { intros Hw. by rewrite (Herr2 Hw). }
  assert ((wrong st =? 0)%N = true -> r = 0) as Hnone.
  { intros Hw. specialize (Hall Hw).
    unfold r. symmetry. apply (Z.mod_unique_pos _ _ 100 0); lia. }
  (* [q - 1/2 < y < q + 3/2] *)
  assert (Q' - (1 # 2) < y)%Q as Hy1.
  { apply (Qmult_lt_r _ _ T HT). lra. }
  assert (y < Q' + 1 + (1 # 2))%Q as Hy2.
  { apply (Qmult_lt_r _ _ T HT). lra. }
  assert (q < a + 1 /\ a < q + 2) as Haq.
  { split.
    - rewrite Zlt_Qlt, inject_Z_plus.
      fold A Q'. change (inject_Z 1) with 1%Q. lra.
    - rewrite Zlt_Qlt, inject_Z_plus.
      fold A Q'. change (inject_Z 2) with 2%Q. lra. }
  split; [destruct (r <? t); lia|].
  intros Hs. specialize (Hsmall Hs).
  assert (57 * T < 2251799813685248 # 1)%Q as HT45.
  { unfold T. change (2251799813685248 # 1)%Q with (inject_Z (2 ^ 51)).
    change 57%Q with (inject_Z 57). by rewrite <- inject_Z_mult, <- Zlt_Qlt. }
  destruct (Z.ltb_spec r t) as [Hrt | Hrt].
  - (* below the half: the rounding is [q] *)
    left.
    assert (R + 1 <= T)%Q as HrT.
    { unfold R, T. change 1%Q with (inject_Z 1). rewrite <- inject_Z_plus, <- Zle_Qle. lia. }
    assert (y < Q' + (1 # 2))%Q as Hy3.
    { apply (Qmult_lt_r _ _ T HT).
      destruct (wrong st =? 0)%N eqn:Hw.
      - assert (R == 0)%Q as HR0 by (unfold R; by rewrite (Hnone eq_refl)). lra.
      - specialize (HeT2 eq_refl). lra. }
    assert (a < q + 1) as Ha1.
    { rewrite Zlt_Qlt, inject_Z_plus. fold A Q'. change (inject_Z 1) with 1%Q. lra. }
    lia.
  - destruct (Z.eq_dec r t) as [Heq | Hne].
    + (* the half *)
      rewrite (proj2 (Z.eqb_eq r t)) by done.
      assert (a = q \/ a = q + 1) as [-> | ->] by lia.
      * right. split; [done | lia].
      * by left.
    + (* above the half: the rounding is [q + 1] *)
      left.
      assert (T + 1 <= R)%Q as HrT'.
      { unfold R, T. change 1%Q with (inject_Z 1). rewrite <- inject_Z_plus, <- Zle_Qle. lia. }
      assert ((wrong st =? 0)%N = false) as Hwrong.
      { destruct (wrong st =? 0)%N eqn:Hw; [|done]. specialize (Hnone eq_refl). lia. }
      specialize (HeT2 Hwrong).
      assert (Q' + (1 # 2) < y)%Q as Hy4.
      { apply (Qmult_lt_r _ _ T HT). lra. }
      assert (q + 1 < a + 1) as Ha2.
      { rewrite Zlt_Qlt, !inject_Z_plus. fold A Q'. change (inject_Z 1) with 1%Q. lra. }
      lia.
Qed.

Lemma floorOf_exact (sx : bool) (z : Z) :
  0 < z < 2 ^ 53 ->
  floorOf (S754_finite sx (Z.to_pos (z * 2 ^ (53 - Zdigits2 z))) (Zdigits2 z - 53))
  = Num (if sx then - z else z).
Proof.
  intros Hz. pose proof (Zdigits2_range z Hz) as Hd.
  destruct (canon_mantissa z Hz) as (Hm & Hpos & _).
  unfold floorOf. f_equal.
  assert ((if sx then Z.neg (Z.to_pos (z * 2 ^ (53 - Zdigits2 z)))
           else Z.pos (Z.to_pos (z * 2 ^ (53 - Zdigits2 z))))
          = (if sx then - z else z) * 2 ^ (53 - Zdigits2 z)) as ->.
  { destruct sx; [|by rewrite Hpos].
    rewrite <- Pos2Z.opp_pos, Hpos. ring. }
  destruct (Zdigits2 z - 53) as [|k|k] eqn:Hk; try lia.
  - replace (53 - Zdigits2 z) with 0 by lia. lia.
  - replace (53 - Zdigits2 z) with (Z.pos k) by lia.
    apply Z.div_mul. pose proof (Z.pow_pos_nonneg 2 (Z.pos k)). lia.
Qed.

(** Up to [2^53] every integer is a double. *)
Lemma ofInteger_safe (z : Z) : Z.abs z < 2 ^ 53 -> ofInteger z = Num z.
Proof.
  intros Hz. unfold ofInteger. destruct z as [|p|p]; [done|..];
    unfold binary_normalize.
  - rewrite (binary_round_exact false p 0 (Z.pos p)) by lia.
    by rewrite floorOf_exact by lia.
  - rewrite (binary_round_exact true p 0 (Z.pos p)) by lia.
    by rewrite floorOf_exact by lia.
Qed.

Lemma canon_valid (z : Z) :
  0 < z < 2 ^ 53 -> valid_binary (canon z) = true.
Proof.
  intros Hz. pose proof (Zdigits2_range z Hz) as Hd.
  destruct (canon_mantissa z Hz) as (Hm & Hpos & Hd53).
  unfold canon, valid_binary, bounded, canonical_mantissa.
  change (Z.pos (digits2_pos (Z.to_pos (z * 2 ^ (53 - Zdigits2 z)))))
    with (Zdigits2 (Z.pos (Z.to_pos (z * 2 ^ (53 - Zdigits2 z))))).
  rewrite Hpos, Hd53. apply andb_true_intro. split.
  - apply Z.eqb_eq. unfold fexp, emin, prec, emax. lia.
  - apply Z.leb_le. unfold prec, emax. lia.
Qed.

Lemma number_spec (z : Z) :
  0 <= z < 2 ^ 53 -> Prim2SF (number z) = double z.
Proof.
  intros Hz. unfold number, double.
  destruct (Z.eqb_spec z 0) as [-> | Hne]; [done|].
  rewrite binary_normalize_int by lia.
  apply Prim2SF_SF2Prim, canon_valid. lia.
Qed.

Lemma Prim2SF_60 :
  Prim2SF 60 = S754_finite false (Z.to_pos (60 * 2 ^ 47)) (-47).
Proof. reflexivity. Qed.

(** The quotient by 60 of a double below [2^53] is off by less than a
    sixtieth, so that its floor is the quotient of the integers. *)
Lemma floor_of_sixtieth (t : Z) :
  0 <= t < 2 ^ 53 -> Math_floor (number t / 60) = Num (t / 60).
Proof.
  intros Ht. unfold Math_floor.
  rewrite FloatAxioms.div_spec, number_spec, Prim2SF_60 by done.
  unfold double. destruct (Z.eqb_spec t 0) as [-> | Hne]; [done|].
  assert (0 < t < 2 ^ 53) as Htz by lia.
  destruct (canon_mantissa t Htz) as (Hmt & _ & _).
  pose proof (Zdigits2_range t Htz) as Hdt.
  unfold canon, SF64div.
  destruct (SFdiv_normal _ (Zdigits2 t - 53) (60 * 2 ^ 47) (-47) Hmt
              ltac:(lia) ltac:(lia) ltac:(lia)) as (M & E & -> & HM & Hk & Hnear).
  apply SFdiv_near in Hnear; [|lia|lia].
  rewrite F2Q_canon in Hnear by done.
  assert (F2Q (60 * 2 ^ 47) (-47) == 60)%Q as H60 by reflexivity.
  rewrite H60 in Hnear.
  assert (0 < inject_Z t)%Q as Htq by (rewrite <- (Zlt_Qlt 0); lia).
  assert (inject_Z t < 9007199254740992 # 1)%Q as Ht53.
  { change (9007199254740992 # 1)%Q with (inject_Z (2 ^ 53)). rewrite <- Zlt_Qlt. lia. }
  set (x := (inject_Z t / 60)%Q) in *.
  assert (60 * x == inject_Z t)%Q as Hx by (unfold x; field).
  assert (E <= -5) as HE.
  { apply (exponent_below M E (-5) x (9007199254740992 # 60));
      [lia | apply Hnear | lra | reflexivity]. }
  destruct E as [|k|k]; try lia.
  unfold floorOf. rewrite Z2Pos.id by lia. f_equal.
  assert (2 ^ 5 <= 2 ^ Z.pos k) as HP by (apply Z.pow_le_mono_r; lia).
  set (P := 2 ^ Z.pos k) in *.
  pose proof (Z.div_mod t 60 ltac:(lia)) as Hdiv.
  pose proof (Z.mod_pos_bound t 60 ltac:(lia)) as Hmod.
  set (q := t / 60) in *. set (r := t mod 60) in *.
  (* among the rationals *)
  assert (inject_Z t == 60 * inject_Z q + inject_Z r)%Q as HdivQ.
  { rewrite Hdiv at 1. by rewrite inject_Z_plus, inject_Z_mult. }
  assert (0 <= inject_Z r <= 59)%Q as HrQ.
  { split; [rewrite <- (Zle_Qle 0); lia|].
    change 59%Q with (inject_Z 59). rewrite <- Zle_Qle. lia. }
  pose proof (Qpow2_inject (Z.pos k) ltac:(lia)) as Hp. fold P in Hp.
  assert (32 <= inject_Z P)%Q as HPq.
  { change 32%Q with (inject_Z (2 ^ 5)). by rewrite <- Zle_Qle. }
  unfold F2Q in Hnear.
  assert (2 ^ Z.neg k == / inject_Z P)%Q as Ha.
  { rewrite Hp. change (Z.neg k) with (- Z.pos k). by rewrite Qpower_opp. }
  rewrite Ha in Hnear.
  set (p := inject_Z P) in *. set (m := inject_Z M) in *.
  set (Q' := inject_Z q) in *. set (R := inject_Z r) in *.
  destruct Hnear as [Hlo Hhi].
  assert (m - (1 # 2) <= x * p)%Q as Hlo'.
  { apply (Qmult_le_r _ _ (/ p)); [apply Qinv_lt_0_compat; lra|].
    assert (x * p * / p == x)%Q as -> by (field; lra).
    assert ((m - (1 # 2)) * / p == m * / p - / p * (1 # 2))%Q as -> by ring. done. }
  assert (x * p <= m + (1 # 2))%Q as Hhi'.
  { apply (Qmult_le_r _ _ (/ p)); [apply Qinv_lt_0_compat; lra|].
    assert (x * p * / p == x)%Q as -> by (field; lra).
    assert ((m + (1 # 2)) * / p == m * / p + / p * (1 # 2))%Q as -> by ring. done. }
  assert (60 * (x * p) == 60 * (Q' * p) + R * p)%Q as Hxp.
  { assert (60 * (x * p) == 60 * x * p)%Q as -> by ring. rewrite Hx, HdivQ. ring. }
  assert (0 <= R * p /\ R * p <= 59 * p)%Q as [HRp1 HRp2].
  { split; [apply Qmult_le_0_compat; lra | apply Qmult_le_compat_r; lra]. }
  assert (q * P < M + 1 /\ M < q * P + P) as [HM1 HM2].
  { split.
    - rewrite Zlt_Qlt, inject_Z_plus, inject_Z_mult. fold m p Q'.
      change (inject_Z 1) with 1%Q. lra.
    - rewrite Zlt_Qlt, inject_Z_plus, inject_Z_mult. fold m p Q'. lra. }
  symmetry. apply (Z.div_unique _ _ _ (M - q * P)); lia.
Qed.

(** ** The persisted preferences (C2) *)

Lemma digit_cases (d : N) :
  (d < 10)%N ->
  d = 0%N \/ d = 1%N \/ d = 2%N \/ d = 3%N \/ d = 4%N \/ d = 5%N \/ d = 6%N
  \/ d = 7%N \/ d = 8%N \/ d = 9%N.
Proof. lia. Qed.

Lemma digitValue_pretty (d : N) :
  (d < 10)%N -> digitValue (pretty_N_char d) = Some (Z.of_N d).
Proof.
  intros Hd.
  destruct (digit_cases d Hd)
    as [->|[->|[->|[->|[->|[->|[->|[->|[->| ->]]]]]]]]]; reflexivity.
Qed.

(** A numeral begins with a digit, and so does what follows it. *)
Lemma pretty_N_go_shape (x : N) : forall s,
  (0 < x)%N -> startsWithDigit s ->
  exists c rest,
    pretty_N_go x s = String c rest /\ isDigit c /\ startsWithDigit rest.
Proof.
  induction (N.lt_wf_0 x) as [x _ IH]. intros s Hx Hs.
  rewrite pretty_N_go_step by done.
  assert (Hc : isDigit (pretty_N_char (x `mod` 10))).
  { exists (x `mod` 10)%N. split; [apply N.mod_lt; lia | done]. }
  destruct (decide (x `div` 10 = 0)%N) as [Hz|Hz].
  - rewrite Hz, pretty_N_go_0. eauto.
  - apply IH.
    + apply N.div_lt; lia.
    + by apply N.neq_0_lt_0.
    + right. eauto.
Qed.

(** Reading the digits of a numeral appends its value. *)
Lemma parseDigits_pretty_N_go (x : N) : forall acc s,
  (0 < x)%N ->
  exists k, parseDigits 10 acc (pretty_N_go x s)
            = parseDigits 10 (Some (valueOf acc * 10 ^ Z.of_nat k + Z.of_N x)) s.
Proof.
  induction (N.lt_wf_0 x) as [x _ IH]. intros acc s Hx.
  rewrite pretty_N_go_step by done.
  assert (Hstep : forall a,
    parseDigits 10 a (String (pretty_N_char (x `mod` 10)) s)
    = parseDigits 10 (Some (valueOf a * 10 + Z.of_N (x `mod` 10))) s).
  { intros a. simpl. rewrite digitValue_pretty by (apply N.mod_lt; lia).
    assert ((Z.of_N (x `mod` 10) <? 10) = true) as ->.
    { apply Z.ltb_lt. pose proof (N.mod_lt x 10). lia. }
    destruct a; simpl; [reflexivity | by rewrite Z.add_0_l]. }
  pose proof (N.div_mod x 10) as Hdm.
  destruct (decide (x `div` 10 = 0)%N) as [Hz|Hz].
  - rewrite Hz, pretty_N_go_0, Hstep. exists 1%nat. do 2 f_equal.
    assert (x = x `mod` 10)%N as <-; [|lia].
    rewrite Hdm at 1 by done. lia.
  - destruct (IH (x `div` 10)%N) with (acc := acc)
      (s := String (pretty_N_char (x `mod` 10)) s) as [k Hk].
    + apply N.div_lt; lia.
    + by apply N.neq_0_lt_0.
    + rewrite Hk, Hstep. exists (S k). do 2 f_equal. simpl valueOf.
      rewrite Nat2Z.inj_succ, Z.pow_succ_r by lia.
      assert (Z.of_N x = 10 * Z.of_N (x `div` 10) + Z.of_N (x `mod` 10)) by lia.
      lia.
Qed.

(** A character of ASCII that is no white space is not taken off, from
    either side. *)
Lemma stripWhite_ascii (backwards : bool) (c : ascii) (rest : string) :
  (N_of_ascii c < 128)%N -> isWhiteSpace1 c = false ->
  stripWhite backwards (String c rest) = String c rest.
Proof.
  intros Hc Hwhite. cbn [stripWhite]. rewrite Hwhite.
  destruct rest as [|b2 [|b3 rest]]; [done|..];
    unfold isWhiteSpace2, isWhiteSpace3; destruct backwards;
    repeat match goal with
      | |- context [(N_of_ascii c =? ?k)%N] =>
          rewrite (proj2 (N.eqb_neq (N_of_ascii c) k)) by lia
      | |- context [(128 <=? N_of_ascii c)%N] =>
          rewrite (proj2 (N.leb_gt 128 (N_of_ascii c))) by lia
      end;
    rewrite ?andb_false_r, ?andb_false_l, ?orb_false_r; done.
Qed.

Lemma isDigit_ascii (c : ascii) :
  isDigit c -> (N_of_ascii c < 128)%N /\ isWhiteSpace1 c = false.
Proof.
  intros (d & Hd & ->).
  destruct (digit_cases d Hd)
    as [->|[->|[->|[->|[->|[->|[->|[->|[->| ->]]]]]]]]]; by vm_compute.
Qed.

(** On a numeral [parseInt] skips nothing and picks radix 10. *)
Lemma parseInt_digits (c : ascii) (rest : string) :
  isDigit c -> startsWithDigit rest ->
  parseInt (String c rest)
  = match parseDigits 10 None (String c rest) with
    | Some n => ofInteger n
    | None => NaN
    end
  /\ parseInt (String "-" (String c rest))
     = match parseDigits 10 None (String c rest) with
       | Some n => ofInteger (- n)
       | None => NaN
       end.
Proof.
  intros Hc Hrest. destruct (isDigit_ascii c Hc) as [Hascii Hwhite].
  unfold parseInt, trimStart.
  rewrite (stripWhite_ascii false c rest Hascii Hwhite).
  rewrite (stripWhite_ascii false "-" (String c rest)) by (by vm_compute).
  destruct Hc as (d & Hd & ->).
  destruct (digit_cases d Hd)
    as [->|[->|[->|[->|[->|[->|[->|[->|[->| ->]]]]]]]]];
    try (split; simpl; case_match; f_equal; lia).
  destruct Hrest as [->|(c' & rest' & -> & (d' & Hd' & ->))]; [by split|].
  destruct (digit_cases d' Hd')
    as [->|[->|[->|[->|[->|[->|[->|[->|[->| ->]]]]]]]]];
    split; simpl; case_match; f_equal; lia.
Qed.

Lemma parseInt_pretty_pos (p : positive) :
  parseInt (pretty (N.pos p)) = ofInteger (Z.pos p)
  /\ parseInt ("-" +:+ pretty (N.pos p)) = ofInteger (Z.neg p)
  /\ truthy (pretty (N.pos p)) = true.
Proof.
  unfold pretty, pretty_N.
  destruct (decide (N.pos p = 0%N)) as [|_]; [lia|].
  destruct (pretty_N_go_shape (N.pos p) "") as (c & rest & Heq & Hc & Hrest);
    [lia | by left | ].
  destruct (parseDigits_pretty_N_go (N.pos p) None "") as [k Hk]; [lia|].
  simpl in Hk. rewrite Heq in Hk. rewrite Heq.
  change ("-" +:+ String c rest) with (String "-" (String c rest)).
  destruct (parseInt_digits c rest Hc Hrest) as [-> ->].
  rewrite Hk. repeat split; reflexivity.
Qed.

(** A decimal numeral is read as the double nearest to it. *)
Lemma parseInt_pretty (z : Z) :
  parseInt (pretty z) = ofInteger z /\ truthy (pretty z) = true.
Proof.
  unfold pretty, pretty_Z.
  destruct z as [|p|p]; [by split|..];
    destruct (parseInt_pretty_pos p) as (Hpos & Hneg & Htruthy); by split.
Qed.

(** What the duration effect writes for an integer below [2^53], the
    initializer reads back. *)
Lemma parseInt_toString (n : Z) :
  Z.abs n < 2 ^ 53 ->
  parseInt (toString (Num n)) = Num n /\ truthy (toString (Num n)) = true.
Proof.
  intros Hn. unfold toString. rewrite (proj2 (Z.ltb_lt _ _) Hn).
  destruct (parseInt_pretty n) as [-> ->]. by rewrite ofInteger_safe.
Qed.




(** ** The accuracy (C7) *)

(** C7 (as amended).  [accuracy] is 0 when no answer was given, and 70 for
    7 correct and 3 wrong answers.  It is computed in double precision:
    for fewer than [2^51 / 57] answers (some [3.95 * 10^13], more than
    [2^45]) it equals [round(correct / total * 100)], half rounded up,
    except that where [100 * correct / total] lies exactly half way
    between two integers it may be the lower of the two; for fewer than
    [2^53] answers it is at most one away from that rounding. *)
Theorem accuracy_in_double_precision :
  (forall st, correct st = 0%N -> wrong st = 0%N -> accuracy st = Some 0)
  /\ (forall streak0 best0, accuracy (mkStats 7 3 streak0 best0) = Some 70)
  /\ (forall st, (0 < correct st + wrong st)%N ->
        (57 * (correct st + wrong st) < 2 ^ 51)%N ->
        exists a, accuracy st = Some a
                  /\ (a = accuracy_exact st
                      \/ (tie st = true /\ a = accuracy_exact st - 1)))
  /\ (forall st, (0 < correct st + wrong st < 2 ^ 53)%N ->
        exists a, accuracy st = Some a
                  /\ accuracy_exact st - 1 <= a <= accuracy_exact st + 1).
Proof.
  split; [|split; [|split]].
  - intros [c w s b]. simpl. intros -> ->. vm_compute. reflexivity.
  - intros s b. vm_compute. reflexivity.
  - intros st Hpos Hsmall.
    destruct (accuracy_rounding st) as (a & Ha & _ & Hclose).
    { split; [done|]. change (2 ^ 51)%N with 2251799813685248%N in Hsmall.
      change (2 ^ 53)%N with 9007199254740992%N. lia. }
    exists a. split; [exact Ha | by apply Hclose].
  - intros st Hrange.
    destruct (accuracy_rounding st Hrange) as (a & Ha & Hnear & _).
    by exists a.
Qed.

(** No answer yet, three correct answers out of five, and a third of
    three million answers. *)
Lemma accuracy_in_double_precision_witness :
  accuracy (mkStats 0 0 0 0) = Some 0
  /\ (exists a, accuracy (mkStats 3 2 0 3) = Some a
                /\ (a = accuracy_exact (mkStats 3 2 0 3)
                    \/ (tie (mkStats 3 2 0 3) = true
                        /\ a = accuracy_exact (mkStats 3 2 0 3) - 1)))
  /\ (exists a, accuracy (mkStats 1000000 2000000 0 0) = Some a
                /\ (a = accuracy_exact (mkStats 1000000 2000000 0 0)
                    \/ (tie (mkStats 1000000 2000000 0 0) = true
                        /\ a = accuracy_exact (mkStats 1000000 2000000 0 0) - 1))).
Proof.
  destruct accuracy_in_double_precision as (Hzero & _ & Hclose & _).
  split; [|split].
  - apply Hzero; reflexivity.
  - apply Hclose; by vm_compute.
  - apply Hclose; by vm_compute.
Defined.

(** C7 (counterexample).  For 23 correct and 17 wrong answers the exact
    value is 57.5, which rounds to 58; in double precision
    [(23 / 40) * 100] is 57.49999999999999 and [accuracy] is 57.  From
    [2^51 / 57] answers on the rounding can be missed away from the halves
    too: for 31420047262609 correct answers out of 39522072028439, which
    is less than a thousandth above that bound, the exact value is just
    below 79.5 and [accuracy] is 80. *)
Lemma accuracy_rounds_a_tie_down :
  accuracy (mkStats 23 17 0 23) = Some 57
  /\ accuracy_exact (mkStats 23 17 0 23) = 58
  /\ accuracy (mkStats 31420047262609 8102024765830 0 0) = Some 80
  /\ accuracy_exact (mkStats 31420047262609 8102024765830 0 0) = 79
  /\ tie (mkStats 31420047262609 8102024765830 0 0) = false
  /\ 2 ^ 51 <= 57 * 39522072028439 < 2 ^ 51 + 2 ^ 41.
Proof. vm_compute. repeat split; (reflexivity || discriminate). Qed.


(** ** Steps *)

(** Each handler is a fixed sequence of updates and calls. *)
Ltac unfold_handlers :=
  unfold handleStart, handleCancel, handleSubmit, handleOptionClick,
    fireDeferred, nextQuestion, do_resetTimer, do_startTimer,
    do_decideNextMode, do_resetReverseStreak, do_incrementCorrect,
    do_incrementWrong, setTimeout, call, draw, id.

Ltac count_calls :=
  unfold callCount; simpl; rewrite ?filter_cons; repeat case_decide;
  simplify_eq/=; try done.

Section Steps.
Context {T : Type} `{EqDecision T}.
Variable config : TimedChallengeConfig T.
Variable env : Environment.

Lemma verdict_wired (s : State T) (e : Event) :
  verdict config s e
  = match wired config s e with
    | Some h => handlerVerdict config h s
    | None => None
    end.
Proof. unfold verdict. destruct (wired config s e) as [[]|]; reflexivity. Qed.

(** A callback of [setTimeout] makes none of the calls below. *)
Lemma runDeferred_callCount (c : Call) (s : State T) (p : Z * Deferred) :
  quietCall c = true -> c <> Call_startTimer ->
  callCount c (runDeferred config env s p) = callCount c s.
Proof.
  intros Hq Hc. unfold runDeferred. rewrite render_callCount by done.
  destruct p as [due []]; simpl; unfold_handlers; count_calls.
  all: by apply negb_true_iff, bool_decide_eq_false_1 in Hq; exfalso; apply Hq; set_solver.
Qed.

Lemma fold_runDeferred_ind (P : State T -> Prop) :
  (forall s p, P s -> P (runDeferred config env s p)) ->
  forall l s, P s -> P (fold_left (runDeferred config env) l s).
Proof.
  intros Hstep l. induction l as [|p l IH]; intros s Hs; simpl; [done|].
  apply IH, Hstep, Hs.
Qed.

Lemma elapse_callCount (c : Call) (ms : N) (s : State T) :
  quietCall c = true -> c <> Call_startTimer ->
  callCount c (elapse config env ms s) = callCount c s.
Proof.
  intros Hq Hc. unfold elapse.
  change (callCount c (set_now ?t ?x)) with (callCount c x).
  apply (fold_runDeferred_ind (fun s' => callCount c s' = callCount c s)).
  - intros s' p <-. by apply runDeferred_callCount.
  - reflexivity.
Qed.

(** The calls to the reverse-mode policy a handler makes. *)
Lemma invoke_reverse_calls (h : Handler) (s : State T) :
  callCount Call_decideNextMode (invoke config env h s)
  = ((if supportsReverseMode config
         && bool_decide (handlerVerdict config h s = Some true)
      then 1 else 0) + callCount Call_decideNextMode s)%nat
  /\ callCount Call_resetReverseStreak (invoke config env h s)
     = ((if supportsReverseMode config
            && bool_decide (handlerVerdict config h s = Some false)
         then 1 else 0) + callCount Call_resetReverseStreak s)%nat.
Proof.
  destruct h as [m|d| | | |value| |selected|seconds]; simpl; unfold_handlers;
    try (rewrite !andb_false_r; split; count_calls).
  - destruct (submitVerdict config s) as [[|]|];
      destruct (supportsReverseMode config); simpl; split; count_calls.
  - destruct (optionVerdict config selected s) as [[|]|];
      destruct (supportsReverseMode config); simpl; split; count_calls.
Qed.

Lemma step_wired (s : State T) (e : Event) (h : Handler) :
  wired config s e = Some h ->
  step config env s e = render config env (invoke config env h s).
Proof.
  intros Hw. destruct e; first [discriminate Hw | unfold step; by rewrite Hw].
Qed.

Lemma step_unwired (s : State T) (e : Event) :
  wired config s e = None ->
  step config env s e = s \/ exists ms, e = Elapse ms.
Proof.
  intros Hw. destruct e; first [left; unfold step; by rewrite Hw | eauto].
Qed.

Lemma step_reverse_calls (s : State T) (e : Event) :
  callCount Call_decideNextMode (step config env s e)
  = ((if supportsReverseMode config && bool_decide (verdict config s e = Some true)
      then 1 else 0) + callCount Call_decideNextMode s)%nat
  /\ callCount Call_resetReverseStreak (step config env s e)
     = ((if supportsReverseMode config && bool_decide (verdict config s e = Some false)
         then 1 else 0) + callCount Call_resetReverseStreak s)%nat.
Proof.
  rewrite verdict_wired.
  destruct (wired config s e) as [h|] eqn:Hw.
  - rewrite (step_wired s e h Hw), !render_callCount by done.
    apply invoke_reverse_calls.
  - rewrite !(bool_decide_eq_false_2 (None = Some _)) by done.
    rewrite !andb_false_r.
    destruct (step_unwired s e Hw) as [-> | [ms ->]]; [done|].
    change (step config env s (Elapse ms)) with (elapse config env ms s).
    by rewrite !elapse_callCount.
Qed.

(** C6.  Along every run the advance-mutator of the reverse-mode policy
    ([decideNextMode]) is called once for each correct answer and the
    reset-mutator ([recordWrongAnswer]) once for each wrong answer, in
    either mode, when reverse mode is supported; neither is called
    otherwise, and no other input calls them.  Four correct answers in a
    row therefore make four calls of the first and none of the second. *)
Theorem reverse_policy_calls (s : State T) (trace : list Event) :
  callCount Call_decideNextMode (run config env s trace)
  = ((if supportsReverseMode config then answers config env true s trace else 0)
     + callCount Call_decideNextMode s)%nat
  /\ callCount Call_resetReverseStreak (run config env s trace)
     = ((if supportsReverseMode config then answers config env false s trace else 0)
        + callCount Call_resetReverseStreak s)%nat.
Proof.
  revert s. induction trace as [|e trace IH]; intros s; simpl.
  - by destruct (supportsReverseMode config).
  - destruct (IH (step config env s e)) as [-> ->].
    destruct (step_reverse_calls s e) as [-> ->].
    destruct (supportsReverseMode config); simpl; split; lia.
Qed.

End Steps.

(** The scenario of the specification: four correct answers in Pick mode
    make four calls of [decideNextMode] and none of [recordWrongAnswer];
    one wrong answer after them makes one call of the latter. *)
Lemma reverse_policy_calls_witness :
  callCount Call_decideNextMode (run demoConfig demoEnv demoRunning demoFourCorrect)
  = (4 + callCount Call_decideNextMode demoRunning)%nat
  /\ callCount Call_resetReverseStreak (run demoConfig demoEnv demoRunning demoFourCorrect)
     = callCount Call_resetReverseStreak demoRunning
  /\ callCount Call_decideNextMode (run demoConfig demoEnv demoRunning demoThenWrong)
     = (4 + callCount Call_decideNextMode demoRunning)%nat
  /\ callCount Call_resetReverseStreak (run demoConfig demoEnv demoRunning demoThenWrong)
     = (1 + callCount Call_resetReverseStreak demoRunning)%nat.
Proof.
  destruct (reverse_policy_calls demoConfig demoEnv demoRunning demoFourCorrect)
    as [Hadvance Hreset].
  destruct (reverse_policy_calls demoConfig demoEnv demoRunning demoThenWrong)
    as [Hadvance' Hreset'].
  split; [exact Hadvance | split; [exact Hreset | split; [exact Hadvance' | exact Hreset']]].
Defined.

Section CheckAnswer.
Context {T : Type} `{EqDecision T}.
Variable config : TimedChallengeConfig T.
Variable env : Environment.

Lemma invoke_with_checkAnswer (check' : T -> string -> bool -> bool)
    (h : Handler) (s : State T) :
  h <> OnSubmit ->
  invoke (with_checkAnswer config check') env h s = invoke config env h s.
Proof. intros Hh. by destruct h. Qed.

Lemma commit_with_checkAnswer (check' : T -> string -> bool -> bool) (r : State T) :
  commit (with_checkAnswer config check') env r = commit config env r.
Proof. reflexivity. Qed.

Lemma settle_with_checkAnswer (check' : T -> string -> bool -> bool)
    (fuel : nat) (s : State T) :
  settle (with_checkAnswer config check') env fuel s = settle config env fuel s.
Proof.
  revert s. induction fuel as [|fuel IH]; intros s; cbn [settle]; [reflexivity|].
  rewrite commit_with_checkAnswer, IH.
  by change (quiescent (with_checkAnswer config check') s) with (quiescent config s).
Qed.

Lemma render_with_checkAnswer (check' : T -> string -> bool -> bool) (s : State T) :
  render (with_checkAnswer config check') env s = render config env s.
Proof. apply settle_with_checkAnswer. Qed.

Lemma runDeferred_with_checkAnswer (check' : T -> string -> bool -> bool)
    (s : State T) (p : Z * Deferred) :
  runDeferred (with_checkAnswer config check') env s p = runDeferred config env s p.
Proof.
  unfold runDeferred. rewrite render_with_checkAnswer. by destruct p as [due []].
Qed.

Lemma fold_runDeferred_with_checkAnswer (check' : T -> string -> bool -> bool)
    (l : list (Z * Deferred)) (s : State T) :
  fold_left (runDeferred (with_checkAnswer config check') env) l s
  = fold_left (runDeferred config env) l s.
Proof.
  revert s. induction l as [|p l IH]; intros s; cbn [fold_left]; [reflexivity|].
  rewrite runDeferred_with_checkAnswer. apply IH.
Qed.

Lemma elapse_with_checkAnswer (check' : T -> string -> bool -> bool)
    (ms : N) (s : State T) :
  elapse (with_checkAnswer config check') env ms s = elapse config env ms s.
Proof. unfold elapse. by rewrite fold_runDeferred_with_checkAnswer. Qed.

Lemma handleOptionClick_checkAnswer_calls (selected : string) (s : State T) :
  callCount Call_checkAnswer (handleOptionClick config env selected s)
  = callCount Call_checkAnswer s.
Proof.
  unfold handleOptionClick.
  destruct (optionVerdict config selected s) as [[|]|];
    destruct (supportsReverseMode config); unfold_handlers; count_calls.
Qed.

Lemma handleOptionClick_scores (check' : T -> string -> bool -> bool)
    (s : State T) (selected : string) (q : T) (getCorrect : T -> bool -> string) :
  currentQuestion s = Some q -> getCorrectOption config = Some getCorrect ->
  let s' := handleOptionClick (with_checkAnswer config check') env selected s in
  if bool_decide (selected = getCorrect q (isReverseActive config s))
  then stats s' = incrementCorrect (stats s)
       /\ lastAnswerCorrect s' = Some true
       /\ wrongSelectedAnswers s' = []
       /\ callCount Call_stats_incrementCorrect s'
          = S (callCount Call_stats_incrementCorrect s)
       /\ callCount Call_stats_incrementWrong s'
          = callCount Call_stats_incrementWrong s
  else stats s' = incrementWrong (stats s)
       /\ lastAnswerCorrect s' = Some false
       /\ wrongSelectedAnswers s' = (wrongSelectedAnswers s ++ [selected])%list
       /\ callCount Call_stats_incrementWrong s'
          = S (callCount Call_stats_incrementWrong s)
       /\ callCount Call_stats_incrementCorrect s'
          = callCount Call_stats_incrementCorrect s.
Proof.
  intros Hq Hg s'. subst s'.
  change (handleOptionClick (with_checkAnswer config check') env selected s)
    with (handleOptionClick config env selected s).
  unfold handleOptionClick, optionVerdict. rewrite Hq, Hg. cbv zeta.
  destruct (bool_decide (selected = getCorrect q (isReverseActive config s)));
    destruct (supportsReverseMode config); unfold_handlers;
    repeat split; try done; count_calls.
Qed.

(** C10.  In Pick mode the verdict on a selected option is its equality
    with [getCorrectOption(currentQuestion, isReverseActive)], and the
    score follows that verdict whatever [checkAnswer] would say: the
    option that is equal counts as a correct answer (the store is
    incremented, the feedback is "correct" and the rejected options are
    cleared), any other counts as a wrong one and joins the rejected
    options, and without a question or without [getCorrectOption] the
    click does nothing.  [handleOptionClick] and the step of an option
    click are the same whatever [checkAnswer] is and never call it, and
    the only handler that depends on [checkAnswer] is the submit handler
    of Type mode. *)
Theorem pick_mode_ignores_checkAnswer
    (check' : T -> string -> bool -> bool) (s : State T) (selected : string) :
  optionVerdict config selected s
  = match currentQuestion s, getCorrectOption config with
    | Some q, Some getCorrect =>
        Some (bool_decide (selected = getCorrect q (isReverseActive config s)))
    | _, _ => None
    end
  /\ handleOptionClick (with_checkAnswer config check') env selected s
     = handleOptionClick config env selected s
  /\ callCount Call_checkAnswer (handleOptionClick config env selected s)
     = callCount Call_checkAnswer s
  /\ (forall i,
        step (with_checkAnswer config check') env s (ClickOption i)
        = step config env s (ClickOption i)
        /\ callCount Call_checkAnswer (step config env s (ClickOption i))
           = callCount Call_checkAnswer s)
  /\ (forall e,
        wired config s e <> Some OnSubmit ->
        step (with_checkAnswer config check') env s e = step config env s e)
  /\ (forall q getCorrect,
        currentQuestion s = Some q -> getCorrectOption config = Some getCorrect ->
        let s' := handleOptionClick (with_checkAnswer config check') env selected s in
        if bool_decide (selected = getCorrect q (isReverseActive config s))
        then stats s' = incrementCorrect (stats s)
             /\ lastAnswerCorrect s' = Some true
             /\ wrongSelectedAnswers s' = []
             /\ callCount Call_stats_incrementCorrect s'
                = S (callCount Call_stats_incrementCorrect s)
             /\ callCount Call_stats_incrementWrong s'
                = callCount Call_stats_incrementWrong s
        else stats s' = incrementWrong (stats s)
             /\ lastAnswerCorrect s' = Some false
             /\ wrongSelectedAnswers s' = (wrongSelectedAnswers s ++ [selected])%list
             /\ callCount Call_stats_incrementWrong s'
                = S (callCount Call_stats_incrementWrong s)
             /\ callCount Call_stats_incrementCorrect s'
                = callCount Call_stats_incrementCorrect s)
  /\ (currentQuestion s = None \/ getCorrectOption config = None ->
      handleOptionClick (with_checkAnswer config check') env selected s = s).
Proof.
  assert (Hsteps : forall e,
    wired config s e <> Some OnSubmit ->
    step (with_checkAnswer config check') env s e = step config env s e).
  { intros e Hw.
    destruct (wired config s e) as [h|] eqn:Hwe.
    + etrans; [apply (step_wired (with_checkAnswer config check') env s e h Hwe)|].
      rewrite invoke_with_checkAnswer, render_with_checkAnswer by congruence.
      symmetry. apply (step_wired config env s e h Hwe).
    + destruct e;
        try (unfold step;
             change (wired (with_checkAnswer config check') s ?e)
               with (wired config s e);
             by rewrite Hwe).
      apply elapse_with_checkAnswer. }
  split; [reflexivity|]. split; [reflexivity|].
  split; [apply handleOptionClick_checkAnswer_calls|].
  split; [|split; [exact Hsteps|split; [apply handleOptionClick_scores|]]]; cycle 1.
  { change (handleOptionClick (with_checkAnswer config check') env selected s)
      with (handleOptionClick config env selected s).
    unfold handleOptionClick, optionVerdict.
    intros [-> | ->]; [done | by destruct (currentQuestion s)]. }
  intros i.
  assert (Hw : forall h, wired config s (ClickOption i) = Some h ->
                         exists o, h = OnOption o).
  { intros h. unfold wired. repeat case_match; intros; simplify_eq; eauto. }
  split.
  - apply Hsteps. intros Hs. by destruct (Hw _ Hs).
  - destruct (wired config s (ClickOption i)) as [h|] eqn:Hwi.
    + rewrite (step_wired config env s _ h Hwi), render_callCount by done.
      destruct (Hw h eq_refl) as [o ->].
      apply handleOptionClick_checkAnswer_calls.
    + by destruct (step_unwired config env s _ Hwi) as [-> | [ms ?]].
Qed.

End CheckAnswer.

(** With a [checkAnswer] that accepts nothing the equal option still
    counts as correct, with one that accepts everything another option
    still counts as wrong, and a cancel is the same cancel. *)
Lemma pick_mode_ignores_checkAnswer_witness :
  currentQuestion demoRunning = Some "e"
  /\ stats (handleOptionClick (with_checkAnswer demoConfig rejectAll) demoEnv
                              "e" demoRunning)
     = mkStats 1 0 1 1
  /\ stats (handleOptionClick (with_checkAnswer demoConfig acceptAll) demoEnv
                              "a" demoRunning)
     = mkStats 0 1 0 0
  /\ step (with_checkAnswer demoConfig acceptAll) demoEnv demoRunning (ClickOption 1)
     = step demoConfig demoEnv demoRunning (ClickOption 1)
  /\ step (with_checkAnswer demoConfig acceptAll) demoEnv demoRunning ClickCancel
     = step demoConfig demoEnv demoRunning ClickCancel.
Proof.
  destruct (pick_mode_ignores_checkAnswer demoConfig demoEnv rejectAll demoRunning "e")
    as (_ & _ & _ & _ & _ & Hright & _).
  destruct (pick_mode_ignores_checkAnswer demoConfig demoEnv acceptAll demoRunning "a")
    as (_ & _ & _ & Hclick & Hothers & Hwrong & _).
  split; [by vm_compute|].
  split; [exact (proj1 (Hright "e" (fun q _ => q) eq_refl eq_refl))|].
  split; [exact (proj1 (Hwrong "e" (fun q _ => q) eq_refl eq_refl))|].
  split; [apply Hclick | apply Hothers; by vm_compute].
Defined.

(** ** Sessions *)

Section Sessions.
Context {T : Type} `{EqDecision T}.
Variable config : TimedChallengeConfig T.
Variable env : Environment.

(** *** Cancel and start (C9) *)

Lemma invoke_stats_reset_calls (h : Handler) (s : State T) :
  callCount Call_stats_reset (invoke config env h s)
  = ((if bool_decide (h = OnStart) then 1 else 0) + callCount Call_stats_reset s)%nat.
Proof.
  destruct h as [m|d| | | |value| |selected|seconds]; simpl; unfold_handlers;
    try count_calls.
  - destruct (submitVerdict config s) as [[|]|];
      destruct (supportsReverseMode config); count_calls.
  - destruct (optionVerdict config selected s) as [[|]|];
      destruct (supportsReverseMode config); count_calls.
Qed.

Lemma step_stats_reset_calls (s : State T) (e : Event) :
  callCount Call_stats_reset (step config env s e)
  = ((if bool_decide (wired config s e = Some OnStart) then 1 else 0)
     + callCount Call_stats_reset s)%nat.
Proof.
  destruct (wired config s e) as [h|] eqn:Hw.
  - rewrite (step_wired config env s e h Hw), render_callCount by done.
    rewrite invoke_stats_reset_calls.
    destruct (decide (h = OnStart)) as [-> | Hh].
    + by rewrite !bool_decide_eq_true_2.
    + rewrite !bool_decide_eq_false_2; [done | congruence | done].
  - rewrite bool_decide_eq_false_2 by done.
    destruct (step_unwired config env s e Hw) as [-> | [ms ->]]; [done|].
    change (step config env s (Elapse ms)) with (elapse config env ms s).
    by rewrite elapse_callCount.
Qed.

Lemma view_active (s : State T) :
  view config s = ViewActive ->
  items config <> [] /\ isRunning (timer s) = true /\ isFinished s = false.
Proof.
  unfold view. destruct (items config); [done|].
  destruct (isRunning (timer s)), (isFinished s); done.
Qed.

Lemma view_stopped (s : State T) :
  items config <> [] -> isRunning (timer s) = false ->
  view config s = ViewPreGame \/ view config s = ViewFinished.
Proof.
  unfold view. intros Hi ->. destruct (items config); [done|].
  destruct (isFinished s); auto.
Qed.

(** C9.  A cancel from the running game stops the timer and clears the
    typed answer, the feedback and the rejected options, and leaves the
    score as it is: [correct], [wrong], [streak] and [bestStreak] are
    unchanged and no call reaches the statistics store.  The next start
    resets the score, and no other input calls [stats.reset]. *)
Theorem cancel_keeps_the_score (s : State T) :
  view config s = ViewActive ->
  let s' := step config env s ClickCancel in
  stats s' = stats s
  /\ isRunning (timer s') = false
  /\ userAnswer s' = ""
  /\ lastAnswerCorrect s' = None
  /\ wrongSelectedAnswers s' = []
  /\ (forall c, c ∈ [Call_stats_reset; Call_stats_incrementCorrect;
                    Call_stats_incrementWrong] ->
                callCount c s' = callCount c s)
  /\ stats (step config env s' ClickStart) = reset
  /\ (forall s0 e,
        callCount Call_stats_reset (step config env s0 e)
        = ((if bool_decide (wired config s0 e = Some OnStart) then 1 else 0)
           + callCount Call_stats_reset s0)%nat).
Proof.
  intros Hview s'.
  assert (Hstep : s' = render config env (handleCancel s)).
  { subst s'. apply (step_wired config env s ClickCancel OnCancel).
    unfold wired. by rewrite Hview. }
  destruct (render_untouched config env (handleCancel s))
    as (_ & _ & Hanswer & Hfeedback & _ & Hstats & Htimer & _).
  rewrite <- Hstep in *.
  destruct (view_active s Hview) as (Hitems & _ & _).
  assert (Hstopped : isRunning (timer s') = false) by by rewrite Htimer.
  repeat split; try done.
  - rewrite Hstep. by apply render_wrongSelectedAnswers_nil.
  - intros c Hc. rewrite Hstep, render_callCount.
    + unfold_handlers. set_unfold in Hc.
      destruct Hc as [-> | [-> | [-> | []]]]; count_calls.
    + set_unfold in Hc. by destruct Hc as [-> | [-> | [-> | []]]].
  - assert (Hw : wired config s' ClickStart = Some OnStart).
    { unfold wired. by destruct (view_stopped s' Hitems Hstopped) as [-> | ->]. }
    rewrite (step_wired config env s' _ _ Hw).
    by destruct (render_untouched config env (invoke config env OnStart s'))
      as (_ & _ & _ & _ & _ & -> & _).
  - apply step_stats_reset_calls.
Qed.

(** *** The empty pool (C8) *)

Lemma view_empty (s : State T) : items config = [] -> view config s = ViewEmpty.
Proof. unfold view. by intros ->. Qed.

Lemma wired_empty (s : State T) (e : Event) (h : Handler) :
  items config = [] -> wired config s e = Some h -> exists seconds, h = OnTick seconds.
Proof.
  intros Hi. unfold wired. rewrite (view_empty s Hi).
  destruct e; simpl; intros; simplify_eq; eauto.
Qed.

Lemma step_empty (s : State T) (e : Event) :
  items config = [] -> idle s -> idle (step config env s e).
Proof.
  intros Hi (Hrun & Hto & Hcalls).
  destruct (wired config s e) as [h|] eqn:Hw.
  - destruct (wired_empty s e h Hi Hw) as [seconds ->].
    rewrite (step_wired config env s e _ Hw).
    destruct (render_untouched config env (invoke config env (OnTick seconds) s))
      as (_ & _ & _ & _ & _ & _ & Htimer & _ & _ & Htimeouts).
    unfold idle. rewrite Htimer, Htimeouts, render_callCount by done. by simpl.
  - destruct (step_unwired config env s e Hw) as [-> | [ms ->]]; [done|].
    change (step config env s (Elapse ms)) with (elapse config env ms s).
    unfold elapse, dueBy, notDueBy. rewrite Hto. by simpl.
Qed.

(** C8.  With an empty item pool the component shows the empty view in
    every state, whatever the mode, the duration and the timer; along
    every run from the mount the timer never runs, no callback is
    pending, [startTimer] is never called and no control other than the
    notifications of the timer reaches a handler. *)
Theorem empty_pool_stays_empty
    (window : option (gmap string string)) (stats0 : Stats)
    (reverse0 : SmartReverseMode) (trace : list Event) :
  items config = [] ->
  (forall s : State T, view config s = ViewEmpty)
  /\ let s := run config env (mount config env window stats0 reverse0) trace in
     isRunning (timer s) = false
     /\ timeouts s = []
     /\ callCount Call_startTimer s = 0%nat
     /\ (forall e h, wired config s e = Some h -> exists seconds, h = OnTick seconds).
Proof.
  intros Hi. split; [intros s; by apply view_empty|].
  assert (Hidle : forall s, idle s -> idle (run config env s trace)).
  { induction trace as [|e trace' IH]; intros s Hs; simpl; [done|].
    apply IH. by apply step_empty. }
  destruct (Hidle (mount config env window stats0 reverse0)) as (Hrun & Hto & Hcalls).
  { unfold mount.
    destruct (render_untouched config env (initialState config window stats0 reverse0))
      as (_ & _ & _ & _ & _ & _ & Htimer & _ & _ & Htimeouts).
    unfold idle. rewrite Htimer, Htimeouts, render_callCount by done. by simpl. }
  simpl. repeat split; try done. intros e h. by apply wired_empty.
Qed.
End Sessions.

(** A cancel after one correct and one wrong answer: the score of one
    and one is kept while the feedback, the rejected option and the typed
    input go, and the next start resets it. *)
Lemma cancel_keeps_the_score_witness :
  (stats demoScored = mkStats 1 1 0 1
   /\ lastAnswerCorrect demoScored = Some false
   /\ wrongSelectedAnswers demoScored = ["a"]
   /\ stats (step demoConfig demoEnv demoScored ClickCancel) = mkStats 1 1 0 1
   /\ lastAnswerCorrect (step demoConfig demoEnv demoScored ClickCancel) = None
   /\ wrongSelectedAnswers (step demoConfig demoEnv demoScored ClickCancel) = []
   /\ isRunning (timer (step demoConfig demoEnv demoScored ClickCancel)) = false
   /\ stats (run demoConfig demoEnv demoScored [ClickCancel; ClickStart])
      = mkStats 0 0 0 0)
  /\ (stats demoTypedScored = mkStats 1 1 0 1
      /\ userAnswer demoTypedScored = "i"
      /\ stats (step demoConfig demoEnv demoTypedScored ClickCancel) = mkStats 1 1 0 1
      /\ userAnswer (step demoConfig demoEnv demoTypedScored ClickCancel) = "").
Proof.
  destruct (cancel_keeps_the_score demoConfig demoEnv demoScored)
    as (Hstats & Hstopped & _ & Hfeedback & Hrejected & _ & Hstart & _);
    [by vm_compute|].
  destruct (cancel_keeps_the_score demoConfig demoEnv demoTypedScored)
    as (Hstats' & _ & Hanswer & _); [by vm_compute|].
  split.
  - split; [by vm_compute|]. split; [by vm_compute|]. split; [by vm_compute|].
    split; [by rewrite Hstats|]. split; [exact Hfeedback|].
    split; [exact Hrejected|]. split; [exact Hstopped | exact Hstart].
  - split; [by vm_compute|]. split; [by vm_compute|].
    split; [by rewrite Hstats' | exact Hanswer].
Defined.

(** Start, mode, tick and time on a component without items. *)
Lemma empty_pool_stays_empty_witness :
  view emptyConfig
       (run emptyConfig demoEnv
            (mount emptyConfig demoEnv (Some ∅) reset (mkReverse false 0))
            demoClicks)
  = ViewEmpty
  /\ isRunning
       (timer (run emptyConfig demoEnv
                   (mount emptyConfig demoEnv (Some ∅) reset (mkReverse false 0))
                   demoClicks))
     = false.
Proof.
  destruct (empty_pool_stays_empty emptyConfig demoEnv (Some ∅) reset
              (mkReverse false 0) demoClicks) as (Hview & Hrun & _);
    [reflexivity | by split].
Defined.


(** ** Updates of a settled component *)

Section Updates.
Context {T : Type} `{EqDecision T}.
Variable config : TimedChallengeConfig T.
Variable env : Environment.

Lemma quiescent_committed (s : State T) :
  quiescent config s = true -> committed s = Some (depsOf config s).
Proof. unfold quiescent. by intros ?%bool_decide_eq_true_1. Qed.

(** After an update of a settled component, the game-over effect runs
    when [timeLeft] or [isFinished] changed, and the options effect when
    [currentQuestion], [gameMode] or [isReverseActive] did. *)
Lemma gameOverFires_after_update (s s1 : State T) :
  quiescent config s = true -> committed s1 = committed s ->
  gameOverFires config s1
  = negb (bool_decide ((timeLeft (timer s1), isFinished s1)
                       = (timeLeft (timer s), isFinished s)))
    && isZero (timeLeft (timer s1)) && negb (isFinished s1).
Proof.
  intros Hq%quiescent_committed Hc. unfold gameOverFires, changed.
  rewrite Hc, Hq. simpl. do 3 f_equal. apply bool_decide_ext. split; congruence.
Qed.

Lemma optionsFire_after_update (s s1 : State T) :
  quiescent config s = true -> committed s1 = committed s ->
  optionsFire config s1
  = negb (bool_decide (optionsDeps config s1 = optionsDeps config s))
    && bool_decide (is_Some (currentQuestion s1))
    && bool_decide (is_Some (generateOptions config))
    && bool_decide (gameMode s1 = "Pick").
Proof.
  intros Hq%quiescent_committed Hc. unfold optionsFire, changed, optionsDeps.
  rewrite Hc, Hq. simpl. do 4 f_equal. apply bool_decide_ext. split; congruence.
Qed.

Lemma render_after_update (s s1 : State T) :
  quiescent config s = true -> committed s1 = committed s ->
  render config env s1 = renderedForm config env s1.
Proof.
  intros Hq%quiescent_committed Hc. eapply render_mounted. by rewrite Hc.
Qed.

(** The cells a render may write, given which effects run. *)
Lemma renderedForm_cells (s : State T) :
  isFinished (renderedForm config env s) = isFinished s || gameOverFires config s
  /\ callCount Call_confetti (renderedForm config env s)
     = ((if gameOverFires config s then 1 else 0) + callCount Call_confetti s)%nat
  /\ callCount Call_generateOptions (renderedForm config env s)
     = ((if optionsFire config s then 1 else 0) + callCount Call_generateOptions s)%nat
  /\ wrongSelectedAnswers (renderedForm config env s)
     = (if optionsFire config s then [] else wrongSelectedAnswers s)
  /\ shuffledOptions (renderedForm config env s)
     = (if optionsFire config s then newOptions config env s s else shuffledOptions s)
  /\ random (renderedForm config env s)
     = (if optionsFire config s then S (S (random s)) else random s).
Proof.
  unfold renderedForm, committedForm.
  destruct (optionsFire config s), (gameOverFires config s);
    unfold regenerated, gameOver, call, draw, id; simpl;
    rewrite ?orb_true_r, ?orb_false_r; repeat split; count_calls.
Qed.

(** What the handlers and the callbacks leave alone. *)
Lemma invoke_committed (h : Handler) (s : State T) :
  committed (invoke config env h s) = committed s.
Proof.
  destruct h as [m|d| | | |value| |selected|seconds]; simpl; unfold_handlers;
    try done.
  - destruct (submitVerdict config s) as [[|]|];
      destruct (supportsReverseMode config); done.
  - destruct (optionVerdict config selected s) as [[|]|];
      destruct (supportsReverseMode config); done.
Qed.

Lemma fireDeferred_committed (d : Deferred) (s : State T) :
  committed (fireDeferred config d s) = committed s.
Proof. by destruct d. Qed.

Lemma invoke_withinSession (h : Handler) (s : State T) :
  h <> OnStart -> h <> OnCancel ->
  isFinished (invoke config env h s) = isFinished s
  /\ timeLeft (timer (invoke config env h s))
     = match h with
       | OnTick seconds => Num (Z.max 0 seconds)
       | _ => timeLeft (timer s)
       end
  /\ callCount Call_confetti (invoke config env h s) = callCount Call_confetti s.
Proof.
  intros Hs Hc.
  destruct h as [m|d| | | |value| |selected|seconds]; try done;
    simpl; unfold_handlers; repeat case_match; repeat split; count_calls.
Qed.

Lemma fireDeferred_game (d : Deferred) (s : State T) :
  isFinished (fireDeferred config d s) = isFinished s
  /\ timeLeft (timer (fireDeferred config d s)) = timeLeft (timer s)
  /\ callCount Call_confetti (fireDeferred config d s) = callCount Call_confetti s.
Proof. destruct d; unfold_handlers; repeat split; count_calls. Qed.

(** *** The game over (C4) *)

Lemma settled_spec (s : State T) :
  settled config s = true <->
  quiescent config s = true
  /\ (isZero (timeLeft (timer s)) = true -> isFinished s = true).
Proof.
  unfold settled. rewrite andb_true_iff.
  destruct (isZero _), (isFinished s); simpl; intuition.
Qed.

Lemma wired_zeroTick (s : State T) (e : Event) (h : Handler) :
  wired config s e = Some h ->
  withinSession e = true ->
  h <> OnStart /\ h <> OnCancel
  /\ zeroTick e = match h with OnTick seconds => seconds <=? 0 | _ => false end.
Proof.
  unfold wired. destruct e; simpl; intros Hw He;
    repeat case_match; simplify_eq; done.
Qed.

(** One update of a settled component that leaves the session running. *)
Lemma render_game (s s1 : State T) (zero : bool) :
  settled config s = true ->
  committed s1 = committed s ->
  isFinished s1 = isFinished s ->
  (if zero then isZero (timeLeft (timer s1)) = true
   else timeLeft (timer s1) = timeLeft (timer s)
        \/ isZero (timeLeft (timer s1)) = false) ->
  settled config (render config env s1) = true
  /\ isFinished (render config env s1) = isFinished s || zero
  /\ callCount Call_confetti (render config env s1)
     = ((if negb (isFinished s) && zero then 1 else 0)
        + callCount Call_confetti s1)%nat.
Proof.
  intros [Hq Hz]%settled_spec Hc Hf Ht.
  rewrite (render_after_update s s1 Hq Hc).
  destruct (renderedForm_cells s1) as (-> & -> & _).
  rewrite settled_spec, quiescent_renderedForm.
  assert (Htimer : timer (renderedForm config env s1) = timer s1).
  { by destruct (renderedForm_rendersTo config env s1)
      as ((_ & _ & _ & _ & _ & _ & -> & _) & _). }
  rewrite Htimer.
  destruct (renderedForm_cells s1) as (-> & _).
  rewrite (gameOverFires_after_update s s1 Hq Hc), Hf.
  destruct (isFinished s) eqn:Hfin; simpl.
  { rewrite !andb_false_r. by destruct zero. }
  rewrite !andb_true_r.
  destruct zero.
  - rewrite Ht. simpl. rewrite bool_decide_eq_false_2; [done|].
    intros [= Heq]. rewrite Heq in Ht. by specialize (Hz Ht).
  - destruct Ht as [Ht | Ht].
    + rewrite Ht, bool_decide_eq_true_2 by done. simpl.
      repeat split; try done; intros Hzero; by apply Hz.
    + rewrite Ht, andb_false_r. by repeat split.
Qed.

Lemma runDeferred_game (s : State T) (p : Z * Deferred) :
  settled config s = true ->
  settled config (runDeferred config env s p) = true
  /\ isFinished (runDeferred config env s p) = isFinished s
  /\ callCount Call_confetti (runDeferred config env s p) = callCount Call_confetti s.
Proof.
  intros Hs. unfold runDeferred.
  set (s0 := set_now (Z.max (now s) (fst p)) s).
  destruct (fireDeferred_game (snd p) s0) as (Hf & Ht & Hc).
  destruct (render_game s (fireDeferred config (snd p) s0) false Hs)
    as (Hsettled & Hfinished & Hcalls).
  - by rewrite fireDeferred_committed.
  - exact Hf.
  - left. exact Ht.
  - rewrite Hsettled, Hfinished, Hcalls, orb_false_r, andb_false_r, Hc. done.
Qed.

Lemma elapse_game (ms : N) (s : State T) :
  settled config s = true ->
  settled config (elapse config env ms s) = true
  /\ isFinished (elapse config env ms s) = isFinished s
  /\ callCount Call_confetti (elapse config env ms s) = callCount Call_confetti s.
Proof.
  intros Hs. unfold elapse.
  set (target := now s + Z.of_N ms).
  pose (P := fun s' : State T =>
    settled config s' = true /\ isFinished s' = isFinished s
    /\ callCount Call_confetti s' = callCount Call_confetti s).
  assert (HP : P (fold_left (runDeferred config env) (dueBy target s)
                            (set_timeouts (notDueBy target s) s))).
  { apply fold_runDeferred_ind.
    - intros s' p (Hs' & Hf' & Hc').
      destruct (runDeferred_game s' p Hs') as (? & ? & ?).
      unfold P. repeat split; congruence.
    - by repeat split. }
  exact HP.
Qed.

Lemma step_game (s : State T) (e : Event) :
  settled config s = true -> withinSession e = true ->
  settled config (step config env s e) = true
  /\ isFinished (step config env s e) = isFinished s || zeroTick e
  /\ callCount Call_confetti (step config env s e)
     = ((if negb (isFinished s) && zeroTick e then 1 else 0)
        + callCount Call_confetti s)%nat.
Proof.
  intros Hs He.
  destruct (wired config s e) as [h|] eqn:Hw.
  - rewrite (step_wired config env s e h Hw).
    destruct (wired_zeroTick s e h Hw He) as (Hstart & Hcancel & Hzero).
    destruct (invoke_withinSession h s Hstart Hcancel) as (Hf & Ht & Hc).
    destruct (render_game s (invoke config env h s) (zeroTick e) Hs)
      as (Hsettled & Hfinished & Hcalls).
    + apply invoke_committed.
    + exact Hf.
    + rewrite Ht, Hzero.
      destruct h; auto. simpl.
      destruct (Z.leb_spec seconds 0).
      * by rewrite Z.max_l.
      * right. rewrite Z.max_r by lia. by destruct seconds.
    + by rewrite Hsettled, Hfinished, Hcalls, Hc.
  - destruct (step_unwired config env s e Hw) as [-> | [ms ->]].
    + assert (zeroTick e = false) as ->.
      { by destruct e. }
      by rewrite orb_false_r, andb_false_r.
    + change (step config env s (Elapse ms)) with (elapse config env ms s).
      simpl. rewrite orb_false_r, andb_false_r. by apply elapse_game.
Qed.

(** Every update of a settled component settles again. *)
Lemma render_settled (s s1 : State T) :
  settled config s = true -> committed s1 = committed s ->
  settled config (render config env s1) = true.
Proof.
  intros [Hq Hz]%settled_spec Hc.
  rewrite (render_after_update s s1 Hq Hc).
  rewrite settled_spec, quiescent_renderedForm. split; [done|].
  destruct (renderedForm_cells s1) as (-> & _).
  assert (timer (renderedForm config env s1) = timer s1) as ->.
  { by destruct (renderedForm_rendersTo config env s1)
      as ((_ & _ & _ & _ & _ & _ & -> & _) & _). }
  intros Hzero. rewrite (gameOverFires_after_update s s1 Hq Hc), Hzero.
  destruct (isFinished s1) eqn:Hf; [done|]. simpl. rewrite !andb_true_r.
  apply negb_true_iff, bool_decide_eq_false_2. intros [= Ht Hfs].
  rewrite Ht in Hzero. specialize (Hz Hzero). congruence.
Qed.

Lemma elapse_settled (ms : N) (s : State T) :
  settled config s = true -> settled config (elapse config env ms s) = true.
Proof. intros Hs. by apply elapse_game. Qed.

Lemma step_settled (s : State T) (e : Event) :
  settled config s = true -> settled config (step config env s e) = true.
Proof.
  intros Hs. destruct (wired config s e) as [h|] eqn:Hw.
  - rewrite (step_wired config env s e h Hw).
    apply (render_settled s); [done | apply invoke_committed].
  - destruct (step_unwired config env s e Hw) as [-> | [ms ->]]; [done|].
    by apply elapse_settled.
Qed.

Lemma commit_isFinished (r : State T) :
  isFinished (commit config env r) = isFinished r || gameOverFires config r.
Proof.
  unfold commit.
  rewrite effects_save, effect_shuffledOptions_fires, effect_gameOver_fires.
  unfold effect_firstQuestion, nextQuestion, regenerated, gameOver, call, draw, id.
  destruct (gameOverFires config r), (optionsFire config r); repeat case_match;
    simpl; rewrite ?orb_true_r, ?orb_false_r; done.
Qed.

Lemma mount_settled (window : option (gmap string string)) (stats0 : Stats)
    (reverse0 : SmartReverseMode) :
  settled config (mount config env window stats0 reverse0) = true.
Proof.
  unfold mount. set (s0 := initialState config window stats0 reverse0).
  rewrite (render_unmounted config env s0 eq_refl).
  rewrite settled_spec, quiescent_renderedForm. split; [done|].
  destruct (renderedForm_cells (commit config env s0)) as (-> & _).
  assert (timer (renderedForm config env (commit config env s0)) = timer s0) as ->.
  { destruct (renderedForm_rendersTo config env (commit config env s0))
      as ((_ & _ & _ & _ & _ & _ & -> & _) & _).
    by destruct (commit_rendersTo config env s0)
      as ((_ & _ & _ & _ & _ & _ & -> & _) & _). }
  intros Hzero. rewrite commit_isFinished.
  assert (committed s0 = None) as Hn by reflexivity.
  unfold gameOverFires, changed. rewrite Hn, Hzero.
  by destruct (isFinished s0).
Qed.

(** The states the component reaches are settled. *)
Lemma run_settled (s : State T) (trace : list Event) :
  settled config s = true -> settled config (run config env s trace) = true.
Proof.
  revert s. induction trace as [|e trace IH]; intros s Hs; simpl; [done|].
  by apply IH, step_settled.
Qed.

(** C4.  Within a session (no start, no cancel) the game is over exactly
    from the first notification that no time is left, and the confetti is
    triggered exactly once, by that notification: further notifications at
    zero, answers and callbacks do not trigger it again, and nothing
    triggers it while time is left or once the game is over. *)
Theorem game_over_fires_once (s : State T) (trace : list Event) :
  settled config s = true ->
  forallb withinSession trace = true ->
  isFinished (run config env s trace) = isFinished s || existsb zeroTick trace
  /\ callCount Call_confetti (run config env s trace)
     = ((if negb (isFinished s) && existsb zeroTick trace then 1 else 0)
        + callCount Call_confetti s)%nat.
Proof.
  revert s. induction trace as [|e trace IH]; intros s Hs Htrace; simpl.
  - by rewrite orb_false_r, andb_false_r.
  - simpl in Htrace. apply andb_true_iff in Htrace as [He Htrace].
    destruct (step_game s e Hs He) as (Hsettled & Hfinished & Hcalls).
    destruct (IH (step config env s e) Hsettled Htrace) as [-> ->].
    rewrite Hfinished, Hcalls.
    destruct (isFinished s), (zeroTick e), (existsb zeroTick trace); simpl; split; lia.
Qed.
End Updates.

(** Three notifications at zero, one game over. *)
Lemma game_over_fires_once_witness :
  isFinished (run demoConfig demoEnv demoRunning demoCountdown) = true
  /\ callCount Call_confetti (run demoConfig demoEnv demoRunning demoCountdown)
     = S (callCount Call_confetti demoRunning).
Proof.
  destruct (game_over_fires_once demoConfig demoEnv demoRunning demoCountdown)
    as (Hfinished & Hcalls); [by vm_compute | by vm_compute |].
  split; [exact Hfinished | exact Hcalls].
Defined.


(** ** Options, questions and callbacks *)

Section Options.
Context {T : Type} `{EqDecision T}.
Variable config : TimedChallengeConfig T.
Variable env : Environment.

(** *** The shuffled options (C3) *)

Lemma invoke_generateOptions_calls (h : Handler) (s : State T) :
  callCount Call_generateOptions (invoke config env h s)
  = callCount Call_generateOptions s.
Proof.
  destruct h as [m|d| | | |value| |selected|seconds];
    simpl; unfold_handlers; repeat case_match; count_calls.
Qed.

Lemma fireDeferred_generateOptions_calls (d : Deferred) (s : State T) :
  callCount Call_generateOptions (fireDeferred config d s)
  = callCount Call_generateOptions s.
Proof. destruct d; unfold_handlers; count_calls. Qed.

Lemma render_options (s s1 : State T) :
  quiescent config s = true -> committed s1 = committed s ->
  callCount Call_generateOptions (render config env s1)
  = ((if regenerates config s s1 then 1 else 0) + callCount Call_generateOptions s1)%nat
  /\ wrongSelectedAnswers (render config env s1)
     = (if regenerates config s s1 then [] else wrongSelectedAnswers s1)
  /\ shuffledOptions (render config env s1)
     = (if regenerates config s s1 then newOptions config env s1 s1 else shuffledOptions s1).
Proof.
  intros Hq Hc. rewrite (render_after_update config env s s1 Hq Hc).
  destruct (renderedForm_cells config env s1) as (_ & _ & -> & -> & -> & _).
  by rewrite (optionsFire_after_update config s s1 Hq Hc).
Qed.

(** C3 (as amended).  In a step of a settled component the options
    effect runs, once, exactly when [currentQuestion], [gameMode] or
    [isReverseActive] differs from its value before the step while a
    question is present, [generateOptions] is supplied and the mode is
    Pick; it never runs in a step that leaves the three unchanged.  When
    it runs, [generateOptions] is called once, the shuffled options are
    replaced and the rejected options are cleared; when it does not, the
    shuffled options stay.  This holds for the handlers and for the
    [setTimeout] callbacks. *)
Theorem options_follow_their_dependencies (s : State T) :
  quiescent config s = true ->
  (forall e h, wired config s e = Some h ->
     let s1 := invoke config env h s in
     let s' := step config env s e in
     callCount Call_generateOptions s'
     = ((if regenerates config s s1 then 1 else 0) + callCount Call_generateOptions s)%nat
     /\ wrongSelectedAnswers s'
        = (if regenerates config s s1 then [] else wrongSelectedAnswers s1)
     /\ shuffledOptions s'
        = (if regenerates config s s1 then newOptions config env s1 s1
           else shuffledOptions s))
  /\ (forall due d,
        let s1 := fireDeferred config d s in
        let s' := runDeferred config env s (due, d) in
        callCount Call_generateOptions s'
        = ((if regenerates config s s1 then 1 else 0) + callCount Call_generateOptions s)%nat
        /\ wrongSelectedAnswers s'
           = (if regenerates config s s1 then [] else wrongSelectedAnswers s)
        /\ shuffledOptions s'
           = (if regenerates config s s1 then newOptions config env s1 s1
              else shuffledOptions s)).
Proof.
  intros Hq. split.
  - intros e h Hw s1 s'. subst s1 s'. rewrite (step_wired config env s e h Hw).
    destruct (render_options s (invoke config env h s) Hq (invoke_committed config env h s))
      as (-> & -> & ->).
    rewrite invoke_generateOptions_calls. repeat split.
    destruct (regenerates config s (invoke config env h s)); [done|].
    destruct h as [m|d| | | |value| |selected|seconds];
      simpl; unfold_handlers; repeat case_match; done.
  - intros due d s1 s'. subst s1 s'. unfold runDeferred. simpl snd. simpl fst.
    set (s0 := set_now (Z.max (now s) due) s).
    assert (Hq0 : quiescent config s0 = true) by exact Hq.
    destruct (render_options s0 (fireDeferred config d s0) Hq0
                (fireDeferred_committed config d s0)) as (-> & -> & ->).
    rewrite fireDeferred_generateOptions_calls.
    destruct d;
      change (regenerates config s0 (fireDeferred config ?d s0))
        with (regenerates config s (fireDeferred config d s));
      repeat split; by destruct (regenerates config s _).
Qed.

(** *** Answers in Pick mode (C5) *)

Lemma insertDue_elem (p q : Z * Deferred) (l : list (Z * Deferred)) :
  q ∈ insertDue p l <-> (q = p \/ q ∈ l).
Proof.
  induction l as [|x l IH]; simpl.
  - rewrite list_elem_of_singleton, elem_of_nil. tauto.
  - case_match; rewrite !elem_of_cons; [rewrite IH|]; tauto.
Qed.

Lemma sortDue_elem (q : Z * Deferred) (l : list (Z * Deferred)) :
  q ∈ sortDue l <-> q ∈ l.
Proof.
  unfold sortDue.
  assert (Hgen : forall acc, q ∈ fold_left (fun acc p => insertDue p acc) l acc
                             <-> (q ∈ l \/ q ∈ acc)).
  { induction l as [|x l IH]; intros acc; simpl.
    - rewrite elem_of_nil. tauto.
    - rewrite IH, insertDue_elem, elem_of_cons. tauto. }
  rewrite Hgen, elem_of_nil. tauto.
Qed.

Lemma runDeferred_random (s : State T) (p : Z * Deferred) :
  (random s <= random (runDeferred config env s p))%nat.
Proof.
  unfold runDeferred. etrans; [|apply render_random].
  destruct p as [due []]; simpl; lia.
Qed.

Lemma runDeferred_nextQuestion (s : State T) (due : Z) :
  currentQuestion (runDeferred config env s (due, DeferredNextQuestion))
  = Some (generateQuestion config (items config) (random s))
  /\ lastAnswerCorrect (runDeferred config env s (due, DeferredNextQuestion)) = None.
Proof.
  unfold runDeferred. cbn [fst snd]. split.
  - rewrite render_currentQuestion; [done | left; simpl; eauto].
  - by destruct (render_untouched config env
        (fireDeferred config DeferredNextQuestion (set_now (Z.max (now s) due) s)))
      as (_ & _ & _ & -> & _).
Qed.

Lemma runDeferred_sameQuestion (s : State T) (p : Z * Deferred) :
  snd p <> DeferredNextQuestion -> is_Some (currentQuestion s) ->
  currentQuestion (runDeferred config env s p) = currentQuestion s.
Proof.
  intros Hd Hq. unfold runDeferred.
  destruct p as [due []]; try done; simpl;
    (rewrite render_currentQuestion; [done | by left]).
Qed.

Lemma fold_runDeferred_fresh (r0 : nat) (l : list (Z * Deferred)) : forall s,
  (r0 <= random s)%nat ->
  (exists due, (due, DeferredNextQuestion) ∈ l) \/ freshQuestion config r0 s ->
  freshQuestion config r0 (fold_left (runDeferred config env) l s).
Proof.
  induction l as [|[due d] l IH]; intros s Hr Hs; simpl.
  { destruct Hs as [[due Hin] | Hs]; [by apply elem_of_nil in Hin | done]. }
  pose proof (runDeferred_random s (due, d)) as Hr'.
  apply IH; [lia|].
  destruct (decide (d = DeferredNextQuestion)) as [-> | Hd].
  - right. exists (random s). split; [done|]. apply runDeferred_nextQuestion.
  - destruct Hs as [[due' Hin] | (k & Hk & Hq)].
    + left. exists due'. apply elem_of_cons in Hin as [[= _ Heq] | Hin]; done.
    + right. exists k. split; [done|].
      rewrite runDeferred_sameQuestion; [done | done | rewrite Hq; eauto].
Qed.

Lemma elapse_fresh (r0 : nat) (ms : N) (due : Z) (s : State T) :
  (r0 <= random s)%nat ->
  (due, DeferredNextQuestion) ∈ timeouts s -> due <= now s + Z.of_N ms ->
  freshQuestion config r0 (elapse config env ms s).
Proof.
  intros Hr Hin Hdue. unfold elapse.
  change (freshQuestion config r0 (set_now ?t ?x)) with (freshQuestion config r0 x).
  apply fold_runDeferred_fresh; [done|].
  left. exists due. unfold dueBy. rewrite sortDue_elem, list_elem_of_filter. done.
Qed.

Lemma wired_option (s : State T) (i : nat) (h : Handler) :
  wired config s (ClickOption i) = Some h ->
  exists selected, h = OnOption selected
    /\ (shuffledOptions s !! i = Some selected)
    /\ (selected ∉ wrongSelectedAnswers s)
    /\ view config s = ViewActive /\ gameMode s = "Pick".
Proof.
  unfold wired.
  destruct (bool_decide (view config s = ViewActive)
            && bool_decide (gameMode s = "Pick")) eqn:Hg; [|done].
  apply andb_true_iff in Hg as [Hv%bool_decide_eq_true_1 Hm%bool_decide_eq_true_1].
  destruct (shuffledOptions s !! i) as [o|] eqn:Ho; [|done].
  destruct (bool_decide (o ∈ wrongSelectedAnswers s)) eqn:Hin; [done|].
  intros [= <-]. apply bool_decide_eq_false_1 in Hin. eauto 10.
Qed.

(** C5.  In Pick mode a click on an enabled option that is not the
    correct one leaves [currentQuestion] as it is, appends the option to
    the rejected ones and schedules nothing.  A click on the correct
    option leaves [currentQuestion] for the moment and schedules the next
    question 300 ms later: once 300 ms or more have passed, the current
    question is one generated after the click. *)
Theorem pick_answer_and_question (s : State T) (i : nat) (selected : string) :
  quiescent config s = true ->
  wired config s (ClickOption i) = Some (OnOption selected) ->
  let s' := step config env s (ClickOption i) in
  (optionVerdict config selected s = Some false ->
     currentQuestion s' = currentQuestion s
     /\ wrongSelectedAnswers s' = (wrongSelectedAnswers s ++ [selected])%list
     /\ timeouts s' = timeouts s)
  /\ (optionVerdict config selected s = Some true ->
       currentQuestion s' = currentQuestion s
       /\ timeouts s' = (timeouts s ++ [(now s + 300, DeferredNextQuestion)])%list
       /\ forall ms, (300 <= ms)%N ->
            freshQuestion config (random s) (step config env s' (Elapse ms))).
Proof.
  intros Hq Hw s'.
  assert (Hstep : s' = render config env (handleOptionClick config env selected s))
    by apply (step_wired config env s _ _ Hw).
  assert (Hsome : forall b, optionVerdict config selected s = Some b ->
                            is_Some (currentQuestion s)).
  { unfold optionVerdict. intros b. destruct (currentQuestion s); [eauto | done]. }
  split; intros Hv; pose proof (Hsome _ Hv) as Hcq.
  - destruct (render_options s (handleOptionClick config env selected s) Hq
                (invoke_committed config env (OnOption selected) s)) as (_ & Hwrong & _).
    destruct (render_untouched config env (handleOptionClick config env selected s))
      as (_ & _ & _ & _ & _ & _ & _ & _ & _ & Htimeouts).
    rewrite <- Hstep in *. rewrite Hwrong, Htimeouts. clear Hwrong Htimeouts.
    rewrite Hstep, render_currentQuestion.
    + assert (regenerates config s (handleOptionClick config env selected s) = false) as ->.
      { unfold regenerates, handleOptionClick, optionsDeps, isReverseActive.
        rewrite Hv. destruct (supportsReverseMode config); simpl;
          by rewrite bool_decide_eq_true_2. }
      unfold handleOptionClick. rewrite Hv.
      by destruct (supportsReverseMode config).
    + left. unfold handleOptionClick. rewrite Hv.
      by destruct (supportsReverseMode config).
  - assert (Hcq' : currentQuestion (handleOptionClick config env selected s)
                   = currentQuestion s).
    { unfold handleOptionClick. rewrite Hv. by destruct (supportsReverseMode config). }
    assert (Hto : timeouts (handleOptionClick config env selected s)
                  = (timeouts s ++ [(now s + 300, DeferredNextQuestion)])%list).
    { unfold handleOptionClick. rewrite Hv. by destruct (supportsReverseMode config). }
    assert (Hrandom : (random s <= random (handleOptionClick config env selected s))%nat).
    { unfold handleOptionClick. rewrite Hv.
      destruct (supportsReverseMode config); simpl; lia. }
    assert (Hnow : now (handleOptionClick config env selected s) = now s).
    { unfold handleOptionClick. rewrite Hv. by destruct (supportsReverseMode config). }
    destruct (render_untouched config env (handleOptionClick config env selected s))
      as (_ & _ & _ & _ & _ & _ & _ & _ & Hnow' & Htimeouts).
    pose proof (render_random config env (handleOptionClick config env selected s)) as Hr.
    rewrite <- Hstep in *.
    split; [|split].
    + rewrite Hstep, render_currentQuestion; [done | left; by rewrite Hcq'].
    + by rewrite Htimeouts.
    + intros ms Hms.
      change (step config env s' (Elapse ms)) with (elapse config env ms s').
      apply (elapse_fresh _ _ (now s + 300)); [lia | |lia].
      rewrite Htimeouts, Hto, elem_of_app, list_elem_of_singleton. by right.
Qed.

(** *** Callbacks after a cancel or a restart (C1) *)

(** C1 (as amended).  A cancel leaves the pending callbacks pending, and
    a start only adds its own two.  A callback that runs applies its
    update whatever has happened since it was scheduled: the one of a
    correct answer replaces [currentQuestion] by a newly generated
    question and clears the feedback, the one of a wrong typed answer
    clears the feedback; neither touches the score, the timer, the typed
    answer, the mode, the duration or the other pending callbacks. *)
Theorem pending_callbacks_survive_sessions (s : State T) (due : Z) :
  timeouts (render config env (handleCancel s)) = timeouts s
  /\ timeouts (render config env (handleStart config s))
     = (timeouts s ++ [(now s + 50, DeferredStartTimer);
                       (now s + 100, DeferredFocusInput)])%list
  /\ currentQuestion (runDeferred config env s (due, DeferredNextQuestion))
     = Some (generateQuestion config (items config) (random s))
  /\ lastAnswerCorrect (runDeferred config env s (due, DeferredNextQuestion)) = None
  /\ lastAnswerCorrect (runDeferred config env s (due, DeferredClearFeedback)) = None
  /\ (forall d, d = DeferredNextQuestion \/ d = DeferredClearFeedback ->
        let s' := runDeferred config env s (due, d) in
        stats s' = stats s /\ timer s' = timer s /\ userAnswer s' = userAnswer s
        /\ gameMode s' = gameMode s /\ challengeDuration s' = challengeDuration s
        /\ timeouts s' = timeouts s).
Proof.
  split; [|split; [|split; [|split; [|split]]]].
  - by destruct (render_untouched config env (handleCancel s))
      as (_ & _ & _ & _ & _ & _ & _ & _ & _ & ->).
  - destruct (render_untouched config env (handleStart config s))
      as (_ & _ & _ & _ & _ & _ & _ & _ & _ & ->).
    unfold_handlers. simpl. by rewrite <- app_assoc.
  - apply runDeferred_nextQuestion.
  - apply runDeferred_nextQuestion.
  - unfold runDeferred. cbn [fst snd].
    by destruct (render_untouched config env
        (fireDeferred config DeferredClearFeedback (set_now (Z.max (now s) due) s)))
      as (_ & _ & _ & -> & _).
  - intros d Hd s'. subst s'. unfold runDeferred. cbn [fst snd].
    destruct (render_untouched config env
        (fireDeferred config d (set_now (Z.max (now s) due) s)))
      as (-> & -> & -> & _ & _ & -> & -> & _ & _ & ->).
    by destruct Hd as [-> | ->].
Qed.
End Options.

(** The correct answer of the demo session. *)
Lemma options_follow_their_dependencies_witness :
  callCount Call_generateOptions demoAnswered
  = ((if regenerates demoConfig demoRunning
            (invoke demoConfig demoEnv (OnOption "e") demoRunning)
      then 1 else 0)
     + callCount Call_generateOptions demoRunning)%nat.
Proof.
  destruct (options_follow_their_dependencies demoConfig demoEnv demoRunning)
    as [Hhandlers _]; [by vm_compute|].
  destruct (Hhandlers (ClickOption 0) (OnOption "e")) as (Hcalls & _);
    [by vm_compute | exact Hcalls].
Defined.

(** The callback of the cancelled demo session, run in the new one. *)
Lemma pending_callbacks_survive_sessions_witness :
  currentQuestion (runDeferred demoConfig demoEnv demoRestarted (400, DeferredNextQuestion))
  = Some (generateQuestion demoConfig kana (random demoRestarted))
  /\ stats (runDeferred demoConfig demoEnv demoRestarted (400, DeferredNextQuestion))
     = stats demoRestarted.
Proof.
  destruct (pending_callbacks_survive_sessions demoConfig demoEnv demoRestarted 400)
    as (_ & _ & Hquestion & _ & _ & Hframe).
  split; [exact Hquestion | apply (Hframe DeferredNextQuestion); by left].
Defined.

(** C3 (counterexample).  The correct answer flips the reverse mode, and
    the switch of the mode back to Pick changes [gameMode]: in both steps
    the options are generated again although [currentQuestion] is the
    same. *)
Lemma options_regenerated_for_the_same_question :
  currentQuestion demoAnswered = currentQuestion demoRunning
  /\ callCount Call_generateOptions demoAnswered
     = S (callCount Call_generateOptions demoRunning)
  /\ currentQuestion demoPickAgain = currentQuestion demoTypeMode
  /\ callCount Call_generateOptions demoPickAgain
     = S (callCount Call_generateOptions demoTypeMode).
Proof. by vm_compute. Qed.

(** In the demo session option 1 is wrong and option 0 is correct. *)
Lemma pick_answer_and_question_witness :
  wrongSelectedAnswers (step demoConfig demoEnv demoRunning (ClickOption 1)) = ["a"]
  /\ currentQuestion (step demoConfig demoEnv demoRunning (ClickOption 1))
     = currentQuestion demoRunning
  /\ freshQuestion demoConfig (random demoRunning)
       (step demoConfig demoEnv
             (step demoConfig demoEnv demoRunning (ClickOption 0)) (Elapse 300)).
Proof.
  destruct (pick_answer_and_question demoConfig demoEnv demoRunning 1 "a")
    as [Hwrong _]; [by vm_compute | by vm_compute |].
  destruct (pick_answer_and_question demoConfig demoEnv demoRunning 0 "e")
    as [_ Hcorrect]; [by vm_compute | by vm_compute |].
  destruct Hwrong as (Hquestion & Hrejected & _); [by vm_compute|].
  destruct Hcorrect as (_ & _ & Hfresh); [by vm_compute|].
  split; [exact Hrejected | split; [exact Hquestion | by apply Hfresh]].
Defined.

(** C1 (counterexample).  The callback scheduled by the correct answer of
    the cancelled session is still pending in the new session, the only
    one to be; when it runs it replaces the question the new session drew
    (["o"]) by another one (["u"]). *)
Lemma stale_callback_replaces_the_question :
  timeouts demoAnswered = [(400, DeferredNextQuestion)]
  /\ timeouts demoRestarted = [(400, DeferredNextQuestion)]
  /\ view demoConfig demoRestarted = ViewActive
  /\ currentQuestion demoRestarted = Some "o"
  /\ currentQuestion demoStale = Some "u"
  /\ currentQuestion demoStale <> currentQuestion demoRestarted.
Proof. vm_compute. repeat split; discriminate. Qed.

(** ** Further properties of the component *)

(** *** Invariants of the states the component reaches *)

Section Reachable.
Context {T : Type} `{EqDecision T}.
Variable config : TimedChallengeConfig T.
Variable env : Environment.


Lemma length_append (a b : string) :
  String.length (a +:+ b) = (String.length a + String.length b)%nat.
Proof. induction a as [|c a IH]; simpl; [done | by rewrite IH]. Qed.

Lemma gameModeKey_ne (key : string) : gameModeKey key <> key.
Proof.
  unfold gameModeKey. intros Heq.
  apply (f_equal String.length) in Heq.
  rewrite length_append in Heq. simpl in Heq. lia.
Qed.

Lemma localStorage_committedForm (r : State T) :
  localStorage (committedForm config env r) = savedPreferences config r.
Proof.
  unfold committedForm.
  by destruct (optionsFire config r), (gameOverFires config r).
Qed.

Lemma localStorage_commit (r : State T) :
  localStorage (commit config env r) = savedPreferences config r.
Proof.
  unfold commit.
  rewrite effects_save, effect_shuffledOptions_fires, effect_gameOver_fires.
  unfold effect_firstQuestion, nextQuestion, regenerated, gameOver, call, draw, id.
  destruct (gameOverFires config r), (optionsFire config r); repeat case_match; done.
Qed.

Lemma persisted_savedPreferences (r : State T) :
  (changed config dep_gameMode r = false ->
   localStorage r !! gameModeKey (localStorageKey config) = Some (gameMode r)) ->
  (changed config dep_challengeDuration r = false ->
   localStorage r !! localStorageKey config = Some (toString (challengeDuration r))) ->
  savedPreferences config r !! gameModeKey (localStorageKey config) = Some (gameMode r)
  /\ savedPreferences config r !! localStorageKey config
     = Some (toString (challengeDuration r)).
Proof.
  intros Hmode Hduration. unfold savedPreferences.
  pose proof (gameModeKey_ne (localStorageKey config)) as Hne.
  destruct (changed config dep_gameMode r), (changed config dep_challengeDuration r);
    rewrite ?lookup_insert_eq, ?(lookup_insert_ne _ _ _ _ Hne),
      ?lookup_insert_eq, ?(lookup_insert_ne _ _ _ _ (not_eq_sym Hne)),
      ?lookup_insert_eq; auto.
Qed.

Lemma render_persisted (s s1 : State T) :
  quiescent config s = true -> committed s1 = committed s ->
  localStorage s1 = localStorage s ->
  persisted config s -> persisted config (render config env s1).
Proof.
  intros Hq Hc Hl [Hmode Hduration].
  rewrite (render_after_update config env s s1 Hq Hc).
  destruct (renderedForm_rendersTo config env s1) as ((Hg & Hd & _) & _).
  unfold persisted. rewrite Hg, Hd.
  change (localStorage (renderedForm config env s1))
    with (localStorage (committedForm config env s1)).
  rewrite localStorage_committedForm.
  apply persisted_savedPreferences; unfold changed;
    rewrite Hc, (quiescent_committed config s Hq); simpl;
    intros Heq; apply negb_false_iff, bool_decide_eq_true_1 in Heq;
    rewrite Hl, <- Heq; done.
Qed.

Lemma mount_persisted (window : option (gmap string string)) (stats0 : Stats)
    (reverse0 : SmartReverseMode) :
  persisted config (mount config env window stats0 reverse0).
Proof.
  unfold mount. set (s0 := initialState config window stats0 reverse0).
  rewrite (render_unmounted config env s0 eq_refl).
  destruct (renderedForm_rendersTo config env (commit config env s0))
    as ((Hg & Hd & _) & _).
  destruct (commit_rendersTo config env s0) as ((Hg0 & Hd0 & _) & _).
  unfold persisted. rewrite Hg, Hd.
  change (localStorage (renderedForm config env (commit config env s0)))
    with (localStorage (committedForm config env (commit config env s0))).
  rewrite localStorage_committedForm.
  assert (committed (commit config env s0) = Some (depsOf config s0)) as Hc
    by reflexivity.
  apply persisted_savedPreferences; intros _; rewrite localStorage_commit.
  - rewrite Hg0. by apply persisted_savedPreferences.
  - rewrite Hd0. by apply persisted_savedPreferences.
Qed.

Lemma step_invariant (P : State T -> Prop) :
  (forall s e h, settled config s = true -> wired config s e = Some h -> P s ->
     P (render config env (invoke config env h s))) ->
  (forall s p, settled config s = true -> P s -> P (runDeferred config env s p)) ->
  (forall s l, P s -> P (set_timeouts l s)) ->
  (forall s t, P s -> P (set_now t s)) ->
  forall s e, settled config s = true -> P s -> P (step config env s e).
Proof.
  intros Hhandler Hdeferred Htimeouts Hnow s e Hs HP.
  destruct (wired config s e) as [h|] eqn:Hw.
  - rewrite (step_wired config env s e h Hw). by eapply Hhandler.
  - destruct (step_unwired config env s e Hw) as [-> | [ms ->]]; [done|].
    change (step config env s (Elapse ms)) with (elapse config env ms s).
    unfold elapse. apply Hnow.
    apply (fold_runDeferred_ind config env
             (fun s' => settled config s' = true /\ P s')).
    + intros s' p [Hs' HP']. split; [by apply runDeferred_game | by apply Hdeferred].
    + split; [exact Hs | by apply Htimeouts].
Qed.

Lemma run_invariant (P : State T -> Prop) :
  (forall s e h, settled config s = true -> wired config s e = Some h -> P s ->
     P (render config env (invoke config env h s))) ->
  (forall s p, settled config s = true -> P s -> P (runDeferred config env s p)) ->
  (forall s l, P s -> P (set_timeouts l s)) ->
  (forall s t, P s -> P (set_now t s)) ->
  forall trace s, settled config s = true -> P s -> P (run config env s trace).
Proof.
  intros Hhandler Hdeferred Htimeouts Hnow.
  induction trace as [|e trace IH]; intros s Hs HP; simpl; [done|].
  apply IH; [by apply step_settled | by apply step_invariant].
Qed.

Lemma invoke_localStorage (h : Handler) (s : State T) :
  localStorage (invoke config env h s) = localStorage s.
Proof.
  destruct h; simpl; unfold_handlers; repeat case_match; reflexivity.
Qed.

Lemma fireDeferred_localStorage (d : Deferred) (s : State T) :
  localStorage (fireDeferred config d s) = localStorage s.
Proof. by destruct d. Qed.

Lemma runDeferred_untouched_cells (s : State T) (p : Z * Deferred) :
  gameMode (runDeferred config env s p) = gameMode s
  /\ challengeDuration (runDeferred config env s p) = challengeDuration s.
Proof.
  unfold runDeferred.
  destruct (render_untouched config env
              (fireDeferred config (snd p) (set_now (Z.max (now s) (fst p)) s)))
    as (-> & -> & _).
  by destruct (snd p).
Qed.

Lemma run_persisted (window : option (gmap string string)) (stats0 : Stats)
    (reverse0 : SmartReverseMode) (trace : list Event) :
  let s := run config env (mount config env window stats0 reverse0) trace in
  persisted config s /\ truthy (gameMode s) = true.
Proof.
  apply (run_invariant (fun s => persisted config s /\ truthy (gameMode s) = true)).
  - intros s e h Hs Hw [Hp Hg]. apply settled_spec in Hs as [Hq _]. split.
    + apply (render_persisted s); auto using invoke_committed, invoke_localStorage.
    + destruct (render_untouched config env (invoke config env h s)) as (-> & _).
      destruct h as [m| | | | | | | |]; simpl; unfold_handlers; repeat case_match;
        try done.
      by destruct m.
  - intros s p Hs [Hp Hg]. apply settled_spec in Hs as [Hq _]. split.
    + unfold runDeferred. apply (render_persisted s); [done | | | done].
      * by rewrite fireDeferred_committed.
      * by rewrite fireDeferred_localStorage.
    + by destruct (runDeferred_untouched_cells s p) as (-> & _).
  - done.
  - done.
  - apply mount_settled.
  - split; [apply mount_persisted|].
    unfold mount.
    destruct (render_untouched config env (initialState config window stats0 reverse0))
      as (-> & _).
    simpl. unfold initialGameMode. repeat case_match; done.
Qed.

(** X1.  At every moment after the mount the preference store holds the
    current mode under the key [<localStorageKey>_gameMode] and the
    current duration, as [toString] writes it, under [localStorageKey], whatever
    the store held before and whatever inputs followed; the two keys are
    different. *)
Theorem preferences_are_persisted (window : option (gmap string string))
    (stats0 : Stats) (reverse0 : SmartReverseMode) (trace : list Event) :
  let s := run config env (mount config env window stats0 reverse0) trace in
  localStorage s !! gameModeKey (localStorageKey config) = Some (gameMode s)
  /\ localStorage s !! localStorageKey config = Some (toString (challengeDuration s))
  /\ gameModeKey (localStorageKey config) <> localStorageKey config.
Proof.
  intros s. destruct (run_persisted window stats0 reverse0 trace) as [[Hm Hd] _].
  repeat split; [exact Hm | exact Hd | apply gameModeKey_ne].
Qed.

Lemma truthy_toString (d : JSNum) : truthy (toString d) = true.
Proof.
  destruct d as [|z|[]]; try done. unfold toString.
  assert (forall v, truthy (pretty v) = true) as Hpretty
      by (intros v; apply (parseInt_pretty v)).
  destruct (Z.abs z <? 2 ^ 53); [apply Hpretty|].
  assert (forall v, truthy (exponential v) = true) as Hexp.
  { intros v. unfold exponential.
    destruct (String.rev (dropZeros (String.rev (pretty v)))) as [|c [|c' rest]];
      [apply Hpretty | done | done]. }
  destruct (z <? 0), (shortest (Z.abs z) <? 10 ^ 21); try done;
    [apply Hpretty | apply Hexp].
Qed.

(** X2.  A component mounted on the store a previous one left behind
    starts with the mode the previous one had at that moment, and with
    its duration as [parseInt] reads it from the form it was written in:
    the duration itself where that was [NaN] (stored as ["NaN"]) or
    below [2^53]. *)
Theorem preferences_survive_a_remount (window : option (gmap string string))
    (stats0 stats1 : Stats) (reverse0 reverse1 : SmartReverseMode)
    (trace : list Event) :
  let s := run config env (mount config env window stats0 reverse0) trace in
  let s' := mount config env (Some (localStorage s)) stats1 reverse1 in
  gameMode s' = gameMode s
  /\ challengeDuration s' = parseInt (toString (challengeDuration s))
  /\ (challengeDuration s = NaN
      \/ (exists n, challengeDuration s = Num n /\ Z.abs n < 2 ^ 53) ->
      challengeDuration s' = challengeDuration s).
Proof.
  intros s s'.
  destruct (run_persisted window stats0 reverse0 trace) as [[Hm Hd] Hg].
  fold s in Hm, Hd, Hg.
  assert (gameMode s' = gameMode s
          /\ challengeDuration s' = parseInt (toString (challengeDuration s)))
    as [Hmode Hduration].
  { unfold s', mount.
    destruct (render_untouched config env
                (initialState config (Some (localStorage s)) stats1 reverse1))
      as (-> & -> & _).
    simpl. unfold initialGameMode, initialChallengeDuration.
    rewrite Hm, Hd, Hg. by rewrite truthy_toString. }
  split; [exact Hmode|]. split; [exact Hduration|].
  rewrite Hduration. intros [-> | (n & -> & Hn)]; [done|].
  by apply parseInt_toString.
Qed.

(** Beyond: a duration of [10^21] is written as ["1e+21"], and the next
    mount starts with a duration of 1. *)
Example remount_of_a_large_duration :
  challengeDuration demoLarge = Num (10 ^ 21)
  /\ localStorage demoLarge !! "blitz" = Some "1e+21"
  /\ challengeDuration
       (mount demoConfig demoEnv (Some (localStorage demoLarge)) reset
              (mkReverse false 0))
     = Num 1.
Proof. by vm_compute. Qed.

Lemma invoke_shuffledOptions (h : Handler) (s : State T) :
  shuffledOptions (invoke config env h s) = shuffledOptions s.
Proof.
  destruct h; simpl; unfold_handlers; repeat case_match; reflexivity.
Qed.

Lemma fireDeferred_cells (d : Deferred) (s : State T) :
  shuffledOptions (fireDeferred config d s) = shuffledOptions s
  /\ wrongSelectedAnswers (fireDeferred config d s) = wrongSelectedAnswers s
  /\ gameMode (fireDeferred config d s) = gameMode s
  /\ reverse (fireDeferred config d s) = reverse s
  /\ (is_Some (currentQuestion s) -> is_Some (currentQuestion (fireDeferred config d s))).
Proof. destruct d; simpl; repeat split; eauto. Qed.

Lemma invoke_freshQuestion (h : Handler) (s : State T) :
  freshQuestion config 0 s -> freshQuestion config 0 (invoke config env h s).
Proof.
  intros (k & Hk & Hq). unfold freshQuestion.
  destruct h; simpl; unfold_handlers; repeat case_match; simpl; eauto with lia.
Qed.

Lemma fireDeferred_freshQuestion (d : Deferred) (s : State T) :
  freshQuestion config 0 s -> freshQuestion config 0 (fireDeferred config d s).
Proof.
  intros (k & Hk & Hq). unfold freshQuestion. destruct d; simpl; eauto with lia.
Qed.

Lemma render_freshQuestion (s : State T) :
  freshQuestion config 0 s -> freshQuestion config 0 (render config env s).
Proof.
  intros (k & Hk & Hq). exists k. split; [done|].
  rewrite render_currentQuestion; [done | left; rewrite Hq; eauto].
Qed.

Lemma currentQuestion_commit_unmounted (r : State T) :
  committed r = None -> currentQuestion r = None -> items config <> [] ->
  freshQuestion config 0 (commit config env r).
Proof.
  intros Hc Hq Hi. unfold commit.
  rewrite effects_save, effect_shuffledOptions_fires, effect_gameOver_fires.
  unfold effect_firstQuestion, freshQuestion. simpl. rewrite Hc, Hq.
  destruct (items config) as [|x l] eqn:Hitems; [done|].
  unfold nextQuestion, regenerated, gameOver, call, draw, id. rewrite Hitems.
  destruct (gameOverFires config r), (optionsFire config r); simpl;
    (eexists; split; [apply Nat.le_0_l | reflexivity]).
Qed.

Lemma run_freshQuestion (window : option (gmap string string)) (stats0 : Stats)
    (reverse0 : SmartReverseMode) (trace : list Event) :
  items config <> [] ->
  freshQuestion config 0
    (run config env (mount config env window stats0 reverse0) trace).
Proof.
  intros Hi.
  apply (run_invariant (freshQuestion config 0)).
  - intros s e h Hs Hw Hq. by apply render_freshQuestion, invoke_freshQuestion.
  - intros s p Hs Hq. unfold runDeferred.
    by apply render_freshQuestion, fireDeferred_freshQuestion.
  - done.
  - done.
  - apply mount_settled.
  - unfold mount. set (s0 := initialState config window stats0 reverse0).
    rewrite (render_unmounted config env s0 eq_refl).
    destruct (currentQuestion_commit_unmounted s0 eq_refl eq_refl Hi) as (k & Hk & Hq).
    exists k. split; [done|].
    destruct (renderedForm_rendersTo config env (commit config env s0))
      as (_ & _ & _ & Hsame & _).
    rewrite Hsame; [done | rewrite Hq; eauto].
Qed.

(** X3.  While items are selected there is a current question at every
    moment after the mount, and it is one [generateQuestion] drew from the
    items: no input and no callback clears it. *)
Theorem a_question_is_always_present (window : option (gmap string string))
    (stats0 : Stats) (reverse0 : SmartReverseMode) (trace : list Event) :
  items config <> [] ->
  exists k, currentQuestion (run config env (mount config env window stats0 reverse0) trace)
            = Some (generateQuestion config (items config) k).
Proof.
  intros Hi.
  destruct (run_freshQuestion window stats0 reverse0 trace Hi) as (k & _ & Hq).
  by exists k.
Qed.

End Reachable.

(** *** The rejected options of Pick mode *)

Section Rejected.
Context {T : Type} `{EqDecision T}.
Variable config : TimedChallengeConfig T.
Variable env : Environment.


Lemma render_facts (s s1 : State T) :
  quiescent config s = true -> committed s1 = committed s ->
  let s' := render config env s1 in
  wrongSelectedAnswers s' = (if regenerates config s s1 then [] else wrongSelectedAnswers s1)
  /\ shuffledOptions s'
     = (if regenerates config s s1 then newOptions config env s1 s1 else shuffledOptions s1)
  /\ gameMode s' = gameMode s1 /\ timer s' = timer s1 /\ reverse s' = reverse s1
  /\ currentQuestion s' = currentQuestion s1
  /\ (isFinished s' = false -> isFinished s1 = false).
Proof.
  intros Hq Hc s'.
  destruct (render_options config env s s1 Hq Hc) as (_ & Hw & Ho).
  destruct (render_untouched config env s1) as (Hg & _ & _ & _ & _ & _ & Ht & Hr & _).
  repeat split; try done.
  - apply render_currentQuestion. right.
    rewrite Hc, (quiescent_committed config s Hq). eauto.
  - unfold s'. rewrite (render_after_update config env s s1 Hq Hc).
    destruct (renderedForm_cells config env s1) as (-> & _).
    by intros [? _]%orb_false_iff.
Qed.

Lemma optionVerdict_ext (o : string) (s s1 : State T) :
  currentQuestion s1 = currentQuestion s ->
  isReverseActive config s1 = isReverseActive config s ->
  optionVerdict config o s1 = optionVerdict config o s.
Proof. unfold optionVerdict. by intros -> ->. Qed.

Lemma regenerates_false (s s1 : State T) :
  regenerates config s s1 = false -> gameMode s1 = "Pick" ->
  is_Some (currentQuestion s1) -> is_Some (generateOptions config) ->
  optionsDeps config s1 = optionsDeps config s.
Proof.
  unfold regenerates. intros Hr Hg Hq Ho.
  rewrite !(bool_decide_eq_true_2 _ Hq), !(bool_decide_eq_true_2 _ Ho),
    !(bool_decide_eq_true_2 _ Hg), !andb_true_r in Hr.
  by apply negb_false_iff, bool_decide_eq_true_1 in Hr.
Qed.

Lemma regenerates_true (s s1 : State T) :
  regenerates config s s1 = true -> is_Some (generateOptions config).
Proof.
  unfold regenerates. intros Hr.
  apply andb_true_iff in Hr as [Hr _]. apply andb_true_iff in Hr as [_ Hr].
  by apply bool_decide_eq_true_1 in Hr.
Qed.

Lemma rejectedOptions_nil (s : State T) :
  (generateOptions config = None -> shuffledOptions s = []) ->
  wrongSelectedAnswers s = [] -> rejectedOptions config s.
Proof.
  intros Hnone Hnil. unfold rejectedOptions. rewrite Hnil.
  split; [exact Hnone|]. split; [constructor|].
  split; [by intros o ?%elem_of_nil|]. split; [done|].
  by intros o ?%elem_of_nil.
Qed.

Lemma render_rejected_nil (s s1 : State T) :
  quiescent config s = true -> committed s1 = committed s ->
  rejectedOptions config s -> shuffledOptions s1 = shuffledOptions s ->
  wrongSelectedAnswers s1 = [] ->
  rejectedOptions config (render config env s1).
Proof.
  intros Hq Hc (Hnone & _) Ho Hw.
  destruct (render_facts s s1 Hq Hc) as (Hw' & Ho' & _).
  apply rejectedOptions_nil.
  - intros Hgen. rewrite Ho'.
    destruct (regenerates config s s1) eqn:Hr; [|by rewrite Ho; auto].
    apply regenerates_true in Hr. rewrite Hgen in Hr. by destruct Hr.
  - rewrite Hw'. by destruct (regenerates config s s1).
Qed.

Lemma render_rejected (s s1 : State T) :
  quiescent config s = true -> committed s1 = committed s ->
  rejectedOptions config s -> shuffledOptions s1 = shuffledOptions s ->
  NoDup (wrongSelectedAnswers s1) ->
  (forall o, o ∈ wrongSelectedAnswers s1 -> o ∈ shuffledOptions s) ->
  (isRunning (timer s1) = false -> isFinished s1 = false ->
   wrongSelectedAnswers s1 = []) ->
  (forall o, o ∈ wrongSelectedAnswers s1 ->
     gameMode s1 = "Pick" /\ is_Some (currentQuestion s1)
     /\ (optionsDeps config s1 = optionsDeps config s ->
         optionVerdict config o s1 = Some false)) ->
  rejectedOptions config (render config env s1).
Proof.
  intros Hq Hc Hrej Ho Hdup Hsub Hstopped Hwrong.
  destruct (regenerates config s s1) eqn:Hr.
  { destruct (render_facts s s1 Hq Hc) as (Hw' & Ho' & _). rewrite Hr in Hw', Ho'.
    apply rejectedOptions_nil; [|done].
    intros Hgen. apply regenerates_true in Hr. rewrite Hgen in Hr. by destruct Hr. }
  destruct (render_facts s s1 Hq Hc) as (Hw' & Ho' & Hg' & Ht' & Hr' & Hq' & Hf').
  rewrite Hr in Hw', Ho'. destruct Hrej as (Hnone & _).
  unfold rejectedOptions. rewrite Hw', Ho', Hg', Ht', Ho.
  split; [exact Hnone|]. split; [exact Hdup|]. split; [exact Hsub|].
  split; [by auto|].
  intros o Ho1. destruct (Hwrong o Ho1) as (Hg & Hsome & Hv). split; [done|].
  rewrite (optionVerdict_ext o s1 (render config env s1)); [| done |].
  - apply Hv. apply regenerates_false; try done.
    destruct (generateOptions config); [eauto|].
    specialize (Hsub o Ho1). rewrite Hnone in Hsub by done. by apply elem_of_nil in Hsub.
  - unfold isReverseActive. by rewrite Hr'.
Qed.
Lemma render_rejected_same (s s1 : State T) :
  quiescent config s = true -> committed s1 = committed s ->
  rejectedOptions config s -> shuffledOptions s1 = shuffledOptions s ->
  wrongSelectedAnswers s1 = wrongSelectedAnswers s ->
  (isRunning (timer s1) = false -> isRunning (timer s) = false) ->
  isFinished s1 = isFinished s ->
  (wrongSelectedAnswers s <> [] -> gameMode s1 = gameMode s) ->
  (is_Some (currentQuestion s) -> is_Some (currentQuestion s1)) ->
  rejectedOptions config (render config env s1).
Proof.
  intros Hq Hc Hrej Ho Hw Hrun Hfin Hmode Hquestion.
  pose proof Hrej as (Hnone & Hdup & Hsub & Hstopped & Hwrong).
  apply (render_rejected s); try done; rewrite Hw; try done.
  - rewrite Hfin. auto.
  - intros o Ho1. destruct (Hwrong o Ho1) as (Hg & Hv).
    assert (wrongSelectedAnswers s <> []) as Hne.
    { intros Hnil. rewrite Hnil in Ho1. by apply elem_of_nil in Ho1. }
    split; [by rewrite (Hmode Hne)|]. split.
    + apply Hquestion. unfold optionVerdict in Hv.
      destruct (currentQuestion s); [eauto | done].
    + intros Hdeps. injection Hdeps as Hq1 _ Hr1.
      by rewrite (optionVerdict_ext o s s1).
Qed.

Lemma invoke_quiet (h : Handler) (s : State T) :
  let s1 := invoke config env h s in
  shuffledOptions s1 = shuffledOptions s
  /\ (is_Some (currentQuestion s) -> is_Some (currentQuestion s1))
  /\ match h with
     | OnStart | OnCancel => wrongSelectedAnswers s1 = []
     | OnOption selected =>
         isRunning (timer s1) = isRunning (timer s) /\ isFinished s1 = isFinished s
         /\ gameMode s1 = gameMode s /\ currentQuestion s1 = currentQuestion s
         /\ match optionVerdict config selected s with
            | Some true => wrongSelectedAnswers s1 = []
            | Some false =>
                wrongSelectedAnswers s1 = (wrongSelectedAnswers s ++ [selected])%list
            | None => wrongSelectedAnswers s1 = wrongSelectedAnswers s
            end
     | _ =>
         wrongSelectedAnswers s1 = wrongSelectedAnswers s
         /\ isRunning (timer s1) = isRunning (timer s) /\ isFinished s1 = isFinished s
         /\ (gameMode s1 = gameMode s \/ exists m, h = OnGameMode m)
     end.
Proof.
  intros s1. split; [apply invoke_shuffledOptions|]. split.
  { intros Hq. unfold s1. destruct h; simpl; unfold_handlers; repeat case_match;
      simpl; eauto. }
  unfold s1. destruct h; simpl; unfold_handlers; repeat case_match; simpl;
    repeat split; eauto.
Qed.

Lemma view_pregame (s : State T) :
  view config s = ViewPreGame -> isRunning (timer s) = false /\ isFinished s = false.
Proof.
  unfold view. destruct (items config); [done|].
  destruct (isRunning (timer s)), (isFinished s); done.
Qed.

Lemma wired_gameMode (s : State T) (e : Event) (m : BlitzGameMode) :
  wired config s e = Some (OnGameMode m) -> view config s = ViewPreGame.
Proof.
  destruct e; simpl; intros Hw; repeat case_match; simplify_eq.
  match goal with
  | Hb : _ && _ = true |- _ => apply andb_true_iff in Hb as [Hv _]
  end.
  by apply bool_decide_eq_true_1 in Hv.
Qed.

Lemma wired_onOption (s : State T) (e : Event) (selected : string) :
  wired config s e = Some (OnOption selected) ->
  (selected ∈ shuffledOptions s) /\ (selected ∉ wrongSelectedAnswers s)
  /\ view config s = ViewActive /\ gameMode s = "Pick".
Proof.
  intros Hw.
  assert (exists i, e = ClickOption i) as [i ->].
  { destruct e; simpl in Hw; repeat case_match; simplify_eq. eauto. }
  destruct (wired_option config s i _ Hw) as (sel & Hsel & Hlook & Hnot & Hview & Hpick).
  simplify_eq. repeat split; try done. by eapply list_elem_of_lookup_2.
Qed.

Lemma wired_onSubmit (s : State T) (e : Event) :
  wired config s e = Some OnSubmit ->
  e = SubmitForm /\ view config s = ViewActive /\ gameMode s = "Type".
Proof.
  destruct e; simpl; intros Hw; repeat case_match; simplify_eq.
  match goal with
  | Hb : _ && _ = true |- _ => apply andb_true_iff in Hb as [Hv Hm]
  end.
  apply bool_decide_eq_true_1 in Hv, Hm. done.
Qed.

Lemma invoke_rejected (s : State T) (e : Event) (h : Handler) :
  settled config s = true -> wired config s e = Some h ->
  rejectedOptions config s -> rejectedOptions config (render config env (invoke config env h s)).
Proof.
  intros Hs Hw Hrej. apply settled_spec in Hs as [Hq _].
  pose proof (invoke_committed config env h s) as Hc.
  destruct (invoke_quiet h s) as (Ho & Hquestion & Hh).
  pose proof Hrej as (Hnone & Hdup & Hsub & Hstopped & Hwrong).
  assert (forall m, h = OnGameMode m -> wrongSelectedAnswers s <> [] -> False) as Hpre.
  { intros m -> Hne. apply wired_gameMode, view_pregame in Hw as [Hr Hf]. auto. }
  assert (forall s1,
    s1 = invoke config env h s ->
    wrongSelectedAnswers s1 = wrongSelectedAnswers s
    /\ isRunning (timer s1) = isRunning (timer s) /\ isFinished s1 = isFinished s
    /\ (gameMode s1 = gameMode s \/ exists m, h = OnGameMode m) ->
    rejectedOptions config (render config env s1)) as Hsame.
  { intros s1 -> (Hw1 & Hr1 & Hf1 & Hg1).
    apply (render_rejected_same s); try done.
    - by rewrite Hr1.
    - intros Hne. destruct Hg1 as [Hg1|[m' Hm']]; [done|]. exfalso. by eapply Hpre. }
  destruct h as [m| d | | | | value | | selected | seconds];
    try (by apply (render_rejected_nil s)); try (by apply Hsame).
  destruct Hh as (Hr1 & Hf1 & Hg1 & Hq1 & Hv).
  destruct (wired_onOption s e selected Hw) as (Hshown & Hnot & Hview & Hpick).
  destruct (optionVerdict config selected s) as [[|]|] eqn:Hverdict.
  - by apply (render_rejected_nil s).
  - apply view_active in Hview as (_ & Hrunning & _).
    apply (render_rejected s); try done; rewrite ?Hv.
    + apply NoDup_app. split; [done|]. split; [|apply NoDup_singleton].
      intros x Hx Hx'%list_elem_of_singleton. by subst x.
    + intros o [?|Ho1%list_elem_of_singleton]%elem_of_app; [auto | by subst o].
    + rewrite Hr1, Hrunning. done.
    + intros o Hin. split; [by rewrite Hg1|]. split.
      * rewrite Hq1. unfold optionVerdict in Hverdict.
        destruct (currentQuestion s); [eauto | done].
      * intros Hdeps. injection Hdeps as Hq2 _ Hr2.
        rewrite (optionVerdict_ext o s (invoke config env (OnOption selected) s)) by done.
        apply elem_of_app in Hin as [?|Ho1%list_elem_of_singleton];
          [by apply Hwrong | by subst o].
  - apply (render_rejected_same s); try done; by rewrite ?Hr1, ?Hg1, ?Hq1.
Qed.
Lemma runDeferred_rejected (s : State T) (p : Z * Deferred) :
  settled config s = true -> rejectedOptions config s ->
  rejectedOptions config (runDeferred config env s p).
Proof.
  intros Hs Hrej. apply settled_spec in Hs as [Hq _]. unfold runDeferred.
  set (s0 := set_now (Z.max (now s) (fst p)) s).
  destruct (fireDeferred_cells config (snd p) s0) as (Ho & Hw & Hg & Hr & Hquestion).
  apply (render_rejected_same s); try done.
  - by rewrite fireDeferred_committed.
  - destruct (snd p); simpl; done.
  - by destruct (fireDeferred_game config (snd p) s0) as (-> & _).
Qed.

Lemma optionsFire_none (r : State T) :
  generateOptions config = None -> optionsFire config r = false.
Proof.
  intros Hnone. unfold optionsFire. rewrite Hnone.
  rewrite (bool_decide_eq_false_2 (is_Some None)) by (by intros [? ?]).
  by rewrite andb_false_r.
Qed.

Lemma shuffledOptions_commit (r : State T) :
  generateOptions config = None ->
  shuffledOptions (commit config env r) = shuffledOptions r.
Proof.
  intros Hnone. unfold commit.
  rewrite effects_save, effect_shuffledOptions_fires, effect_gameOver_fires.
  rewrite (optionsFire_none r Hnone).
  unfold effect_firstQuestion, nextQuestion, gameOver, call, draw, id.
  destruct (gameOverFires config r); repeat case_match; done.
Qed.

Lemma mount_rejected (window : option (gmap string string)) (stats0 : Stats)
    (reverse0 : SmartReverseMode) :
  rejectedOptions config (mount config env window stats0 reverse0).
Proof.
  unfold mount. set (s0 := initialState config window stats0 reverse0).
  rewrite (render_unmounted config env s0 eq_refl).
  apply rejectedOptions_nil.
  - intros Hnone.
    destruct (renderedForm_cells config env (commit config env s0))
      as (_ & _ & _ & _ & -> & _).
    by rewrite (optionsFire_none _ Hnone), shuffledOptions_commit.
  - destruct (renderedForm_rendersTo config env (commit config env s0))
      as (_ & _ & [-> | ->] & _); [|done].
    by destruct (commit_rendersTo config env s0) as (_ & _ & [-> | ->] & _).
Qed.

Lemma run_rejected (window : option (gmap string string)) (stats0 : Stats)
    (reverse0 : SmartReverseMode) (trace : list Event) :
  rejectedOptions config (run config env (mount config env window stats0 reverse0) trace).
Proof.
  apply (run_invariant config env (rejectedOptions config)).
  - intros s e h. apply invoke_rejected.
  - apply runDeferred_rejected.
  - done.
  - done.
  - apply mount_settled.
  - apply mount_rejected.
Qed.

(** X9.  At every moment after the mount the rejected options are
    pairwise distinct and are among the options shown, so there are never
    more of them than options. *)
Theorem rejected_options_are_on_screen (window : option (gmap string string))
    (stats0 : Stats) (reverse0 : SmartReverseMode) (trace : list Event) :
  let s := run config env (mount config env window stats0 reverse0) trace in
  NoDup (wrongSelectedAnswers s)
  /\ (forall o, o ∈ wrongSelectedAnswers s -> o ∈ shuffledOptions s)
  /\ (length (wrongSelectedAnswers s) <= length (shuffledOptions s))%nat.
Proof.
  intros s.
  destruct (run_rejected window stats0 reverse0 trace) as (_ & Hdup & Hsub & _).
  split; [exact Hdup|]. split; [exact Hsub|].
  apply submseteq_length, NoDup_submseteq; done.
Qed.

(** X10.  At every moment after the mount every rejected option is a
    wrong answer to the current question in its current direction: the
    correct option is never among them, so its button is never disabled.
    Options are rejected in Pick mode only, and none is before the game. *)
Theorem the_correct_option_stays_enabled (window : option (gmap string string))
    (stats0 : Stats) (reverse0 : SmartReverseMode) (trace : list Event) :
  let s := run config env (mount config env window stats0 reverse0) trace in
  (forall o, o ∈ wrongSelectedAnswers s -> optionVerdict config o s = Some false)
  /\ (forall q getCorrect,
        currentQuestion s = Some q -> getCorrectOption config = Some getCorrect ->
        getCorrect q (isReverseActive config s) ∉ wrongSelectedAnswers s)
  /\ (wrongSelectedAnswers s <> [] -> gameMode s = "Pick")
  /\ (view config s = ViewPreGame -> wrongSelectedAnswers s = []).
Proof.
  intros s.
  destruct (run_rejected window stats0 reverse0 trace) as (_ & _ & _ & Hstopped & Hwrong).
  fold s in Hstopped, Hwrong.
  split; [intros o Ho; by apply Hwrong|]. split; [|split].
  - intros q getCorrect Hq Hg Hin. destruct (Hwrong _ Hin) as [_ Hv].
    unfold optionVerdict in Hv. rewrite Hq, Hg in Hv.
    by rewrite bool_decide_eq_true_2 in Hv.
  - destruct (wrongSelectedAnswers s) as [|o l] eqn:Hl; [done|]. intros _.
    apply (Hwrong o). by left.
  - intros [? ?]%view_pregame. auto.
Qed.

(** X11.  Where Pick mode is not supported ([generateOptions] or
    [getCorrectOption] is missing) its button is never wired, yet the mode
    is ['Pick'] after a mount without a stored mode; and as long as the
    mode is not ['Type'] no input whatsoever submits an answer. *)
Theorem no_answer_without_pick_support (window : option (gmap string string))
    (stats0 : Stats) (reverse0 : SmartReverseMode) (trace : list Event) :
  pickModeSupported config = false ->
  let s := run config env (mount config env window stats0 reverse0) trace in
  (forall s0 : State T, wired config s0 (ClickGameMode Pick) = None)
  /\ (window ≫= (fun store => store !! gameModeKey (localStorageKey config)) = None ->
      gameMode (mount config env window stats0 reverse0) = "Pick")
  /\ (gameMode s <> "Type" -> forall e, verdict config s e = None).
Proof.
  intros Hpick s. split; [|split].
  { intros s0. simpl. rewrite Hpick. simpl. by rewrite andb_false_r. }
  { intros Hstored. unfold mount.
    destruct (render_untouched config env
                (initialState config window stats0 reverse0)) as (-> & _).
    simpl. unfold initialGameMode. destruct window as [store|]; [|done].
    simpl in Hstored. by rewrite Hstored. }
  intros Hmode e.
  destruct (run_rejected window stats0 reverse0 trace) as (Hnone & _).
  fold s in Hnone. rewrite verdict_wired.
  destruct (wired config s e) as [h|] eqn:Hw; [|done].
  destruct h; try done; simpl.
  - by apply wired_onSubmit in Hw as (_ & _ & ?).
  - unfold optionVerdict. unfold pickModeSupported in Hpick.
    destruct (wired_onOption s e selected Hw) as (Hshown & _).
    destruct (generateOptions config).
    + destruct (getCorrectOption config); [done|]. by destruct (currentQuestion s).
    + rewrite Hnone in Hshown by done. by apply elem_of_nil in Hshown.
Qed.
End Rejected.

(** *** The calls an answer makes *)

Section Answers.
Context {T : Type} `{EqDecision T}.
Variable config : TimedChallengeConfig T.
Variable env : Environment.

Lemma invoke_answer_calls (isCorrect : bool) (c : Call) (h : Handler) (s : State T) :
  c ∈ answerCalls isCorrect ->
  callCount c (invoke config env h s)
  = ((if bool_decide (handlerVerdict config h s = Some isCorrect) then 1 else 0)
     + callCount c s)%nat.
Proof.
  intros Hc.
  assert (c = Call_stats_incrementCorrect /\ isCorrect = true
          \/ c = Call_playCorrect /\ isCorrect = true
          \/ c = Call_stats_incrementWrong /\ isCorrect = false
          \/ c = Call_playError /\ isCorrect = false) as Hcases.
  { destruct isCorrect; simpl in Hc;
      apply elem_of_cons in Hc as [->|Hc%list_elem_of_singleton]; subst; tauto. }
  destruct Hcases as [[-> ->]|[[-> ->]|[[-> ->]|[-> ->]]]];
    destruct h as [m|d| | | |value| |selected|seconds]; simpl; unfold_handlers;
    try (destruct (submitVerdict config s) as [[|]|]);
    try (destruct (optionVerdict config selected s) as [[|]|]);
    try match goal with
        | |- context [supportsReverseMode config] =>
            destruct (supportsReverseMode config)
        end;
    simpl; count_calls.
Qed.

Lemma answerCalls_quiet (isCorrect : bool) (c : Call) :
  c ∈ answerCalls isCorrect -> quietCall c = true /\ c <> Call_startTimer.
Proof.
  destruct isCorrect; simpl;
    intros [->|Hc%list_elem_of_singleton]%elem_of_cons; subst; done.
Qed.

Lemma step_answer_calls (isCorrect : bool) (c : Call) (s : State T) (e : Event) :
  c ∈ answerCalls isCorrect ->
  callCount c (step config env s e)
  = ((if bool_decide (verdict config s e = Some isCorrect) then 1 else 0)
     + callCount c s)%nat.
Proof.
  intros Hc. destruct (answerCalls_quiet isCorrect c Hc) as [Hquiet Hstart].
  rewrite verdict_wired.
  destruct (wired config s e) as [h|] eqn:Hw.
  - rewrite (step_wired config env s e h Hw), render_callCount by done.
    by apply invoke_answer_calls.
  - rewrite (bool_decide_eq_false_2 (None = Some _)) by done.
    destruct (step_unwired config env s e Hw) as [-> | [ms ->]]; [done|].
    change (step config env s (Elapse ms)) with (elapse config env ms s).
    by rewrite elapse_callCount.
Qed.

(** X4.  Along every run, [stats.incrementCorrect] and [playCorrect]
    are called once for each correct answer and [stats.incrementWrong] and
    [playError] once for each wrong answer, typed or picked; no other
    input, no effect and no callback calls them. *)
Theorem every_answer_is_counted_once (isCorrect : bool) (c : Call)
    (s : State T) (trace : list Event) :
  c ∈ answerCalls isCorrect ->
  callCount c (run config env s trace)
  = (answers config env isCorrect s trace + callCount c s)%nat.
Proof.
  intros Hc. revert s. induction trace as [|e trace IH]; intros s; simpl; [done|].
  rewrite IH, (step_answer_calls isCorrect c s e Hc). lia.
Qed.
End Answers.

(** *** Answers in Type mode *)

Section Typed.
Context {T : Type} `{EqDecision T}.
Variable config : TimedChallengeConfig T.
Variable env : Environment.



Lemma handleSubmit_cells (s : State T) (isCorrect : bool) :
  submitVerdict config s = Some isCorrect ->
  let s1 := handleSubmit config env s in
  currentQuestion s1 = currentQuestion s /\ userAnswer s1 = ""
  /\ lastAnswerCorrect s1 = Some isCorrect
  /\ timeouts s1 = (timeouts s ++ [submitCallback isCorrect s])%list
  /\ now s1 = now s /\ (random s <= random s1)%nat /\ gameMode s1 = gameMode s.
Proof.
  intros Hv. unfold handleSubmit. rewrite Hv.
  destruct isCorrect, (supportsReverseMode config); simpl; repeat split; lia.
Qed.

Lemma submitVerdict_question (s : State T) (isCorrect : bool) :
  submitVerdict config s = Some isCorrect -> is_Some (currentQuestion s).
Proof. unfold submitVerdict. destruct (currentQuestion s); [eauto | done]. Qed.

Lemma runDeferred_feedback (s : State T) (p : Z * Deferred) :
  lastAnswerCorrect (runDeferred config env s p)
  = match snd p with
    | DeferredNextQuestion | DeferredClearFeedback => None
    | _ => lastAnswerCorrect s
    end.
Proof.
  unfold runDeferred.
  destruct (render_untouched config env
              (fireDeferred config (snd p) (set_now (Z.max (now s) (fst p)) s)))
    as (_ & _ & _ & -> & _).
  by destruct (snd p).
Qed.

Lemma fold_runDeferred_feedback (l : list (Z * Deferred)) : forall s,
  (exists due, (due, DeferredClearFeedback) ∈ l) \/ lastAnswerCorrect s = None ->
  lastAnswerCorrect (fold_left (runDeferred config env) l s) = None.
Proof.
  induction l as [|[due d] l IH]; intros s Hs; simpl.
  { destruct Hs as [[due Hin] | Hs]; [by apply elem_of_nil in Hin | done]. }
  apply IH. pose proof (runDeferred_feedback s (due, d)) as Hf. simpl in Hf.
  destruct Hs as [[due' Hin] | Hnone].
  - apply elem_of_cons in Hin as [[= _ <-] | Hin]; [by right | eauto].
  - right. rewrite Hf. by destruct d.
Qed.

Lemma fold_runDeferred_sameQuestion (l : list (Z * Deferred)) : forall s,
  (forall due, (due, DeferredNextQuestion) ∉ l) -> is_Some (currentQuestion s) ->
  currentQuestion (fold_left (runDeferred config env) l s) = currentQuestion s.
Proof.
  induction l as [|[due d] l IH]; intros s Hl Hq; simpl; [done|].
  assert (d <> DeferredNextQuestion) as Hd.
  { intros ->. apply (Hl due). by left. }
  assert (currentQuestion (runDeferred config env s (due, d)) = currentQuestion s) as Hsame
    by (by apply runDeferred_sameQuestion).
  rewrite IH, Hsame; [done | | by rewrite Hsame].
  intros due' Hin. apply (Hl due'). by right.
Qed.

(** X5.  A submit in Type mode does nothing while the trimmed input is
    empty.  Otherwise it clears the input, records the verdict as feedback,
    leaves the question and schedules one callback: the next question
    300 ms after a correct answer, the clearing of the feedback 800 ms
    after a wrong one.  After a wrong answer the feedback shows the
    correct answer of the question that stays on screen, it is gone once
    800 ms have passed, and the question stays the same however long one
    waits, unless an earlier correct answer still has its callback
    pending. *)
Theorem typed_answer_and_question (s : State T) :
  quiescent config s = true ->
  wired config s SubmitForm = Some OnSubmit ->
  let s' := step config env s SubmitForm in
  (submitVerdict config s = None -> s' = s)
  /\ (forall isCorrect, submitVerdict config s = Some isCorrect ->
        currentQuestion s' = currentQuestion s /\ userAnswer s' = ""
        /\ lastAnswerCorrect s' = Some isCorrect
        /\ timeouts s' = (timeouts s ++ [submitCallback isCorrect s])%list)
  /\ (submitVerdict config s = Some true ->
        forall ms, (300 <= ms)%N ->
          freshQuestion config (random s) (step config env s' (Elapse ms)))
  /\ (submitVerdict config s = Some false ->
        (forall q, currentQuestion s = Some q ->
           feedback config s'
           = Some (FeedbackIncorrect
                     (getCorrectAnswer config q (isReverseActive config s'))))
        /\ (forall ms, (800 <= ms)%N ->
              lastAnswerCorrect (step config env s' (Elapse ms)) = None)
        /\ ((forall due, (due, DeferredNextQuestion) ∉ timeouts s) ->
            forall ms, currentQuestion (step config env s' (Elapse ms))
                       = currentQuestion s)).
Proof.
  intros Hq Hw s'.
  assert (Hstep : s' = render config env (handleSubmit config env s))
    by apply (step_wired config env s _ _ Hw).
  destruct (wired_onSubmit config s _ Hw) as (_ & _ & Hmode).
  assert (Hcells : forall isCorrect, submitVerdict config s = Some isCorrect ->
    currentQuestion s' = currentQuestion s /\ userAnswer s' = ""
    /\ lastAnswerCorrect s' = Some isCorrect
    /\ timeouts s' = (timeouts s ++ [submitCallback isCorrect s])%list
    /\ now s' = now s /\ (random s <= random s')%nat /\ gameMode s' = gameMode s).
  { intros isCorrect Hv.
    destruct (handleSubmit_cells s isCorrect Hv) as (Hcq & Hu & Hl & Ht & Hn & Hr & Hg).
    destruct (render_untouched config env (handleSubmit config env s))
      as (Hg' & _ & Hu' & Hl' & _ & _ & _ & _ & Hn' & Ht').
    pose proof (render_random config env (handleSubmit config env s)) as Hr'.
    rewrite <- Hstep in *.
    rewrite Hg', Hu', Hl', Hn', Ht'. repeat split; try done; [|lia].
    rewrite Hstep, render_currentQuestion; [done | left; rewrite Hcq].
    by eapply submitVerdict_question. }
  split; [|split; [|split]].
  - intros Hv. rewrite Hstep. unfold handleSubmit. rewrite Hv.
    by apply (settle_quiescent config env 3).
  - intros isCorrect Hv. destruct (Hcells isCorrect Hv) as (? & ? & ? & ? & _). done.
  - intros Hv ms Hms. destruct (Hcells true Hv) as (_ & _ & _ & Ht & Hn & Hr & _).
    change (step config env s' (Elapse ms)) with (elapse config env ms s').
    apply (elapse_fresh _ _ _ _ (now s + 300)); [lia | |lia].
    rewrite Ht, elem_of_app, list_elem_of_singleton. by right.
  - intros Hv. destruct (Hcells false Hv) as (Hcq & _ & Hl & Ht & Hn & _ & Hg).
    split; [|split].
    + intros q Hsome. unfold feedback. rewrite Hl, Hcq, Hsome, Hg, Hmode. done.
    + intros ms Hms.
      change (step config env s' (Elapse ms)) with (elapse config env ms s').
      unfold elapse.
      change (lastAnswerCorrect (set_now ?t ?x)) with (lastAnswerCorrect x).
      apply fold_runDeferred_feedback. left. exists (now s + 800).
      unfold dueBy. rewrite sortDue_elem, list_elem_of_filter. split; [simpl; lia|].
      rewrite Ht, elem_of_app, list_elem_of_singleton. by right.
    + intros Hnone ms.
      change (step config env s' (Elapse ms)) with (elapse config env ms s').
      unfold elapse.
      change (currentQuestion (set_now ?t ?x)) with (currentQuestion x).
      rewrite fold_runDeferred_sameQuestion; [done | |].
      * intros due. unfold dueBy. rewrite sortDue_elem, list_elem_of_filter.
        intros [_ Hin]. rewrite Ht, elem_of_app, list_elem_of_singleton in Hin.
        destruct Hin as [Hin | [=]]. by apply (Hnone due).
      * simpl. rewrite Hcq. by eapply submitVerdict_question.
Qed.
End Typed.

(** *** A second submit, and the pending callbacks *)

Section Pending.
Context {T : Type} `{EqDecision T}.
Variable config : TimedChallengeConfig T.
Variable env : Environment.


Lemma wired_submitForm (s : State T) (h : Handler) :
  wired config s SubmitForm = Some h -> h = OnSubmit.
Proof. simpl. case_match; by intros [=]. Qed.

Lemma step_submit_idle (s : State T) :
  quiescent config s = true -> submitVerdict config s = None ->
  step config env s SubmitForm = s.
Proof.
  intros Hq Hv. destruct (wired config s SubmitForm) as [h|] eqn:Hw.
  - pose proof (wired_submitForm s h Hw) as ->.
    rewrite (step_wired config env s _ _ Hw). simpl. unfold handleSubmit.
    rewrite Hv. by apply (settle_quiescent config env 3).
  - by destruct (step_unwired config env s _ Hw) as [-> | [ms [=]]].
Qed.

(** X6.  A second submit right after a first one (the Enter key reaches
    [handleSubmit] through [onKeyPress] and through the [onSubmit] of the
    form) changes nothing and submits no answer: the first has cleared the
    input. *)
Theorem submit_twice_counts_once (s : State T) :
  quiescent config s = true ->
  let s' := step config env s SubmitForm in
  step config env s' SubmitForm = s' /\ verdict config s' SubmitForm = None.
Proof.
  intros Hq s'.
  destruct (wired config s SubmitForm) as [h|] eqn:Hw; cycle 1.
  { assert (s' = s) as Hs'
      by (unfold s'; by destruct (step_unwired config env s _ Hw) as [-> | [ms [=]]]).
    rewrite Hs'. split; [by rewrite <- Hs' at 2|]. unfold verdict. by rewrite Hw. }
  pose proof (wired_submitForm s h Hw) as ->.
  assert (quiescent config s' = true /\ submitVerdict config s' = None) as [Hq' Hv'].
  { unfold s'. destruct (submitVerdict config s) as [isCorrect|] eqn:Hv.
    - rewrite (step_wired config env s _ _ Hw). simpl.
      split; [apply render_quiescent|].
      unfold submitVerdict.
      destruct (render_untouched config env (handleSubmit config env s))
        as (_ & _ & -> & _).
      destruct (handleSubmit_cells config env s isCorrect Hv) as (_ & -> & _).
      by destruct (currentQuestion _).
    - by rewrite step_submit_idle. }
  split; [by apply step_submit_idle|].
  unfold verdict. destruct (wired config s' SubmitForm) as [h|] eqn:Hw'; [|done].
  by rewrite (wired_submitForm s' h Hw').
Qed.
(** The callbacks a handler schedules. *)
Lemma invoke_timeouts (h : Handler) (s : State T) :
  now (invoke config env h s) = now s
  /\ exists scheduled,
       timeouts (invoke config env h s) = (timeouts s ++ scheduled)%list
       /\ Forall (fun p : Z * Deferred => now s < fst p <= now s + 800) scheduled
       /\ (length scheduled <= 2)%nat.
Proof.
  destruct h as [m|d| | | |value| |selected|seconds]; simpl; unfold_handlers;
    try (destruct (submitVerdict config s) as [[|]|]);
    try (destruct (optionVerdict config selected s) as [[|]|]);
    try match goal with
        | |- context [supportsReverseMode config] =>
            destruct (supportsReverseMode config)
        end;
    simpl; (split; [reflexivity|]);
    first [ exists []; split; [by rewrite app_nil_r|]; split; [constructor | simpl; lia]
          | rewrite <- app_assoc; eexists; split; [reflexivity|];
            split; [repeat constructor; simpl; lia | simpl; lia]
          | eexists; split; [reflexivity|];
            split; [repeat constructor; simpl; lia | simpl; lia] ].
Qed.

Lemma runDeferred_timeouts (s : State T) (p : Z * Deferred) :
  timeouts (runDeferred config env s p) = timeouts s.
Proof.
  unfold runDeferred.
  destruct (render_untouched config env
              (fireDeferred config (snd p) (set_now (Z.max (now s) (fst p)) s)))
    as (_ & _ & _ & _ & _ & _ & _ & _ & _ & ->).
  by destruct (snd p).
Qed.

Lemma elapse_timeouts (ms : N) (s : State T) :
  timeouts (elapse config env ms s) = notDueBy (now s + Z.of_N ms) s
  /\ now (elapse config env ms s) = now s + Z.of_N ms.
Proof.
  unfold elapse. split; [|reflexivity].
  change (timeouts (set_now ?t ?x)) with (timeouts x).
  apply (fold_runDeferred_ind config env
           (fun s' => timeouts s' = notDueBy (now s + Z.of_N ms) s)).
  - intros s' p <-. apply runDeferred_timeouts.
  - reflexivity.
Qed.

Lemma step_pendingWithin (s : State T) (e : Event) :
  pendingWithin s -> pendingWithin (step config env s e).
Proof.
  intros Hp. destruct (wired config s e) as [h|] eqn:Hw.
  - rewrite (step_wired config env s e h Hw). unfold pendingWithin.
    destruct (render_untouched config env (invoke config env h s))
      as (_ & _ & _ & _ & _ & _ & _ & _ & -> & ->).
    destruct (invoke_timeouts h s) as (-> & scheduled & -> & Hs & _).
    by apply Forall_app.
  - destruct (step_unwired config env s e Hw) as [-> | [ms ->]]; [done|].
    change (step config env s (Elapse ms)) with (elapse config env ms s).
    unfold pendingWithin. destruct (elapse_timeouts ms s) as [-> ->].
    unfold notDueBy. apply Forall_forall. intros p [Hdue Hin]%list_elem_of_filter.
    unfold pendingWithin in Hp. rewrite Forall_forall in Hp. specialize (Hp p Hin). lia.
Qed.

Lemma run_pendingWithin (trace : list Event) : forall s : State T,
  pendingWithin s -> pendingWithin (run config env s trace).
Proof.
  induction trace as [|e trace IH]; intros s Hs; simpl; [done|].
  by apply IH, step_pendingWithin.
Qed.

Lemma mount_timeouts (window : option (gmap string string)) (stats0 : Stats)
    (reverse0 : SmartReverseMode) :
  timeouts (mount config env window stats0 reverse0) = []
  /\ now (mount config env window stats0 reverse0) = 0.
Proof.
  unfold mount.
  by destruct (render_untouched config env (initialState config window stats0 reverse0))
    as (_ & _ & _ & _ & _ & _ & _ & _ & -> & ->).
Qed.

(** X7.  At every moment after the mount each pending callback is due
    in the future and within 800 ms.  The passing of time removes exactly
    the callbacks that fell due (none of them schedules another one), so
    none is pending once 800 ms have passed without input; and one input
    adds at most two. *)
Theorem callbacks_run_within_800_ms (window : option (gmap string string))
    (stats0 : Stats) (reverse0 : SmartReverseMode) (trace : list Event) :
  let s := run config env (mount config env window stats0 reverse0) trace in
  (forall due d, (due, d) ∈ timeouts s -> now s < due <= now s + 800)
  /\ (forall ms, timeouts (step config env s (Elapse ms))
                 = filter (fun p => now s + Z.of_N ms < fst p) (timeouts s))
  /\ (forall ms, (800 <= ms)%N -> timeouts (step config env s (Elapse ms)) = [])
  /\ (forall e, (length (timeouts (step config env s e)) <= length (timeouts s) + 2)%nat).
Proof.
  intros s.
  assert (pendingWithin s) as Hp.
  { apply run_pendingWithin. unfold pendingWithin.
    destruct (mount_timeouts window stats0 reverse0) as [-> _]. constructor. }
  unfold pendingWithin in Hp. rewrite Forall_forall in Hp.
  split; [|split; [|split]].
  - intros due d Hin. apply (Hp _ Hin).
  - intros ms. change (step config env s (Elapse ms)) with (elapse config env ms s).
    by destruct (elapse_timeouts ms s) as [-> _].
  - intros ms Hms. change (step config env s (Elapse ms)) with (elapse config env ms s).
    destruct (elapse_timeouts ms s) as [-> _]. unfold notDueBy.
    destruct (filter _ (timeouts s)) as [|p l] eqn:Hf; [done|].
    assert (p ∈ filter (fun p => now s + Z.of_N ms < fst p) (timeouts s)) as Hin
      by (rewrite Hf; by left).
    apply list_elem_of_filter in Hin as [Hdue Hin]. specialize (Hp p Hin). lia.
  - intros e. destruct (wired config s e) as [h|] eqn:Hw.
    + rewrite (step_wired config env s e h Hw).
      destruct (render_untouched config env (invoke config env h s))
        as (_ & _ & _ & _ & _ & _ & _ & _ & _ & ->).
      destruct (invoke_timeouts h s) as (_ & scheduled & -> & _ & Hlen).
      rewrite length_app. lia.
    + destruct (step_unwired config env s e Hw) as [-> | [ms ->]]; [lia|].
      change (step config env s (Elapse ms)) with (elapse config env ms s).
      destruct (elapse_timeouts ms s) as [-> _]. unfold notDueBy.
      pose proof (length_filter (fun p => now s + Z.of_N ms < fst p) (timeouts s)). lia.
Qed.
End Pending.

(** *** Keys, the start of a session and the settings *)

Section Keys.
Context {T : Type} `{EqDecision T}.
Variable config : TimedChallengeConfig T.
Variable env : Environment.


Lemma wired_clickOption_none (s : State T) (i : nat) :
  isRunning (timer s) = false \/ gameMode s <> "Pick"
  \/ (length (shuffledOptions s) <= i)%nat ->
  wired config s (ClickOption i) = None.
Proof.
  intros Hcases. destruct (wired config s (ClickOption i)) as [h|] eqn:Hw; [|done].
  destruct (wired_option config s i h Hw) as (sel & _ & Hlook & _ & Hview & Hpick).
  apply view_active in Hview as (_ & Hrun & _).
  apply lookup_lt_Some in Hlook.
  destruct Hcases as [Hr | [Hg | Hl]]; [congruence | done | lia].
Qed.

(** X12.  A key stroke is exactly the click on the option button its
    [keyMap] entry names, and nothing for every other key: the guards of
    the listener ([isRunning], Pick mode, [index < shuffledOptions.length])
    never stop a click the button would take.  Only the first three
    options have a key, a key does nothing outside the active view, and it
    does nothing on a rejected option. *)
Theorem digit_keys_click_the_options (code : string) (s : State T) :
  keyDown config env code s
  = match keyIndex code with
    | Some index => step config env s (ClickOption index)
    | None => s
    end
  /\ (forall index, keyIndex code = Some index -> (index < 3)%nat)
  /\ (view config s <> ViewActive -> keyDown config env code s = s)
  /\ (forall index o,
        keyIndex code = Some index -> shuffledOptions s !! index = Some o ->
        o ∈ wrongSelectedAnswers s -> keyDown config env code s = s).
Proof.
  assert (Hkey : keyDown config env code s
    = match keyIndex code with
      | Some index => step config env s (ClickOption index)
      | None => s
      end).
  { unfold keyDown, handleKeyDown.
    destruct (keyIndex code) as [index|]; [|by case_match].
    assert (forall Hnone : wired config s (ClickOption index) = None,
              step config env s (ClickOption index) = s) as Hstep.
    { intros Hnone. by destruct (step_unwired config env s _ Hnone) as [-> | [ms [=]]]. }
    destruct (isRunning (timer s)) eqn:Hr; cbn [andb];
      [|rewrite Hstep; [done | apply wired_clickOption_none; by left]].
    case_bool_decide as Hg;
      [|rewrite Hstep; [done | apply wired_clickOption_none; right; by left]].
    destruct (Nat.ltb_spec index (length (shuffledOptions s))); [done|].
    rewrite Hstep; [done | apply wired_clickOption_none; right; by right]. }
  split; [exact Hkey|]. split; [|split].
  - unfold keyIndex, keyMap. simpl.
    repeat case_bool_decide; simpl; intros index [= <-]; lia.
  - intros Hview. rewrite Hkey. destruct (keyIndex code) as [index|]; [|done].
    destruct (wired config s (ClickOption index)) as [h|] eqn:Hw.
    + by destruct (wired_option config s index h Hw) as (sel & _ & _ & _ & ? & _).
    + by destruct (step_unwired config env s _ Hw) as [-> | [ms [=]]].
  - intros index o Hindex Hlook Hin. rewrite Hkey, Hindex.
    destruct (wired config s (ClickOption index)) as [h|] eqn:Hw.
    + destruct (wired_option config s index h Hw) as (sel & _ & Hsel & Hnot & _).
      rewrite Hlook in Hsel. by simplify_eq.
    + by destruct (step_unwired config env s _ Hw) as [-> | [ms [=]]].
Qed.
Lemma runDeferred_timer (s : State T) (p : Z * Deferred) :
  timer (runDeferred config env s p)
  = match snd p with
    | DeferredStartTimer => startTimer (timer s)
    | _ => timer s
    end
  /\ callCount Call_startTimer (runDeferred config env s p)
     = ((if bool_decide (snd p = DeferredStartTimer) then 1 else 0)
        + callCount Call_startTimer s)%nat.
Proof.
  unfold runDeferred.
  destruct (render_untouched config env
              (fireDeferred config (snd p) (set_now (Z.max (now s) (fst p)) s)))
    as (_ & _ & _ & _ & _ & _ & -> & _).
  rewrite render_callCount by done.
  destruct (snd p); simpl; unfold_handlers; split; try done; count_calls.
Qed.

Lemma fold_runDeferred_running (l : list (Z * Deferred)) : forall s,
  (exists due, (due, DeferredStartTimer) ∈ l) \/ isRunning (timer s) = true ->
  isRunning (timer (fold_left (runDeferred config env) l s)) = true.
Proof.
  induction l as [|[due d] l IH]; intros s Hs; simpl.
  { destruct Hs as [[due Hin] | Hs]; [by apply elem_of_nil in Hin | done]. }
  apply IH. destruct (runDeferred_timer s (due, d)) as [Ht _]. simpl in Ht.
  destruct Hs as [[due' Hin] | Hrun].
  - apply elem_of_cons in Hin as [[= _ <-] | Hin]; [right; by rewrite Ht | eauto].
  - right. rewrite Ht. by destruct d.
Qed.

Lemma handleStart_cells (s : State T) :
  let s1 := handleStart config s in
  currentQuestion s1 = Some (generateQuestion config (items config) (random s))
  /\ userAnswer s1 = "" /\ lastAnswerCorrect s1 = None
  /\ wrongSelectedAnswers s1 = []
  /\ timeouts s1 = (timeouts s ++ [(now s + 50, DeferredStartTimer);
                                   (now s + 100, DeferredFocusInput)])%list
  /\ now s1 = now s
  /\ callCount Call_startTimer s1 = callCount Call_startTimer s
  /\ callCount Call_resetTimer s1 = S (callCount Call_resetTimer s)
  /\ callCount Call_resetGoals s1 = S (callCount Call_resetGoals s)
  /\ callCount Call_stats_reset s1 = S (callCount Call_stats_reset s).
Proof.
  unfold handleStart. unfold_handlers. simpl.
  rewrite <- app_assoc. repeat split; count_calls.
Qed.

(** X8.  Start (and Try Again) draws a new question, clears the input,
    the feedback and the rejected options, resets the statistics, the goal
    timers and the timer once each, and schedules the start of the timer
    50 ms and the focus of the input 100 ms later: [startTimer] is not
    called by the click itself, and the timer runs once 50 ms or more have
    passed. *)
Theorem start_begins_a_session (s : State T) :
  wired config s ClickStart = Some OnStart ->
  let s' := step config env s ClickStart in
  currentQuestion s' = Some (generateQuestion config (items config) (random s))
  /\ userAnswer s' = "" /\ lastAnswerCorrect s' = None
  /\ wrongSelectedAnswers s' = []
  /\ timeouts s' = (timeouts s ++ [(now s + 50, DeferredStartTimer);
                                   (now s + 100, DeferredFocusInput)])%list
  /\ callCount Call_startTimer s' = callCount Call_startTimer s
  /\ callCount Call_resetTimer s' = S (callCount Call_resetTimer s)
  /\ callCount Call_resetGoals s' = S (callCount Call_resetGoals s)
  /\ callCount Call_stats_reset s' = S (callCount Call_stats_reset s)
  /\ (forall ms, (50 <= ms)%N ->
        isRunning (timer (step config env s' (Elapse ms))) = true).
Proof.
  intros Hw s'.
  assert (Hstep : s' = render config env (handleStart config s))
    by apply (step_wired config env s _ _ Hw).
  destruct (handleStart_cells s) as (Hq & Hu & Hl & Hwr & Ht & Hn & Hc1 & Hc2 & Hc3 & Hc4).
  destruct (render_untouched config env (handleStart config s))
    as (_ & _ & Hu' & Hl' & _ & _ & _ & _ & Hn' & Ht').
  rewrite <- Hstep in *.
  rewrite Hu', Hl', Ht'.
  rewrite Hstep, !render_callCount by done. rewrite <- Hstep.
  repeat split; try done.
  - rewrite Hstep, render_currentQuestion; [done | left; rewrite Hq; eauto].
  - rewrite Hstep. by apply render_wrongSelectedAnswers_nil.
  - intros ms Hms.
    change (step config env s' (Elapse ms)) with (elapse config env ms s').
    unfold elapse. change (timer (set_now ?t ?x)) with (timer x).
    apply fold_runDeferred_running. left. exists (now s + 50).
    unfold dueBy. rewrite sortDue_elem, list_elem_of_filter. split; [simpl; lia|].
    rewrite Ht', Ht, elem_of_app. right. by left.
Qed.

(** X16.  Outside the pre-game view no input changes the mode, the
    duration or the goal-timer switch. *)
Theorem settings_change_before_the_game_only (s : State T) (e : Event) :
  view config s <> ViewPreGame ->
  let s' := step config env s e in
  gameMode s' = gameMode s /\ challengeDuration s' = challengeDuration s
  /\ showGoalTimers s' = showGoalTimers s.
Proof.
  intros Hview s'. unfold s'.
  destruct (wired config s e) as [h|] eqn:Hw.
  - rewrite (step_wired config env s e h Hw).
    destruct (render_untouched config env (invoke config env h s))
      as (-> & -> & _ & _ & -> & _).
    destruct e; simpl in Hw; repeat case_match; simplify_eq; simpl;
      unfold_handlers; repeat case_match; try done.
    all: exfalso; apply Hview;
      repeat match goal with
             | Hb : _ && _ = true |- _ => apply andb_true_iff in Hb as [Hb _]
             | Hb : bool_decide _ = true |- _ => apply bool_decide_eq_true_1 in Hb
             end; done.
  - destruct (step_unwired config env s e Hw) as [-> | [ms ->]]; [done|].
    change (step config env s (Elapse ms)) with (elapse config env ms s).
    unfold elapse.
    apply (fold_runDeferred_ind config env
             (fun s' => gameMode s' = gameMode s
                        /\ challengeDuration s' = challengeDuration s
                        /\ showGoalTimers s' = showGoalTimers s)); [|done].
    intros s0 p (<- & <- & <-). unfold runDeferred.
    destruct (render_untouched config env
                (fireDeferred config (snd p) (set_now (Z.max (now s0) (fst p)) s0)))
      as (-> & -> & _ & _ & -> & _).
    by destruct (snd p).
Qed.
End Keys.

(** *** Once the time is up *)

Section TimeUp.
Context {T : Type} `{EqDecision T}.
Variable config : TimedChallengeConfig T.
Variable env : Environment.

Lemma verdict_active (s : State T) (e : Event) (isCorrect : bool) :
  verdict config s e = Some isCorrect ->
  view config s = ViewActive /\ is_Some (currentQuestion s).
Proof.
  rewrite verdict_wired. destruct (wired config s e) as [h|] eqn:Hw; [|done].
  destruct h; try done; simpl; intros Hv.
  - destruct (wired_onSubmit config s e Hw) as (_ & Hview & _).
    split; [done | by eapply submitVerdict_question].
  - destruct (wired_onOption config s e selected Hw) as (_ & _ & Hview & _).
    split; [done|]. unfold optionVerdict in Hv.
    destruct (currentQuestion s); [eauto | done].
Qed.

(** X15.  At every moment after the mount at which no time is left the
    game is over, the active view is not shown, no input submits an
    answer, and no input changes the counts of correct and wrong answers
    or plays their sounds. *)
Theorem no_answer_once_the_time_is_up (window : option (gmap string string))
    (stats0 : Stats) (reverse0 : SmartReverseMode) (trace : list Event) :
  let s := run config env (mount config env window stats0 reverse0) trace in
  timeLeft (timer s) = Num 0 ->
  isFinished s = true
  /\ view config s <> ViewActive
  /\ (forall e, verdict config s e = None)
  /\ (forall e isCorrect c, c ∈ answerCalls isCorrect ->
        callCount c (step config env s e) = callCount c s).
Proof.
  intros s Hzero.
  assert (settled config s = true) as Hs by apply run_settled, mount_settled.
  apply settled_spec in Hs as [_ Hover].
  assert (isFinished s = true) as Hf by (apply Hover; by rewrite Hzero).
  assert (view config s <> ViewActive) as Hview.
  { intros (_ & _ & Hnot)%view_active. congruence. }
  assert (forall e, verdict config s e = None) as Hnone.
  { intros e. destruct (verdict config s e) as [isCorrect|] eqn:Hv; [|done].
    by destruct (verdict_active s e isCorrect Hv). }
  repeat split; try done.
  intros e isCorrect c Hc.
  rewrite (step_answer_calls config env isCorrect c s e Hc), Hnone.
  by rewrite bool_decide_eq_false_2.
Qed.
End TimeUp.

(** *** The options shown *)

Section Current.
Context {T : Type} `{EqDecision T}.
Variable config : TimedChallengeConfig T.
Variable env : Environment.


Lemma render_optionsCurrent (s s1 : State T) :
  quiescent config s = true -> committed s1 = committed s ->
  optionsCurrent config env s -> shuffledOptions s1 = shuffledOptions s ->
  optionsCurrent config env (render config env s1).
Proof.
  intros Hq Hc Hcur Ho.
  destruct (render_facts config env s s1 Hq Hc) as (_ & Ho' & Hg' & _ & Hr' & Hq' & _).
  assert (isReverseActive config (render config env s1) = isReverseActive config s1)
    as Hrev by (unfold isReverseActive; by rewrite Hr').
  unfold optionsCurrent. rewrite Ho', Hg', Hq', Hrev.
  intros Hpick q generate Hquestion Hgen.
  destruct (regenerates config s s1) eqn:Hreg.
  - exists (random s1). unfold newOptions. by rewrite Hquestion, Hgen.
  - assert (optionsDeps config s1 = optionsDeps config s) as Hdeps.
    { apply regenerates_false; [done | done | rewrite Hquestion; eauto | rewrite Hgen; eauto]. }
    injection Hdeps as Hq1 Hg1 Hr1.
    rewrite Ho, Hr1. apply Hcur; congruence.
Qed.

Lemma mount_optionsCurrent (window : option (gmap string string)) (stats0 : Stats)
    (reverse0 : SmartReverseMode) :
  optionsCurrent config env (mount config env window stats0 reverse0).
Proof.
  unfold mount. set (s0 := initialState config window stats0 reverse0).
  rewrite (render_unmounted config env s0 eq_refl).
  set (r := commit config env s0).
  destruct (renderedForm_rendersTo config env r)
    as ((Hg & _ & _ & _ & _ & _ & _ & Hr & _) & _ & _ & _ & Hsame & _).
  destruct (renderedForm_cells config env r) as (_ & _ & _ & _ & Ho & _).
  assert (committed r = Some (depsOf config s0)) as Hc by reflexivity.
  assert (isReverseActive config (renderedForm config env r) = isReverseActive config r)
    as Hrev by (unfold isReverseActive; by rewrite Hr).
  unfold optionsCurrent.
  rewrite Ho, Hg, Hrev. rewrite Hsame; [|rewrite Hc; eauto].
  intros Hpick q generate Hquestion Hgen.
  assert (optionsFire config r = true) as ->.
  { unfold optionsFire, changed. rewrite Hc, Hquestion, Hgen, Hpick.
    rewrite bool_decide_eq_false_2.
    - by rewrite !bool_decide_eq_true_2 by eauto.
    - intros Heq. apply (f_equal (fun deps => fst (fst deps))) in Heq.
      change (None = currentQuestion r) in Heq. by rewrite Hquestion in Heq. }
  exists (random r). unfold newOptions. by rewrite Hquestion, Hgen.
Qed.

Lemma run_optionsCurrent (window : option (gmap string string)) (stats0 : Stats)
    (reverse0 : SmartReverseMode) (trace : list Event) :
  optionsCurrent config env (run config env (mount config env window stats0 reverse0) trace).
Proof.
  apply (run_invariant config env (optionsCurrent config env)).
  - intros s e h Hs Hw Hcur. apply settled_spec in Hs as [Hq _].
    apply (render_optionsCurrent s); try done.
    + apply invoke_committed.
    + apply invoke_shuffledOptions.
  - intros s p Hs Hcur. apply settled_spec in Hs as [Hq _]. unfold runDeferred.
    set (s0 := set_now (Z.max (now s) (fst p)) s).
    destruct (fireDeferred_cells config (snd p) s0) as (Ho & _).
    apply (render_optionsCurrent s); try done.
    by rewrite fireDeferred_committed.
  - done.
  - done.
  - apply mount_settled.
  - apply mount_optionsCurrent.
Qed.

(** X17.  At every moment after the mount, in Pick mode, the options
    shown are the shuffled result of [generateOptions] for the question
    shown, in the direction shown, with three options asked for: no
    input leaves the options of an earlier question or direction on
    screen. *)
Theorem options_belong_to_the_question (window : option (gmap string string))
    (stats0 : Stats) (reverse0 : SmartReverseMode) (trace : list Event) :
  let s := run config env (mount config env window stats0 reverse0) trace in
  gameMode s = "Pick" ->
  forall q generate,
    currentQuestion s = Some q -> generateOptions config = Some generate ->
    exists k, shuffledOptions s
              = sortRandom env
                  (generate q (items config) 3 (isReverseActive config s) k) (S k).
Proof. intros s. apply run_optionsCurrent. Qed.
End Current.

(** *** White space around a typed answer *)

Lemma append_assoc (a b c : string) : (a +:+ b) +:+ c = a +:+ (b +:+ c).
Proof.
  induction a as [|x a IH]; [done|].
  change (String x ((a +:+ b) +:+ c) = String x (a +:+ (b +:+ c))). by rewrite IH.
Qed.

Lemma append_cons (x : ascii) (a b : string) :
  String x a +:+ b = String x (a +:+ b).
Proof. reflexivity. Qed.

Lemma append_nil_l (b : string) : "" +:+ b = b.
Proof. reflexivity. Qed.

Lemma append_nil_r (a : string) : a +:+ "" = a.
Proof.
  induction a as [|x a IH]; [done|].
  change (String x (a +:+ "") = String x a). by rewrite IH.
Qed.

Lemma padding_cons (c : string) (l : list string) :
  padding (c :: l) = c +:+ padding l.
Proof.
  unfold padding. destruct l as [|c' l]; simpl; [|done].
  by rewrite append_nil_r.
Qed.

Lemma rev_app_spec (a acc : string) :
  String.rev_app a acc = String.rev a +:+ acc.
Proof.
  unfold String.rev. revert acc. induction a as [|x a IH]; intros acc; simpl; [done|].
  rewrite (IH (String x "")), IH, append_assoc. done.
Qed.

Lemma rev_append (a b : string) :
  String.rev (a +:+ b) = String.rev b +:+ String.rev a.
Proof.
  unfold String.rev. revert b. induction a as [|x a IH]; intros b; simpl.
  - by rewrite append_nil_r.
  - rewrite !(rev_app_spec _ (String x "")).
    change (String.rev (a +:+ b)) with (String.rev_app (a +:+ b) "").
    rewrite IH. rewrite append_assoc. done.
Qed.

(** A white space character is taken off, from either side. *)
Lemma stripWhite_character :
  Forall (fun c => forall rest,
            stripWhite false (c +:+ rest) = stripWhite false rest
            /\ stripWhite true (String.rev c +:+ rest) = stripWhite true rest
            /\ startsCharacter (c +:+ rest) = true)
         whiteSpace.
Proof.
  unfold whiteSpace, whiteSpaceCodes.
  repeat (apply Forall_cons; split; [intros rest; repeat split; reflexivity|]).
  constructor.
Qed.

Lemma stripWhite_character_1 (c rest : string) :
  c ∈ whiteSpace ->
  stripWhite false (c +:+ rest) = stripWhite false rest
  /\ stripWhite true (String.rev c +:+ rest) = stripWhite true rest
  /\ startsCharacter (c +:+ rest) = true.
Proof.
  intros Hc. pose proof stripWhite_character as Hall.
  rewrite Forall_forall in Hall. by apply Hall.
Qed.

Lemma trimStart_padding (l : list string) (s : string) :
  Forall (.∈ whiteSpace) l -> trimStart (padding l +:+ s) = trimStart s.
Proof.
  induction 1 as [|c l Hc Hl IH]; [done|].
  rewrite padding_cons, append_assoc. unfold trimStart in *.
  by rewrite (proj1 (stripWhite_character_1 c _ Hc)).
Qed.

Lemma trimEnd_padding (l : list string) : forall s,
  Forall (.∈ whiteSpace) l -> trimEnd (s +:+ padding l) = trimEnd s.
Proof.
  induction l as [|c l IH]; intros s Hl.
  - by rewrite append_nil_r.
  - apply Forall_cons in Hl as [Hc Hl].
    rewrite padding_cons, <- append_assoc, IH by done.
    unfold trimEnd. rewrite rev_append.
    by rewrite (proj1 (proj2 (stripWhite_character_1 c _ Hc))).
Qed.

Lemma startsCharacter_padding (l : list string) :
  Forall (.∈ whiteSpace) l -> startsCharacter (padding l) = true.
Proof.
  destruct 1 as [|c l Hc Hl]; [done|].
  rewrite padding_cons. apply (stripWhite_character_1 c _ Hc).
Qed.

(** What follows a string, and starts with a character, does not make
    white space of the end of the string. *)
Lemma stripWhite_append (pad : string) :
  startsCharacter pad = true ->
  forall n a, (String.length a <= n)%nat ->
  stripWhite false (a +:+ pad)
  = match stripWhite false a with
    | "" => stripWhite false pad
    | s => s +:+ pad
    end.
Proof.
  intros Hpad. induction n as [|n IH]; intros a Hn.
  { destruct a; [done | simpl in Hn; lia]. }
  destruct a as [|b1 [|b2 [|b3 a]]].
  - done.
  - rewrite !append_cons, ?append_nil_l. cbn [stripWhite]. destruct (isWhiteSpace1 b1); [done|].
    destruct pad as [|p1 pad]; [done|]. cbn [startsCharacter] in Hpad.
    assert (isWhiteSpace2 b1 p1 = false) as ->.
    { unfold isWhiteSpace2. apply andb_false_iff. right. apply N.eqb_neq.
      apply orb_true_iff in Hpad as [?%N.ltb_lt | ?%N.leb_le]; lia. }
    destruct pad as [|p2 pad]; [done|].
    assert (isWhiteSpace3 b1 p1 p2 = false) as ->; [|done].
    unfold isWhiteSpace3.
    apply orb_true_iff in Hpad as [Hp%N.ltb_lt | Hp%N.leb_le];
      rewrite !(proj2 (N.eqb_neq (N_of_ascii p1) _)) by lia;
      by rewrite ?andb_false_r, ?andb_false_l.
  - rewrite !append_cons, ?append_nil_l. cbn [stripWhite]. destruct (isWhiteSpace1 b1).
    { apply (IH (String b2 "")). simpl in Hn |- *. lia. }
    destruct (isWhiteSpace2 b1 b2); [done|].
    destruct pad as [|p1 pad]; [done|]. cbn [startsCharacter] in Hpad.
    assert (isWhiteSpace3 b1 b2 p1 = false) as ->; [|done].
    unfold isWhiteSpace3.
    apply orb_true_iff in Hpad as [Hp%N.ltb_lt | Hp%N.leb_le];
      rewrite !(proj2 (N.eqb_neq (N_of_ascii p1) _)) by lia;
      rewrite ?(proj2 (N.leb_gt 128 (N_of_ascii p1))) by lia;
      rewrite ?(proj2 (N.leb_gt (N_of_ascii p1) 138)) by lia;
      by rewrite ?andb_false_r, ?andb_false_l, ?orb_false_r.
  - rewrite !append_cons, ?append_nil_l. cbn [stripWhite]. destruct (isWhiteSpace1 b1).
    { apply (IH (String b2 (String b3 a))). simpl in Hn |- *. lia. }
    destruct (isWhiteSpace2 b1 b2).
    { apply (IH (String b3 a)). simpl in Hn |- *. lia. }
    destruct (isWhiteSpace3 b1 b2 b3); [|done].
    apply (IH a). simpl in Hn. lia.
Qed.

(** White space around a string is taken off by [trim], and nothing
    else. *)
Lemma trim_padding (pad1 pad2 : list string) (s : string) :
  Forall (.∈ whiteSpace) pad1 -> Forall (.∈ whiteSpace) pad2 ->
  trim (padding pad1 +:+ s +:+ padding pad2) = trim s.
Proof.
  intros H1 H2. unfold trim. rewrite trimStart_padding by done.
  unfold trimStart.
  rewrite (stripWhite_append (padding pad2) (startsCharacter_padding pad2 H2)
             (String.length s) s) by done.
  destruct (stripWhite false s) as [|b s'] eqn:Hs.
  - fold (trimStart (padding pad2)).
    rewrite <- (append_nil_r (padding pad2)), trimStart_padding by done. done.
  - by apply trimEnd_padding.
Qed.

Lemma trim_white (pad : list string) :
  Forall (.∈ whiteSpace) pad -> trim (padding pad) = "".
Proof.
  intros Hpad. unfold trim.
  rewrite <- (append_nil_r (padding pad)), trimStart_padding by done. done.
Qed.

Section Trimmed.
Context {T : Type} `{EqDecision T}.
Variable config : TimedChallengeConfig T.
Variable env : Environment.

Lemma step_changeInput (s : State T) (value : string) :
  quiescent config s = true ->
  wired config s (ChangeInput value) = Some (OnChange value) ->
  step config env s (ChangeInput value) = set_userAnswer value s.
Proof.
  intros Hq Hw. rewrite (step_wired config env s _ _ Hw). simpl.
  by apply (settle_quiescent config env 3).
Qed.

(** X18.  White space before and after a typed answer, of whichever of
    the characters [trim] removes, changes neither the verdict nor, where
    the answer is submitted, the state the submit leads to; an input of
    white space only is not submitted. *)
Theorem white_space_around_the_answer (s : State T) (pad1 pad2 : list string)
    (answer : string) :
  quiescent config s = true ->
  Forall (.∈ whiteSpace) pad1 -> Forall (.∈ whiteSpace) pad2 ->
  let padded := padding pad1 +:+ answer +:+ padding pad2 in
  verdict config (step config env s (ChangeInput padded)) SubmitForm
  = verdict config (step config env s (ChangeInput answer)) SubmitForm
  /\ (forall isCorrect,
        verdict config (step config env s (ChangeInput answer)) SubmitForm
        = Some isCorrect ->
        run config env s [ChangeInput padded; SubmitForm]
        = run config env s [ChangeInput answer; SubmitForm])
  /\ (forall white,
        Forall (.∈ whiteSpace) white -> answer = padding white ->
        verdict config (step config env s (ChangeInput answer)) SubmitForm = None).
Proof.
  intros Hq H1 H2 padded.
  pose proof (trim_padding pad1 pad2 answer H1 H2) as Htrim. fold padded in Htrim.
  assert (forall value, wired config (set_userAnswer value s) SubmitForm
                        = wired config s SubmitForm) as Hwired by done.
  destruct (wired config s SubmitForm) as [h|] eqn:Hsubmit; cycle 1.
  { assert (forall value, step config env s (ChangeInput value) = s) as Hstep.
    { intros value.
      assert (wired config s (ChangeInput value) = None) as Hw
        by (simpl in Hsubmit |- *; by case_match).
      by destruct (step_unwired config env s _ Hw) as [-> | [ms [=]]]. }
    unfold run. cbn [fold_left]. rewrite !Hstep. unfold verdict. rewrite Hsubmit.
    repeat split; done. }
  pose proof (wired_submitForm config s h Hsubmit) as ->.
  assert (forall value, step config env s (ChangeInput value) = set_userAnswer value s)
    as Hstep.
  { intros value. apply step_changeInput; [done|].
    simpl in Hsubmit |- *. by case_match. }
  unfold run. cbn [fold_left]. rewrite !Hstep.
  assert (forall value, verdict config (set_userAnswer value s) SubmitForm
                        = submitVerdict config (set_userAnswer value s)) as Hverdict.
  { intros value. unfold verdict. by rewrite Hwired. }
  rewrite !Hverdict.
  assert (submitVerdict config (set_userAnswer padded s)
          = submitVerdict config (set_userAnswer answer s)) as Hsame.
  { unfold submitVerdict. simpl. by rewrite Htrim. }
  split; [exact Hsame|]. split.
  - intros isCorrect Hv.
    rewrite !(step_wired config env _ SubmitForm OnSubmit) by (by rewrite Hwired).
    f_equal. simpl. unfold handleSubmit. rewrite Hsame, Hv.
    by destruct isCorrect, (supportsReverseMode config).
  - intros white Hwhite ->. unfold submitVerdict. simpl.
    rewrite (trim_white white Hwhite).
    by destruct (currentQuestion s).
Qed.
End Trimmed.


(** *** The times of the goals *)

Example formatGoalTime_examples :
  formatGoalTime 125 = "2:05" /\ formatGoalTime 59 = "0:59"
  /\ formatGoalTime 600 = "10:00" /\ formatGoalTime (-5) = "-1:-5".
Proof. by vm_compute. Qed.

Lemma goalSeconds_checked : forallb goalSeconds_ok (seq 0 60) = true.
Proof. vm_compute. reflexivity. Qed.

(** X13.  For a goal of a non-negative whole number of seconds below
    [2^53] the seconds are shown with exactly two characters, and minutes
    and seconds read back ([parseInt]) as the quotient and the remainder
    by 60, which determine the goal. *)
Theorem goal_time_reads_back (targetSeconds : Z) :
  0 <= targetSeconds < 2 ^ 53 ->
  String.length (goalSeconds targetSeconds) = 2%nat
  /\ parseInt (goalSeconds targetSeconds) = Num (targetSeconds `mod` 60)
  /\ parseInt (goalMinutes targetSeconds) = Num (targetSeconds / 60)
  /\ 60 * (targetSeconds / 60) + targetSeconds `mod` 60 = targetSeconds.
Proof.
  intros Ht.
  pose proof (Z.mod_pos_bound targetSeconds 60 ltac:(lia)) as Hr.
  pose proof (Z.div_mod targetSeconds 60 ltac:(lia)) as Hdiv.
  assert (goalSeconds targetSeconds = goalSeconds (Z.of_nat (Z.to_nat (targetSeconds `mod` 60))))
    as ->.
  { unfold goalSeconds. rewrite Z2Nat.id by lia.
    rewrite !ofInteger_safe by lia. unfold remainder.
    rewrite !Z.rem_mod_nonneg by lia. by rewrite Z.mod_mod. }
  pose proof goalSeconds_checked as Hall. rewrite forallb_forall in Hall.
  specialize (Hall (Z.to_nat (targetSeconds `mod` 60))).
  rewrite in_seq in Hall. specialize (Hall ltac:(lia)).
  apply andb_true_iff in Hall as [Hl%bool_decide_eq_true_1 Hp%bool_decide_eq_true_1].
  rewrite Hl, Hp, Z2Nat.id by lia.
  repeat split; [|lia].
  unfold goalMinutes. rewrite floor_of_sixtieth by done.
  apply parseInt_toString. lia.
Qed.

(** Beyond: the minutes of a goal of [6 * 10^22] seconds are shown in
    exponent form, of which [parseInt] reads the first digit. *)
Example formatGoalTime_large :
  formatGoalTime (6 * 10 ^ 22) = "1e+21:00"
  /\ parseInt (goalMinutes (6 * 10 ^ 22)) = Num 1.
Proof. by vm_compute. Qed.


(** *** The selected levels *)

Example selectedLevels_examples :
  selectedLevels false (Some ["Set 10"; "Set 2"; "Level 1"]) = Some "1, 2, 10"
  /\ selectedLevels true (Some ["Set 10"; "Set 2"; "Level 1"])
     = Some "Level 1, Level 2, Level 10"
  /\ selectedLevels false (Some []) = None
  /\ sortSets ["b3"; "a3"; "x"; "12"] = ["x"; "b3"; "a3"; "12"]
  /\ sortSets ["Set 9007199254740993"; "Set 9007199254740992"]
     = ["Set 9007199254740993"; "Set 9007199254740992"].
Proof. vm_compute. repeat split. Qed.


Lemma insertSet_perm (a : string) (l : list string) : insertSet a l ≡ₚ a :: l.
Proof.
  induction l as [|b l IH]; simpl; [done|].
  case_match; [|done]. rewrite IH. apply Permutation_swap.
Qed.

Lemma insertSet_sorted (a : string) (l : list string) :
  StronglySorted byNumber l -> StronglySorted byNumber (insertSet a l).
Proof.
  induction l as [|b l IH]; simpl; intros Hl.
  - repeat constructor.
  - apply StronglySorted_cons in Hl as [Hb Hl].
    destruct (Z.leb_spec (setNumber b) (setNumber a)) as [Hle | Hlt].
    + apply StronglySorted_cons. split; [|by apply IH].
      rewrite insertSet_perm. by constructor.
    + apply StronglySorted_cons. split.
      * constructor; [unfold byNumber; lia|].
        eapply Forall_impl; [exact Hb|]. unfold byNumber. intros x Hx. lia.
      * by apply StronglySorted_cons.
Qed.

Lemma insertSet_last (a : string) (l : list string) :
  Forall (fun b => byNumber b a) l -> insertSet a l = (l ++ [a])%list.
Proof.
  induction 1 as [|b l Hb Hl IH]; simpl; [done|].
  unfold byNumber in Hb. apply Z.leb_le in Hb. by rewrite Hb, IH.
Qed.

Lemma fold_insertSet (l : list string) : forall acc,
  StronglySorted byNumber acc ->
  let sorted := fold_left (fun acc a => insertSet a acc) l acc in
  sorted ≡ₚ (acc ++ l)%list /\ StronglySorted byNumber sorted
  /\ (StronglySorted byNumber (acc ++ l) -> sorted = (acc ++ l)%list).
Proof.
  induction l as [|a l IH]; intros acc Hacc; simpl.
  - rewrite app_nil_r. done.
  - destruct (IH (insertSet a acc) (insertSet_sorted a acc Hacc)) as (Hp & Hs & Hid).
    split; [|split; [done|]].
    + rewrite Hp, insertSet_perm. simpl. apply Permutation_middle.
    + intros Hall.
      assert (insertSet a acc = (acc ++ [a])%list) as Hlast.
      { apply insertSet_last, Forall_forall. intros b Hb.
        eapply StronglySorted_app_1_elem_of; [exact Hall | done | by left]. }
      rewrite Hlast in Hid |- *. rewrite <- app_assoc in Hid. simpl in Hid. auto.
Qed.

(** X14.  The selected levels are listed in the order of the numbers
    in their names (["Set 10"] after ["Set 2"]), each level once and none
    lost; sorting again, as the second label does, changes nothing. *)
Theorem levels_are_listed_by_number (selectedSets : list string) :
  sortSets selectedSets ≡ₚ selectedSets
  /\ StronglySorted byNumber (sortSets selectedSets)
  /\ sortSets (sortSets selectedSets) = sortSets selectedSets.
Proof.
  destruct (fold_insertSet selectedSets [] ltac:(constructor)) as (Hp & Hs & _).
  split; [exact Hp|]. split; [exact Hs|].
  destruct (fold_insertSet (sortSets selectedSets) [] ltac:(constructor))
    as (_ & _ & Hsame).
  exact (Hsame Hs).
Qed.

(** *** Instances *)

(** The demo session after four correct answers. *)
Lemma a_question_is_always_present_witness :
  exists k, currentQuestion (run demoConfig demoEnv demoMounted
                                 (ClickStart :: Elapse 100 :: demoFourCorrect))
            = Some (generateQuestion demoConfig kana k).
Proof.
  apply (a_question_is_always_present demoConfig demoEnv (Some ∅) reset
           (mkReverse false 0) (ClickStart :: Elapse 100 :: demoFourCorrect)).
  discriminate.
Defined.

(** Four correct answers make four calls of [stats.incrementCorrect]. *)
Lemma every_answer_is_counted_once_witness :
  callCount Call_stats_incrementCorrect (run demoConfig demoEnv demoRunning demoFourCorrect)
  = (4 + callCount Call_stats_incrementCorrect demoRunning)%nat.
Proof.
  etrans.
  - apply (every_answer_is_counted_once demoConfig demoEnv true
             Call_stats_incrementCorrect demoRunning demoFourCorrect).
    by left.
  - by vm_compute.
Defined.

(** "zz" is wrong: the question stays and the input is cleared. *)
Lemma typed_answer_and_question_witness :
  currentQuestion (step demoConfig demoEnv demoTyping SubmitForm)
  = currentQuestion demoTyping
  /\ userAnswer (step demoConfig demoEnv demoTyping SubmitForm) = ""
  /\ lastAnswerCorrect (step demoConfig demoEnv
                             (step demoConfig demoEnv demoTyping SubmitForm)
                             (Elapse 800)) = None.
Proof.
  destruct (typed_answer_and_question demoConfig demoEnv demoTyping)
    as (_ & Hcells & _ & Hwrong); [by vm_compute | by vm_compute |].
  destruct (Hcells false) as (Hquestion & Hinput & _); [by vm_compute|].
  destruct Hwrong as (_ & Hfeedback & _); [by vm_compute|].
  split; [exact Hquestion | split; [exact Hinput | by apply Hfeedback]].
Defined.

(** The same session, submitted twice. *)
Lemma submit_twice_counts_once_witness :
  step demoConfig demoEnv (step demoConfig demoEnv demoTyping SubmitForm) SubmitForm
  = step demoConfig demoEnv demoTyping SubmitForm.
Proof.
  by destruct (submit_twice_counts_once demoConfig demoEnv demoTyping)
    as [Hsame _]; [by vm_compute|].
Defined.

(** Start on the mounted demo component. *)
Lemma start_begins_a_session_witness :
  wrongSelectedAnswers (step demoConfig demoEnv demoMounted ClickStart) = []
  /\ isRunning (timer (step demoConfig demoEnv
                            (step demoConfig demoEnv demoMounted ClickStart)
                            (Elapse 50))) = true.
Proof.
  destruct (start_begins_a_session demoConfig demoEnv demoMounted)
    as (_ & _ & _ & Hrejected & _ & _ & _ & _ & _ & Hrunning); [by vm_compute|].
  split; [exact Hrejected | by apply Hrunning].
Defined.

(** Without Pick mode, started in the default mode: neither a click on an
    option nor a submit is an answer. *)
Lemma no_answer_without_pick_support_witness :
  verdict typeOnlyConfig
    (run typeOnlyConfig demoEnv
         (mount typeOnlyConfig demoEnv (Some ∅) reset (mkReverse false 0))
         typeOnlySession)
    (ClickOption 0) = None
  /\ verdict typeOnlyConfig
       (run typeOnlyConfig demoEnv
            (mount typeOnlyConfig demoEnv (Some ∅) reset (mkReverse false 0))
            typeOnlySession)
       SubmitForm = None.
Proof.
  destruct (no_answer_without_pick_support typeOnlyConfig demoEnv (Some ∅) reset
              (mkReverse false 0) typeOnlySession) as (_ & _ & Hnone);
    [reflexivity|].
  split; apply Hnone; by vm_compute.
Defined.

(** A goal of 125 seconds, shown as 2:05. *)
Lemma goal_time_reads_back_witness :
  String.length (goalSeconds 125) = 2%nat
  /\ parseInt (goalSeconds 125) = Num (125 `mod` 60)
  /\ parseInt (goalMinutes 125) = Num (125 / 60)
  /\ 60 * (125 / 60) + 125 `mod` 60 = 125.
Proof. apply (goal_time_reads_back 125). lia. Defined.

(** The demo session after the notification that no time is left. *)
Lemma no_answer_once_the_time_is_up_witness :
  isFinished (run demoConfig demoEnv demoMounted demoTimeUp) = true
  /\ verdict demoConfig (run demoConfig demoEnv demoMounted demoTimeUp) (ClickOption 0)
     = None.
Proof.
  destruct (no_answer_once_the_time_is_up demoConfig demoEnv (Some ∅) reset
              (mkReverse false 0) demoTimeUp) as (Hover & _ & Hnone & _);
    [by vm_compute|].
  split; [exact Hover | apply Hnone].
Defined.

(** A click on the mode button, which the running game does not show. *)
Lemma settings_change_before_the_game_only_witness :
  gameMode (step demoConfig demoEnv demoRunning (ClickGameMode Type_))
  = gameMode demoRunning.
Proof.
  by destruct (settings_change_before_the_game_only demoConfig demoEnv demoRunning
                 (ClickGameMode Type_)) as (Hmode & _); [by vm_compute|].
Defined.

(** The options of the running demo session are those of its question. *)
Lemma options_belong_to_the_question_witness :
  exists k, shuffledOptions demoRunning
            = sortRandom demoEnv
                (demoOptions "e" kana 3 (isReverseActive demoConfig demoRunning) k) (S k).
Proof.
  apply (options_belong_to_the_question demoConfig demoEnv (Some ∅) reset
           (mkReverse false 0) [ClickStart; Elapse 100]); by vm_compute.
Defined.

(** An ideographic space before "e" and a no-break space and a line feed
    after it: the answer is judged as "e" is. *)
Lemma white_space_around_the_answer_witness :
  verdict demoConfig
    (step demoConfig demoEnv demoTypeReady
       (ChangeInput (padding [utf8 12288] +:+ "e" +:+ padding [utf8 160; utf8 10])))
    SubmitForm
  = verdict demoConfig (step demoConfig demoEnv demoTypeReady (ChangeInput "e")) SubmitForm.
Proof.
  by destruct (white_space_around_the_answer demoConfig demoEnv demoTypeReady
                 [utf8 12288] [utf8 160; utf8 10] "e") as [Hsame _];
    [by vm_compute
    | apply (bool_decide_unpack _); by vm_compute
    | apply (bool_decide_unpack _); by vm_compute |].
Defined.
